(** * rendezvous3d-panel: field resolution, bounds, camera presets,
      view-angle scaling and scene reconciliation

    A shallow embedding of the TypeScript sources

    - [components/utils/ThreeSceneHelpers.ts]  (DataFieldProcessor,
      BoundsCalculator),
    - [components/CameraAxisEditor.tsx]        (handleAxisClick),
    - [components/utils/ViewAngleScaling.ts]   (ViewAngleScaling),
    - [components/utils/ThreeSceneObjectManager.ts] and
      [components/ThreeScene.tsx]              (the reconciler),
    - [components/utils/CommonHelpers.ts]      (getFieldOptions),
    - [components/TargetObjectEditor.tsx],
      [components/MeasurementSelectEditor.tsx],
      [components/ObjectsEditor.tsx] and
      [components/ViewAngleScalingEditor.tsx]  (the option editors),

    followed by the properties established about them.

    Numbers.  A JavaScript [number] is modelled by [JS.number]: an exact
    rational, or one of [NaN], [+Infinity], [-Infinity].  Arithmetic on
    finite values is exact: IEEE-754 rounding, overflow to an infinity
    and the sign of zero are not represented.  The view-angle scaling
    code needs [Math.tan] and [Math.sqrt]; it is embedded over the real
    numbers, with the same three special values where the code can
    produce them (a division by zero).

    Strings are sequences of 8-bit characters; white space is the ASCII
    white space. *)

From Stdlib Require Import String Ascii List Bool Arith ZArith QArith Lia.
From Stdlib Require Import Qreduction Qminmax DecimalString.
From Stdlib Require Import Reals Lra Lqa.
Import ListNotations.

Set Implicit Arguments.

(* ================================================================== *)
(** * The JavaScript runtime the sources rely on                        *)
(* ================================================================== *)

Module JS.

Local Open Scope string_scope.

(** ** Numbers *)

Inductive number : Type :=
| Fin (q : Q)
| PInf
| NInf
| NaN.

Definition of_Z (z : Z) : number := Fin (inject_Z z).

Definition isFinite (x : number) : bool :=
  match x with Fin _ => true | _ => false end.

Definition isNaN (x : number) : bool :=
  match x with NaN => true | _ => false end.

(** [ToBoolean] on a number: [0] and [NaN] are falsy. *)
Definition truthy (x : number) : bool :=
  match x with
  | Fin q => negb (Qeq_bool q 0)
  | PInf | NInf => true
  | NaN => false
  end.

(** [x || d] on numbers. *)
Definition num_or (x d : number) : number := if truthy x then x else d.

(** [x === y] on numbers ([NaN] differs from itself). *)
Definition num_eqb (x y : number) : bool :=
  match x, y with
  | Fin a, Fin b => Qeq_bool a b
  | PInf, PInf | NInf, NInf => true
  | _, _ => false
  end.

Definition neg (x : number) : number :=
  match x with
  | Fin q => Fin (Qred (- q))
  | PInf => NInf
  | NInf => PInf
  | NaN => NaN
  end.

Definition add (x y : number) : number :=
  match x, y with
  | NaN, _ | _, NaN => NaN
  | Fin a, Fin b => Fin (Qred (a + b))
  | PInf, NInf | NInf, PInf => NaN
  | PInf, _ | _, PInf => PInf
  | NInf, _ | _, NInf => NInf
  end.

Definition sub (x y : number) : number := add x (neg y).

(** Sign of a number that is not [NaN]: [Lt], [Eq] (zero) or [Gt]. *)
Definition sign (x : number) : comparison :=
  match x with
  | Fin q => Qcompare q 0
  | PInf => Gt
  | NInf => Lt
  | NaN => Eq
  end.

Definition signed_inf (s1 s2 : comparison) : number :=
  match s1, s2 with
  | Eq, _ | _, Eq => NaN
  | Gt, Gt | Lt, Lt => PInf
  | _, _ => NInf
  end.

Definition mul (x y : number) : number :=
  match x, y with
  | NaN, _ | _, NaN => NaN
  | Fin a, Fin b => Fin (Qred (a * b))
  | _, _ => signed_inf (sign x) (sign y)
  end.

Definition div (x y : number) : number :=
  match x, y with
  | NaN, _ | _, NaN => NaN
  | Fin a, Fin b =>
      if Qeq_bool b 0 then signed_inf (Qcompare a 0) Gt
      else Fin (Qred (a / b))
  | Fin _, _ => Fin 0
  | _, Fin b => signed_inf (sign x) (match Qcompare b 0 with Lt => Lt | _ => Gt end)
  | _, _ => NaN
  end.

(** [Math.min(a, b)] and [Math.max(a, b)]: [NaN] as soon as an argument
    is [NaN]. *)
Definition Math_min (x y : number) : number :=
  match x, y with
  | NaN, _ | _, NaN => NaN
  | NInf, _ | _, NInf => NInf
  | PInf, z | z, PInf => z
  | Fin a, Fin b => if Qle_bool a b then Fin a else Fin b
  end.

Definition Math_max (x y : number) : number :=
  match x, y with
  | NaN, _ | _, NaN => NaN
  | PInf, _ | _, PInf => PInf
  | NInf, z | z, NInf => z
  | Fin a, Fin b => if Qle_bool a b then Fin b else Fin a
  end.

(** ** Strings *)

Definition isWhiteSpace (c : ascii) : bool :=
  match nat_of_ascii c with
  | 9%nat | 10%nat | 11%nat | 12%nat | 13%nat | 32%nat => true
  | _ => false
  end.

Definition isEmpty (s : string) : bool :=
  match s with EmptyString => true | _ => false end.

Fixpoint trimStart (s : string) : string :=
  match s with
  | EmptyString => EmptyString
  | String c s' => if isWhiteSpace c then trimStart s' else s
  end.

Fixpoint trimEnd (s : string) : string :=
  match s with
  | EmptyString => EmptyString
  | String c s' =>
      let t := trimEnd s' in
      if isWhiteSpace c && isEmpty t then EmptyString else String c t
  end.

(** [s.trim()] *)
Definition trim (s : string) : string := trimEnd (trimStart s).

(** [s.includes(c)] for a one-character needle. *)
Fixpoint includes (c : ascii) (s : string) : bool :=
  match s with
  | EmptyString => false
  | String a s' => Ascii.eqb a c || includes c s'
  end.

(** [s.indexOf(c)] for a one-character needle; [None] stands for [-1]. *)
Fixpoint indexOf (c : ascii) (s : string) : option nat :=
  match s with
  | EmptyString => None
  | String a s' =>
      if Ascii.eqb a c then Some 0%nat
      else option_map S (indexOf c s')
  end.

(** [s.split(c)]: the pieces between the separators; never empty.  The
    result is built as its first piece and the remaining ones. *)
Fixpoint split_pieces (sep : ascii) (s : string) : string * list string :=
  match s with
  | EmptyString => (EmptyString, [])
  | String a s' =>
      let (hd, tl) := split_pieces sep s' in
      if Ascii.eqb a sep then (EmptyString, hd :: tl)
      else (String a hd, tl)
  end.

Definition split (sep : ascii) (s : string) : list string :=
  let (hd, tl) := split_pieces sep s in hd :: tl.

(** [s || d] on strings: the empty string is falsy. *)
Definition str_or (s d : string) : string := if isEmpty s then d else s.

(** ** [parseFloat] *)

Definition digit_of (c : ascii) : option Z :=
  let n := nat_of_ascii c in
  if (48 <=? n)%nat && (n <=? 57)%nat then Some (Z.of_nat (n - 48)) else None.

(** Reads the longest run of decimal digits: its value (continuing
    [acc]), the number of digits read, and what follows. *)
Fixpoint takeDigits (s : string) (acc : Z) (n : nat) : Z * nat * string :=
  match s with
  | EmptyString => (acc, n, s)
  | String c s' =>
      match digit_of c with
      | Some d => takeDigits s' (10 * acc + d)%Z (S n)
      | None => (acc, n, s)
      end
  end.

Definition pow10 (e : Z) : Q :=
  match e with
  | Z0 => 1
  | Zpos p => inject_Z (10 ^ Zpos p)
  | Zneg p => / inject_Z (10 ^ Zpos p)
  end.

(** The optional [ExponentPart]: [e] or [E], an optional sign, and at
    least one digit; anything else is no exponent. *)
Definition exponentPart (s : string) : Z :=
  match s with
  | String c s1 =>
      if Ascii.eqb c "e" || Ascii.eqb c "E" then
        let '(sg, s2) :=
          match s1 with
          | String "+" r => (1%Z, r)
          | String "-" r => ((-1)%Z, r)
          | _ => (1%Z, s1)
          end in
        let '(v, n, _) := takeDigits s2 0%Z 0%nat in
        match n with O => 0%Z | S _ => (sg * v)%Z end
      else 0%Z
  | EmptyString => 0%Z
  end.

(** The unsigned part of a [StrDecimalLiteral], longest valid prefix. *)
Definition unsignedLiteral (s : string) : number :=
  if String.prefix "Infinity" s then PInf
  else
    let '(iv, ni, r1) := takeDigits s 0%Z 0%nat in
    let '(mv, nf, r2) :=
      match r1 with
      | String "." r => takeDigits r iv 0%nat
      | _ => (iv, 0%nat, r1)
      end in
    match (ni + nf)%nat with
    | O => NaN
    | S _ =>
        Fin (Qred (inject_Z mv * pow10 (- Z.of_nat nf) * pow10 (exponentPart r2)))
    end.

Definition parseFloat (s : string) : number :=
  match trimStart s with
  | String "-" r => neg (unsignedLiteral r)
  | String "+" r => unsignedLiteral r
  | t => unsignedLiteral t
  end.

(** [cut c s]: what precedes and what follows the first [c] of [s]. *)
Fixpoint cut (c : ascii) (s : string) : option (string * string) :=
  match s with
  | EmptyString => None
  | String a s' =>
      if Ascii.eqb a c then Some (EmptyString, s')
      else match cut c s' with
           | Some (x, y) => Some (String a x, y)
           | None => None
           end
  end.

(** A line terminator, which [.] of a regular expression does not match. *)
Definition isLineTerminator (c : ascii) : bool :=
  match nat_of_ascii c with
  | 10%nat | 13%nat => true
  | _ => false
  end.

Fixpoint hasLineTerminator (s : string) : bool :=
  match s with
  | EmptyString => false
  | String a s' => isLineTerminator a || hasLineTerminator s'
  end.

(** ** Values found in a telemetry column *)

Inductive value : Type :=
| VNum (n : number)
| VStr (s : string)
| VBool (b : bool)
| VNull
| VUndefined.

(** [String(v)].  The decimal rendering of a number is the runtime's
    [Number::toString]; it is a parameter of the development. *)
Section ToString.

Variable Number_toString : number -> string.

Definition String_of (v : value) : string :=
  match v with
  | VNum n => Number_toString n
  | VStr s => s
  | VBool true => "true"
  | VBool false => "false"
  | VNull => "null"
  | VUndefined => "undefined"
  end.

End ToString.

End JS.

(* ================================================================== *)
(** * types.ts                                                          *)
(* ================================================================== *)

Module Types.

Inductive DataSourceType : Type := const | field.

Record DataField : Type := {
  sourceType : DataSourceType;
  value : string
}.

Inductive OnOff : Type := on | off.

Inductive ShapeType : Type := sphere | model3d | annotation | polyline.

Record BaseShape : Type := {
  id : string;
  name : string;
  visible : bool
}.

Record SphereShape : Type := {
  sphere_color : string;
  sphere_posX : DataField;
  sphere_posY : DataField;
  sphere_posZ : DataField;
  autoRadius : OnOff;
  radius : option JS.number;
  sphere_autoScaleFactor : option JS.number
}.

Inductive LineDirection : Type := normal | inverted.

Record AnnotationShape : Type := {
  textSize : JS.number;
  textColor : string;
  annotation_posX : DataField;
  annotation_posY : DataField;
  annotation_posZ : DataField;
  text : DataField;
  lineDirection : LineDirection
}.

Record PolylineShape : Type := {
  strokeSize : JS.number;
  strokeColor : string;
  pointsX : DataField;
  pointsY : DataField;
  pointsZ : DataField;
  closePath : OnOff;
  smoothCurve : OnOff
}.

Inductive Unit_ : Type := m | km.

Record ModelShape : Type := {
  url : string;
  model_posX : DataField;
  model_posY : DataField;
  model_posZ : DataField;
  quatX : option DataField;
  quatY : option DataField;
  quatZ : option DataField;
  quatW : option DataField;
  autoScale : OnOff;
  scale : option JS.number;
  model_autoScaleFactor : option JS.number;
  model_unit : option Unit_
}.

(** [Shape = SphereShape | AnnotationShape | PolylineShape | ModelShape] *)
Inductive Shape : Type :=
| Sphere (b : BaseShape) (s : SphereShape)
| Annotation (b : BaseShape) (a : AnnotationShape)
| Polyline (b : BaseShape) (p : PolylineShape)
| Model (b : BaseShape) (d : ModelShape).

Definition base (sh : Shape) : BaseShape :=
  match sh with
  | Sphere b _ | Annotation b _ | Polyline b _ | Model b _ => b
  end.

Definition type (sh : Shape) : ShapeType :=
  match sh with
  | Sphere _ _ => sphere
  | Annotation _ _ => annotation
  | Polyline _ _ => polyline
  | Model _ _ => model3d
  end.

(** [shape.posX], [shape.posY], [shape.posZ]: absent on a polyline. *)
Definition posX (sh : Shape) : option DataField :=
  match sh with
  | Sphere _ s => Some (sphere_posX s)
  | Annotation _ a => Some (annotation_posX a)
  | Model _ d => Some (model_posX d)
  | Polyline _ _ => None
  end.

Definition posY (sh : Shape) : option DataField :=
  match sh with
  | Sphere _ s => Some (sphere_posY s)
  | Annotation _ a => Some (annotation_posY a)
  | Model _ d => Some (model_posY d)
  | Polyline _ _ => None
  end.

Definition posZ (sh : Shape) : option DataField :=
  match sh with
  | Sphere _ s => Some (sphere_posZ s)
  | Annotation _ a => Some (annotation_posZ a)
  | Model _ d => Some (model_posZ d)
  | Polyline _ _ => None
  end.

Record ViewAngleScalingSettings : Type := {
  vas_targetAngularSize : JS.number;
  vas_minSize : JS.number;
  vas_maxSize : JS.number
}.

Record SimpleOptions : Type := {
  targetObjectId : option string;
  objects : option (list Shape)
}.

(** The part of Grafana's [PanelData] the panel reads. *)
Record Field : Type := {
  field_name : string;
  values : list JS.value
}.

Record DataFrame : Type := {
  series_name : option string;
  refId : option string;
  fields : list Field
}.

Record PanelData : Type := {
  series : list DataFrame
}.

End Types.

(* ================================================================== *)
(** * ThreeSceneHelpers.ts: DataFieldProcessor                          *)
(* ================================================================== *)

Module DataFieldProcessor.

Import Types.
Local Open Scope string_scope.

(** ** Reference syntax of a telemetry-bound field *)

(** [value.match(/^\[([^\]]+)\]\{([^}]+)\}$/)]: the two captures. *)
Definition bracketMatch (v : string) : option (string * string) :=
  match v with
  | String "[" r =>
      match JS.cut "]" r with
      | Some (a, String "{" r2) =>
          match JS.cut "}" r2 with
          | Some (b, EmptyString) =>
              if JS.isEmpty a || JS.isEmpty b then None else Some (a, b)
          | _ => None
          end
      | _ => None
      end
  | _ => None
  end.

(** [value.match(/^([^.]+)\.(.+)$/)]: the two captures. *)
Definition dotMatch (v : string) : option (string * string) :=
  match JS.cut "." v with
  | Some (a, b) =>
      if JS.isEmpty a || JS.isEmpty b || JS.hasLineTerminator b then None
      else Some (a, b)
  | None => None
  end.

(** [dotIndex = value.indexOf('.')], taken when [dotIndex > 0]:
    [substring(0, dotIndex)] and [substring(dotIndex + 1)]. *)
Definition dotIndexSplit (v : string) : option (string * string) :=
  match JS.cut "." v with
  | Some (a, b) => if JS.isEmpty a then None else Some (a, b)
  | None => None
  end.

(** [targetSeriesName] and [targetFieldName] as [getFieldFromDataSource]
    and [getFieldFromDataSourceAsString] compute them. *)
Definition parseReference (v : string) : option string * string :=
  match bracketMatch v with
  | Some (a, b) => (Some a, b)
  | None =>
      match dotMatch v with
      | Some (a, b) => (Some a, b)
      | None => (None, v)
      end
  end.

(** The same as [getTextFieldFromDataSource] computes them. *)
Definition parseTextReference (v : string) : option string * string :=
  match bracketMatch v with
  | Some (a, b) => (Some a, b)
  | None =>
      match dotIndexSplit v with
      | Some (a, b) => (Some a, b)
      | None => (None, v)
      end
  end.

(** [o === s] for an optional string property [o]. *)
Definition opt_is (o : option string) (s : string) : bool :=
  match o with
  | Some x => String.eqb x s
  | None => false
  end.

(** [series.fields.find(f => f.name === targetFieldName)] *)
Definition findField (fs : list Field) (targetFieldName : string) : option Field :=
  List.find (fun f => String.eqb (field_name f) targetFieldName) fs.

(** ** Numeric resolution *)

Definition processFieldValues (fieldData : Field) : list JS.number :=
  List.map (fun v =>
    match v with
    | JS.VNum n => n
    | JS.VStr s =>
        let parsed := JS.parseFloat s in
        if JS.isNaN parsed then JS.Fin 0 else parsed
    | _ => JS.Fin 0
    end) (values fieldData).

Fixpoint findFieldBySeriesAndName (ss : list DataFrame)
    (targetSeriesName targetFieldName : string) : option (list JS.number) :=
  match ss with
  | [] => None
  | s :: rest =>
      if opt_is (series_name s) targetSeriesName || opt_is (refId s) targetSeriesName then
        match findField (fields s) targetFieldName with
        | Some fieldData =>
            if (0 <? length (values fieldData))%nat
            then Some (processFieldValues fieldData)
            else findFieldBySeriesAndName rest targetSeriesName targetFieldName
        | None => findFieldBySeriesAndName rest targetSeriesName targetFieldName
        end
      else findFieldBySeriesAndName rest targetSeriesName targetFieldName
  end.

Fixpoint findFieldByName (ss : list DataFrame) (targetFieldName : string)
    (defaultValue : JS.number) : list JS.number :=
  match ss with
  | [] => [defaultValue]
  | s :: rest =>
      match findField (fields s) targetFieldName with
      | Some fieldData =>
          if (0 <? length (values fieldData))%nat
          then processFieldValues fieldData
          else findFieldByName rest targetFieldName defaultValue
      | None => findFieldByName rest targetFieldName defaultValue
      end
  end.

Definition getFieldFromDataSource (data : option PanelData) (f : DataField)
    (defaultValue : JS.number) : list JS.number :=
  match data with
  | None => [defaultValue]
  | Some d =>
      let (targetSeriesName, targetFieldName) := parseReference (value f) in
      match targetSeriesName with
      | Some sn =>
          match findFieldBySeriesAndName (series d) sn targetFieldName with
          | Some result => result
          | None => findFieldByName (series d) targetFieldName defaultValue
          end
      | None => findFieldByName (series d) targetFieldName defaultValue
      end
  end.

Definition getDataFieldValue (data : option PanelData) (f : option DataField)
    (defaultValue : JS.number) : list JS.number :=
  match f with
  | None => [defaultValue]
  | Some f =>
      match sourceType f with
      | const =>
          let valueStr := JS.str_or (value f) "0" in
          if JS.includes "," valueStr then
            List.map (fun v =>
              let parsed := JS.parseFloat (JS.trim v) in
              if JS.isFinite parsed then parsed else JS.Fin 0)
              (JS.split "," valueStr)
          else
            let parsed := JS.parseFloat valueStr in
            [if JS.isFinite parsed then parsed else defaultValue]
      | field =>
          match data with
          | Some _ => getFieldFromDataSource data f defaultValue
          | None => [defaultValue]
          end
      end
  end.

(** ** Last-value selection *)

(** What [console.warn] receives from [getLastDataFieldValue]. *)
Definition invalidValueWarning (f : option DataField) : string :=
  "Invalid value from field " ++
  JS.str_or (match f with Some f => value f | None => "" end) "unknown" ++ ":".

(** [values[values.length - 1]]; [undefined], which is not finite, on an
    empty array. *)
Definition lastElement (vs : list JS.number) : JS.number := List.last vs JS.NaN.

(** The returned number together with the console output.  No call in
    the [try] block throws on a typed [DataField], so the [catch] branch
    is not represented. *)
Definition getLastDataFieldValue_console (data : option PanelData)
    (f : option DataField) (defaultValue : JS.number) : JS.number * list string :=
  let vals := getDataFieldValue data f defaultValue in
  let lastValue := lastElement vals in
  if negb (JS.isFinite lastValue) then (defaultValue, [invalidValueWarning f])
  else (lastValue, []).

Definition getLastDataFieldValue (data : option PanelData)
    (f : option DataField) (defaultValue : JS.number) : JS.number :=
  fst (getLastDataFieldValue_console data f defaultValue).

(** ** Text resolution *)

Section Text.

Variable Number_toString : JS.number -> string.

Definition processFieldValuesAsString (fieldData : Field) : list string :=
  List.map (JS.String_of Number_toString) (values fieldData).

Fixpoint findFieldBySeriesAndNameAsString (ss : list DataFrame)
    (targetSeriesName targetFieldName : string) : option (list string) :=
  match ss with
  | [] => None
  | s :: rest =>
      if opt_is (series_name s) targetSeriesName || opt_is (refId s) targetSeriesName then
        match findField (fields s) targetFieldName with
        | Some fieldData =>
            if (0 <? length (values fieldData))%nat
            then Some (processFieldValuesAsString fieldData)
            else findFieldBySeriesAndNameAsString rest targetSeriesName targetFieldName
        | None => findFieldBySeriesAndNameAsString rest targetSeriesName targetFieldName
        end
      else findFieldBySeriesAndNameAsString rest targetSeriesName targetFieldName
  end.

Fixpoint findFieldByNameAsString (ss : list DataFrame) (targetFieldName : string)
    (defaultValue : string) : list string :=
  match ss with
  | [] => [defaultValue]
  | s :: rest =>
      match findField (fields s) targetFieldName with
      | Some fieldData =>
          if (0 <? length (values fieldData))%nat
          then processFieldValuesAsString fieldData
          else findFieldByNameAsString rest targetFieldName defaultValue
      | None => findFieldByNameAsString rest targetFieldName defaultValue
      end
  end.

Definition getFieldFromDataSourceAsString (data : option PanelData) (f : DataField)
    (defaultValue : string) : list string :=
  match data with
  | None => [defaultValue]
  | Some d =>
      let (targetSeriesName, targetFieldName) := parseReference (value f) in
      match targetSeriesName with
      | Some sn =>
          match findFieldBySeriesAndNameAsString (series d) sn targetFieldName with
          | Some result => result
          | None => findFieldByNameAsString (series d) targetFieldName defaultValue
          end
      | None => findFieldByNameAsString (series d) targetFieldName defaultValue
      end
  end.

Definition getFieldValueAsString (data : option PanelData) (f : option DataField)
    (defaultValue : string) : list string :=
  match f with
  | None => [defaultValue]
  | Some f =>
      match sourceType f with
      | const =>
          let v := value f in
          if JS.includes "," v then List.map JS.trim (JS.split "," v)
          else [v]
      | field =>
          match data with
          | Some _ => getFieldFromDataSourceAsString data f defaultValue
          | None => [defaultValue]
          end
      end
  end.

(** The loop of [getTextFieldFromDataSource] over [this.data.series]:
    a series is skipped when a series name is given and [series.name]
    differs from it; the first field of the right name whose [values]
    is present is returned. *)
Fixpoint textFieldLoop (ss : list DataFrame) (targetSeriesName : option string)
    (targetFieldName : string) (defaultValue : string) : list string :=
  match ss with
  | [] => [defaultValue]
  | s :: rest =>
      let skip :=
        match targetSeriesName with
        | Some sn => negb (opt_is (series_name s) sn)
        | None => false
        end in
      if skip then textFieldLoop rest targetSeriesName targetFieldName defaultValue
      else
        match findField (fields s) targetFieldName with
        | Some targetField => List.map (JS.String_of Number_toString) (values targetField)
        | None => textFieldLoop rest targetSeriesName targetFieldName defaultValue
        end
  end.

Definition getTextFieldFromDataSource (data : option PanelData) (f : DataField)
    (defaultValue : string) : list string :=
  match data with
  | None => [defaultValue]
  | Some d =>
      let (targetSeriesName, targetFieldName) := parseTextReference (value f) in
      textFieldLoop (series d) targetSeriesName targetFieldName defaultValue
  end.

Definition getTextDataFieldValue (data : option PanelData) (f : option DataField)
    (defaultValue : string) : list string :=
  match f with
  | None => [defaultValue]
  | Some f =>
      match sourceType f with
      | const =>
          let valueStr := value f in
          if JS.includes "," valueStr then List.map JS.trim (JS.split "," valueStr)
          else [valueStr]
      | field =>
          match data with
          | Some _ => getTextFieldFromDataSource data f defaultValue
          | None => [defaultValue]
          end
      end
  end.

(** [values[values.length - 1] || defaultValue] *)
Definition getLastTextDataFieldValue (data : option PanelData) (f : option DataField)
    (defaultValue : string) : string :=
  JS.str_or (List.last (getFieldValueAsString data f defaultValue) "") defaultValue.

End Text.

End DataFieldProcessor.

(* ================================================================== *)
(** * ThreeSceneHelpers.ts: BoundsCalculator                            *)
(* ================================================================== *)

Module BoundsCalculator.

Import Types.

Record Limits : Type := {
  minX : JS.number; maxX : JS.number;
  minY : JS.number; maxY : JS.number;
  minZ : JS.number; maxZ : JS.number
}.

(** [let minX = Infinity, maxX = -Infinity; ...] *)
Definition initial : Limits :=
  {| minX := JS.PInf; maxX := JS.NInf;
     minY := JS.PInf; maxY := JS.NInf;
     minZ := JS.PInf; maxZ := JS.NInf |}.

(** [min = Math.min(min, v); max = Math.max(max, v)] on one axis. *)
Definition extend (mm : JS.number * JS.number) (v : JS.number) : JS.number * JS.number :=
  (JS.Math_min (fst mm) v, JS.Math_max (snd mm) v).

(** [points.forEach(v => { min = Math.min(min, v); max = Math.max(max, v); })] *)
Definition extendAll (mm : JS.number * JS.number) (vs : list JS.number) : JS.number * JS.number :=
  List.fold_left extend vs mm.

(** The body of [objects.forEach(shape => ...)]. *)
Definition visit (data : option PanelData) (acc : Limits) (shape : Shape) : Limits :=
  if negb (visible (base shape)) then acc
  else
    match shape with
    | Polyline _ p =>
        let xs := DataFieldProcessor.getDataFieldValue data (Some (pointsX p)) (JS.Fin 0) in
        let ys := DataFieldProcessor.getDataFieldValue data (Some (pointsY p)) (JS.Fin 0) in
        let zs := DataFieldProcessor.getDataFieldValue data (Some (pointsZ p)) (JS.Fin 0) in
        let (x0, x1) := extendAll (minX acc, maxX acc) xs in
        let (y0, y1) := extendAll (minY acc, maxY acc) ys in
        let (z0, z1) := extendAll (minZ acc, maxZ acc) zs in
        {| minX := x0; maxX := x1; minY := y0; maxY := y1; minZ := z0; maxZ := z1 |}
    | _ =>
        let px := DataFieldProcessor.getLastDataFieldValue data (posX shape) (JS.Fin 0) in
        let py := DataFieldProcessor.getLastDataFieldValue data (posY shape) (JS.Fin 0) in
        let pz := DataFieldProcessor.getLastDataFieldValue data (posZ shape) (JS.Fin 0) in
        let (x0, x1) := extend (minX acc, maxX acc) px in
        let (y0, y1) := extend (minY acc, maxY acc) py in
        let (z0, z1) := extend (minZ acc, maxZ acc) pz in
        {| minX := x0; maxX := x1; minY := y0; maxY := y1; minZ := z0; maxZ := z1 |}
    end.

(** "Add padding if we found valid bounds", for one axis. *)
Definition pad (mm : JS.number * JS.number) : JS.number * JS.number :=
  let (lo, hi) := mm in
  if JS.isFinite lo && JS.isFinite hi then
    let range := JS.num_or (JS.sub hi lo) (JS.Fin 10) in
    let padding := JS.mul range (JS.Fin (1 # 10)) in
    (JS.sub lo padding, JS.add hi padding)
  else (JS.Fin (-50), JS.Fin 50).

Definition calculateAutoScaleLimits (data : option PanelData) (objects : list Shape) : Limits :=
  let acc := List.fold_left (visit data) objects initial in
  let (x0, x1) := pad (minX acc, maxX acc) in
  let (y0, y1) := pad (minY acc, maxY acc) in
  let (z0, z1) := pad (minZ acc, maxZ acc) in
  {| minX := x0; maxX := x1; minY := y0; maxY := y1; minZ := z0; maxZ := z1 |}.

End BoundsCalculator.

(* ================================================================== *)
(** * CameraAxisEditor.tsx                                              *)
(* ================================================================== *)

Module CameraAxisEditor.

Import Types.
Local Open Scope string_scope.

(** The message posted on the window. *)
Record CameraMove : Type := {
  cm_type : string;
  cm_posX : JS.number;
  cm_posY : JS.number;
  cm_posZ : JS.number;
  cm_preset : string;
  cm_timestamp : JS.number
}.

(** The value handed to [onChange]. *)
Record AxisTrigger : Type := {
  at_preset : string;
  at_posX : JS.number;
  at_posY : JS.number;
  at_posZ : JS.number;
  at_timestamp : JS.number
}.

(** [objects.find((obj) => obj.id === targetObjectId)] *)
Definition findObject (objs : list Shape) (targetObjectId : string) : option Shape :=
  List.find (fun obj => String.eqb (id (base obj)) targetObjectId) objs.

(** "Get target object position" *)
Definition targetPosition (options : option SimpleOptions) : JS.number * JS.number * JS.number :=
  let origin := (JS.Fin 0, JS.Fin 0, JS.Fin 0) in
  let targetObjectId :=
    JS.str_or
      (match options with
       | Some o => match targetObjectId o with Some t => t | None => "" end
       | None => ""
       end) "origin" in
  if negb (String.eqb targetObjectId "origin") then
    let objs :=
      match options with
      | Some o => match objects o with Some l => l | None => [] end
      | None => []
      end in
    match findObject objs targetObjectId with
    | Some targetObject =>
        match posX targetObject, posY targetObject, posZ targetObject with
        | Some px, Some py, Some pz =>
            match sourceType px with
            | const =>
                (JS.num_or (JS.parseFloat (value px)) (JS.Fin 0),
                 JS.num_or (JS.parseFloat (value py)) (JS.Fin 0),
                 JS.num_or (JS.parseFloat (value pz)) (JS.Fin 0))
            | field => origin
            end
        | _, _, _ => origin
        end
    | None => origin
    end
  else origin.

Definition fixedDistance : JS.number := JS.Fin 100.

(** "Set camera position based on axis direction relative to target" *)
Definition cameraPosition (target : JS.number * JS.number * JS.number)
    (direction axis : string) : JS.number * JS.number * JS.number :=
  let '(targetX, targetY, targetZ) := target in
  let preset := direction ++ axis in
  if String.eqb preset "+X" then (JS.add targetX fixedDistance, targetY, targetZ)
  else if String.eqb preset "-X" then (JS.sub targetX fixedDistance, targetY, targetZ)
  else if String.eqb preset "+Y" then (targetX, JS.add targetY fixedDistance, targetZ)
  else if String.eqb preset "-Y" then (targetX, JS.sub targetY fixedDistance, targetZ)
  else if String.eqb preset "+Z" then (targetX, targetY, JS.add targetZ fixedDistance)
  else if String.eqb preset "-Z" then (targetX, targetY, JS.sub targetZ fixedDistance)
  else (JS.Fin 0, JS.Fin 0, JS.Fin 0).

(** [handleAxisClick(direction, axis)]: the posted message and the
    [onChange] argument; [now1] and [now2] are the two readings of
    [Date.now()]. *)
Definition handleAxisClick (options : option SimpleOptions) (now1 now2 : JS.number)
    (direction axis : string) : CameraMove * AxisTrigger :=
  let '(cameraX, cameraY, cameraZ) :=
    cameraPosition (targetPosition options) direction axis in
  ({| cm_type := "camera-move-immediate";
      cm_posX := cameraX; cm_posY := cameraY; cm_posZ := cameraZ;
      cm_preset := direction ++ axis;
      cm_timestamp := now1 |},
   {| at_preset := direction ++ axis;
      at_posX := cameraX; at_posY := cameraY; at_posZ := cameraZ;
      at_timestamp := now2 |}).

End CameraAxisEditor.

(* ================================================================== *)
(** * ViewAngleScaling.ts                                               *)
(* ================================================================== *)

Module ViewAngleScaling.

Local Open Scope R_scope.

(** A number the scaling code computes: a real, or one of the special
    values a division by zero produces. *)
Inductive xreal : Type :=
| Num (r : R)
| PosInf
| NegInf
| NotANumber.

(** Sign of a real, as a [comparison] with zero. *)
Definition Rsign (r : R) : comparison :=
  match total_order_T r 0 with
  | inleft (left _) => Lt
  | inleft (right _) => Eq
  | inright _ => Gt
  end.

Definition xsign (v : xreal) : comparison :=
  match v with
  | Num r => Rsign r
  | PosInf => Gt
  | NegInf => Lt
  | NotANumber => Eq
  end.

Definition signedInf (s1 s2 : comparison) : xreal :=
  match s1, s2 with
  | Eq, _ | _, Eq => NotANumber
  | Gt, Gt | Lt, Lt => PosInf
  | _, _ => NegInf
  end.

(** [a / b] on two reals. *)
Definition xdiv (a b : R) : xreal :=
  if Req_dec_T b 0 then signedInf (Rsign a) Gt else Num (a / b).

(** [a * b] *)
Definition xmul (a b : xreal) : xreal :=
  match a, b with
  | NotANumber, _ | _, NotANumber => NotANumber
  | Num r, Num s => Num (r * s)
  | _, _ => signedInf (xsign a) (xsign b)
  end.

(** [Math.min(a, b)], [Math.max(a, b)] and [Math.max(a, b, c)] *)
Definition Math_min (a b : xreal) : xreal :=
  match a, b with
  | NotANumber, _ | _, NotANumber => NotANumber
  | NegInf, _ | _, NegInf => NegInf
  | PosInf, v | v, PosInf => v
  | Num r, Num s => Num (Rmin r s)
  end.

Definition Math_max (a b : xreal) : xreal :=
  match a, b with
  | NotANumber, _ | _, NotANumber => NotANumber
  | PosInf, _ | _, PosInf => PosInf
  | NegInf, v | v, NegInf => v
  | Num r, Num s => Num (Rmax r s)
  end.

(** [v || d]: zero and [NaN] are falsy. *)
Definition xor_default (v : option xreal) (d : xreal) : xreal :=
  match v with
  | Some (Num r) => if Req_dec_T r 0 then d else Num r
  | Some NotANumber => d
  | Some w => w
  | None => d
  end.

Record Vector3 : Type := { x : R; y : R; z : R }.

(** [a.distanceTo(b)] *)
Definition distanceTo (a b : Vector3) : R :=
  sqrt ((x a - x b) * (x a - x b) + (y a - y b) * (y a - y b) + (z a - z b) * (z a - z b)).

Record ViewAngleScalingConfig : Type := {
  enabled : bool;
  targetAngularSize : R;
  minSize : R;
  maxSize : R
}.

(** [object.userData], the properties the scaling code reads and writes. *)
Record UserData : Type := {
  originalSize : option R;
  originalScale : option R;
  aspectRatio : option xreal;
  viewAngleConfig : option ViewAngleScalingConfig
}.

(** A [THREE.Object3D].  [boundingSize] is what
    [new THREE.Box3().setFromObject(object).getSize(..)] yields for it:
    the extent of its geometry, computed by the rendering library. *)
Record Object3D : Type := {
  position : Vector3;
  scale : xreal;
  userData : UserData;
  boundingSize : Vector3
}.

Record Camera : Type := { camera_position : Vector3 }.

Definition set_originalSize (o : Object3D) (s : R) : Object3D :=
  {| position := position o;
     scale := scale o;
     userData :=
       {| originalSize := Some s;
          originalScale := originalScale (userData o);
          aspectRatio := aspectRatio (userData o);
          viewAngleConfig := viewAngleConfig (userData o) |};
     boundingSize := boundingSize o |}.

Definition set_scale (o : Object3D) (s : xreal) : Object3D :=
  {| position := position o;
     scale := s;
     userData := userData o;
     boundingSize := boundingSize o |}.

(** [Math.max(size.x, size.y, size.z)] of the bounding box. *)
Definition maxDimension (o : Object3D) : R :=
  Rmax (Rmax (x (boundingSize o)) (y (boundingSize o))) (z (boundingSize o)).

(** [getObjectSize(object)]: the size and the object, whose
    [userData.originalSize] the call may have set. *)
Definition getObjectSize (o : Object3D) : R * Object3D :=
  let compute := (maxDimension o, set_originalSize o (maxDimension o)) in
  match originalSize (userData o) with
  | Some s => if Req_dec_T s 0 then compute else (s, o)
  | None => compute
  end.

Definition calculateViewBasedScale (o : Object3D) (camera : Camera)
    (config : ViewAngleScalingConfig) : xreal * Object3D :=
  if negb (enabled config) then (Num 1, o)
  else
    let distance := distanceTo (camera_position camera) (position o) in
    if Req_dec_T distance 0 then (Num 1, o)
    else
      let requiredSize := 2 * distance * tan (targetAngularSize config / 2) in
      let (originalSize, o') := getObjectSize o in
      let scale := xdiv requiredSize originalSize in
      (Math_max (Num (minSize config)) (Math_min (Num (maxSize config)) scale), o').

Definition applyShapeAdjustment (o : Object3D) (baseScale : xreal) : xreal :=
  let aspectRatio := xor_default (aspectRatio (userData o)) (Num 1) in
  let shapeAdjustment := Math_max (Num (1 / 2)) (Math_min (Num 2) aspectRatio) in
  xmul baseScale shapeAdjustment.

(** [getDefaultConfig()] *)
Definition getDefaultConfig : ViewAngleScalingConfig :=
  {| enabled := false;
     targetAngularSize := 2 / 100;
     minSize := 1 / 10;
     maxSize := 10 |}.

(** ** The caller: [ThreeSceneObjectManager.updateViewAngleScaling] *)

(** [scale] then [adjustedScale], as the per-frame pass computes them
    for one object. *)
Definition adjustedScale (o : Object3D) (camera : Camera)
    (config : ViewAngleScalingConfig) : xreal * Object3D :=
  let (scale, o') := calculateViewBasedScale o camera config in
  (applyShapeAdjustment o' scale, o').

(** The body of the loop of [updateViewAngleScaling] for an object that
    is not an annotation. *)
Definition updateViewAngleScaling_object (camera : Camera) (o : Object3D) : Object3D :=
  match viewAngleConfig (userData o) with
  | None => o
  | Some config =>
      if negb (enabled config) then o
      else
        let (adjusted, o') := adjustedScale o camera config in
        let originalScale :=
          match originalScale (userData o') with
          | Some s => if Req_dec_T s 0 then 1 else s
          | None => 1
          end in
        set_scale o' (xmul (Num originalScale) adjusted)
  end.

(** ** The scale function as the specification words it *)

(** [clamp(v, lo, hi)] *)
Definition clamp (v : xreal) (lo hi : R) : xreal :=
  Math_max (Num lo) (Math_min (Num hi) v).

(** [v ?? d] *)
Definition nullish (v : option xreal) (d : xreal) : xreal :=
  match v with Some w => w | None => d end.

(** "if [config.enabled] is false, or camera-to-entity distance is
    exactly zero, return [1.0]; otherwise [clamp(2 * distance *
    tan(targetAngularSize / 2) / originalSize, minSize, maxSize)]
    multiplied by [clamp(aspectRatio ?? 1.0, 0.5, 2.0)]". *)
Definition specified_scale (o : Object3D) (camera : Camera)
    (config : ViewAngleScalingConfig) : xreal :=
  let distance := distanceTo (camera_position camera) (position o) in
  if negb (enabled config) then Num 1
  else if Req_dec_T distance 0 then Num 1
  else
    xmul
      (clamp (xdiv (2 * distance * tan (targetAngularSize config / 2))
                   (fst (getObjectSize o)))
             (minSize config) (maxSize config))
      (clamp (nullish (aspectRatio (userData o)) (Num 1)) (1 / 2) 2).

End ViewAngleScaling.

(* ================================================================== *)
(** * ThreeSceneObjectManager.ts and ThreeScene.tsx: the reconciler     *)
(* ================================================================== *)

Module Scene.

Import Types.
Local Open Scope string_scope.

Definition Vec3 : Type := (JS.number * JS.number * JS.number)%type.

(** ** Scene objects *)

(** What the manager stores in [userData].  Properties it writes but
    never reads back ([meshCount], [volume], [boundingBox]) are left
    out. *)
Record ViewAngleConfig : Type := {
  enabled : bool;
  settings : option ViewAngleScalingSettings
}.

Record UserData : Type := {
  shapeId : string;
  shapeType : ShapeType;
  originalSize : option JS.number;
  originalScale : option JS.number;
  viewAngleConfig : option ViewAngleConfig;
  aspectRatio : option JS.number;
  unitScale : option JS.number;
  originalUrl : option string;
  isDefaultCube : bool;
  dataPointCount : option nat
}.

(** Rendering resources.  The drawing of a label on its canvas and the
    lighting parameters of materials are not represented. *)
Inductive Geometry : Type :=
| SphereGeometry (radius : JS.number)
| PointsGeometry (points : list Vec3)
| TubeGeometry (points : list Vec3) (tubularSegments : nat) (tubeRadius : JS.number)
| DefaultCubeGeometry
| LoadedGeometry (url : string).

Inductive Material : Type :=
| MeshLambertMaterial (color : string)
| LineBasicMaterial (color : string) (linewidth : JS.number)
| SpriteMaterial (label : string) (color : string)
| LoadedMaterial.

Inductive Kind : Type := Mesh | Line | Sprite | Group.

(** A child of a group: a connector line or a label of an annotation,
    or a mesh of a model. *)
Record Child : Type := {
  child_kind : Kind;
  child_geometry : option Geometry;
  child_material : Material;
  child_position : Vec3;
  annotationIndex : option nat
}.

Record Object3D : Type := {
  kind : Kind;
  object_name : string;
  position : Vec3;
  quaternion : JS.number * JS.number * JS.number * JS.number;
  object_scale : Vec3;
  geometry : option Geometry;
  material : option Material;
  children : list Child;
  userData : UserData
}.

Definition emptyUserData (sid : string) (t : ShapeType) : UserData :=
  {| shapeId := sid; shapeType := t;
     originalSize := None; originalScale := None; viewAngleConfig := None;
     aspectRatio := None; unitScale := None; originalUrl := None;
     isDefaultCube := false; dataPointCount := None |}.

Definition identityQuaternion : JS.number * JS.number * JS.number * JS.number :=
  (JS.Fin 0, JS.Fin 0, JS.Fin 0, JS.Fin 1).

Definition uniform (s : JS.number) : Vec3 := (s, s, s).

(** [x || d] for an optional number property. *)
Definition opt_or (v : option JS.number) (d : JS.number) : JS.number :=
  match v with
  | Some n => JS.num_or n d
  | None => d
  end.

Definition isOn (v : OnOff) : bool := match v with on => true | off => false end.

Definition isOff (v : OnOff) : bool := match v with off => true | on => false end.

Section Manager.

(** The telemetry snapshot held by the [DataFieldProcessor], and the
    runtime's number rendering. *)
Variable data : option PanelData.
Variable Number_toString : JS.number -> string.

(** The external asset loader: what [gltfLoader.load(url, ..)] ends
    with.  A successful load delivers a scene, of which the manager
    uses the extent that [calculateComplexModelSize] measures once the
    scale [s] has been set on it. *)
Record GLTF : Type := {
  gltf_meshes : list Child;
  gltf_totalSize : JS.number -> Vec3
}.

Variable gltfLoader : string -> option GLTF.

Definition getLast (f : DataField) (d : JS.number) : JS.number :=
  DataFieldProcessor.getLastDataFieldValue data (Some f) d.

Definition makeViewAngleConfig (g : ViewAngleScalingSettings) (e : bool) : ViewAngleConfig :=
  {| enabled := e;
     settings := Some {| vas_targetAngularSize := vas_targetAngularSize g;
                         vas_minSize := vas_minSize g;
                         vas_maxSize := vas_maxSize g |} |}.

(** *** createSphere *)

Definition createSphere (g : ViewAngleScalingSettings) (b : BaseShape) (s : SphereShape) : Object3D :=
  let posX := getLast (sphere_posX s) (JS.Fin 0) in
  let posY := getLast (sphere_posY s) (JS.Fin 0) in
  let posZ := getLast (sphere_posZ s) (JS.Fin 0) in
  let radius :=
    match autoRadius s, radius s with
    | off, Some r => r
    | _, _ => JS.Fin 1
    end in
  let autoScaleFactor := opt_or (sphere_autoScaleFactor s) (JS.Fin 1) in
  {| kind := Mesh;
     object_name := name b;
     position := (posX, posY, posZ);
     quaternion := identityQuaternion;
     object_scale := uniform (JS.Fin 1);
     geometry := Some (SphereGeometry radius);
     material := Some (MeshLambertMaterial (JS.str_or (sphere_color s) "#ff0000"));
     children := [];
     userData :=
       {| shapeId := id b; shapeType := sphere;
          originalSize := Some (JS.mul radius (JS.Fin 2));
          originalScale := Some autoScaleFactor;
          viewAngleConfig := Some (makeViewAngleConfig g (isOn (autoRadius s)));
          aspectRatio := None; unitScale := None; originalUrl := None;
          isDefaultCube := false; dataPointCount := None |} |}.

(** *** createPolyline *)

(** [for (i = 0; i < minLength; i++) points.push(new Vector3(xs[i], ys[i], zs[i]))] *)
Fixpoint zip3 (xs ys zs : list JS.number) : list Vec3 :=
  match xs, ys, zs with
  | x :: xs', y :: ys', z :: zs' => (x, y, z) :: zip3 xs' ys' zs'
  | _, _, _ => []
  end.

Definition closeLoop (c : OnOff) (points : list Vec3) : list Vec3 :=
  match c, points with
  | on, p :: _ => points ++ [p]
  | _, _ => points
  end.

Definition createPolyline (b : BaseShape) (p : PolylineShape) : Object3D :=
  let xs := DataFieldProcessor.getDataFieldValue data (Some (pointsX p)) (JS.Fin 0) in
  let ys := DataFieldProcessor.getDataFieldValue data (Some (pointsY p)) (JS.Fin 0) in
  let zs := DataFieldProcessor.getDataFieldValue data (Some (pointsZ p)) (JS.Fin 0) in
  let points := closeLoop (closePath p) (zip3 xs ys zs) in
  let geometry :=
    if isOn (smoothCurve p) && (2 <? length points)%nat then
      TubeGeometry points (Nat.max (length points * 2) 64)
                   (JS.num_or (strokeSize p) (JS.Fin (1 # 10)))
    else PointsGeometry points in
  {| kind := Line;
     object_name := name b;
     position := uniform (JS.Fin 0);
     quaternion := identityQuaternion;
     object_scale := uniform (JS.Fin 1);
     geometry := Some geometry;
     material := Some (LineBasicMaterial (JS.str_or (strokeColor p) "#ffffff")
                                         (JS.num_or (strokeSize p) (JS.Fin 1)));
     children := [];
     userData := emptyUserData (id b) polyline |}.

(** *** createAnnotation and updateAnnotationText *)

Definition isConst (f : DataField) : bool :=
  match sourceType f with const => true | field => false end.

Definition isField (f : DataField) : bool :=
  match sourceType f with field => true | const => false end.

(** [i < arr.length ? arr[i] : (arr.length > 0 ? arr[arr.length - 1] : d)] *)
Definition atOrLast {A : Type} (arr : list A) (i : nat) (d : A) : A :=
  if (i <? length arr)%nat then List.nth i arr d else List.last arr d.

Definition pointLabel (i : nat) : string :=
  "Point " ++ NilZero.string_of_uint (Nat.to_uint (S i)).

(** The position arrays and the text array, after the mixing rule. *)
Definition annotationArrays (a : AnnotationShape)
    : list JS.number * list JS.number * list JS.number * list string :=
  let ps := [annotation_posX a; annotation_posY a; annotation_posZ a] in
  let hasConstPos := List.existsb isConst ps in
  let hasFieldPos := List.existsb isField ps in
  let mixedPos := hasConstPos && hasFieldPos in
  let hasFieldText := isField (text a) in
  let hasConstText := isConst (text a) in
  let mixedWithText := (hasConstPos || hasFieldPos) && hasFieldText in
  let allPosField := List.forallb isField ps in
  let xyzFieldTextConst := allPosField && hasConstText in
  let '(xs, ys, zs) :=
    if mixedPos || xyzFieldTextConst then
      ([getLast (annotation_posX a) (JS.Fin 0)],
       [getLast (annotation_posY a) (JS.Fin 0)],
       [getLast (annotation_posZ a) (JS.Fin 0)])
    else
      (DataFieldProcessor.getDataFieldValue data (Some (annotation_posX a)) (JS.Fin 0),
       DataFieldProcessor.getDataFieldValue data (Some (annotation_posY a)) (JS.Fin 0),
       DataFieldProcessor.getDataFieldValue data (Some (annotation_posZ a)) (JS.Fin 0)) in
  let texts := DataFieldProcessor.getFieldValueAsString Number_toString data (Some (text a)) "" in
  let textArray :=
    if mixedWithText then [JS.str_or (List.last texts "") "Point 1"] else texts in
  (xs, ys, zs, textArray).

Definition directionMultiplier (a : AnnotationShape) : JS.number :=
  match lineDirection a with
  | inverted => JS.Fin (-1)
  | normal => JS.Fin 1
  end.

(** [lineLength = 15], [tooltipOffset = 7.5]: the bend is at
    [15 * 0.7] and the label at [15 + 7.5] along the direction. *)
Definition bendOffset (a : AnnotationShape) : JS.number :=
  JS.mul (JS.mul (JS.Fin 15) (JS.Fin (7 # 10))) (directionMultiplier a).

Definition labelOffset (a : AnnotationShape) : JS.number :=
  JS.mul (JS.add (JS.Fin 15) (JS.Fin (15 # 2))) (directionMultiplier a).

(** The connector line, and the label when [withSprite] is set, of data
    point [i]; nothing when its text is blank. *)
Definition callout (withSprite : bool) (a : AnnotationShape)
    (xs ys zs : list JS.number) (textArray : list string) (i : nat) : list Child :=
  let posX := atOrLast xs i (JS.Fin 0) in
  let posY := atOrLast ys i (JS.Fin 0) in
  let posZ := atOrLast zs i (JS.Fin 0) in
  let text := atOrLast textArray i (pointLabel i) in
  if JS.isEmpty text || JS.isEmpty (JS.trim text) then []
  else
    let annotationColor := JS.str_or (textColor a) "#ffffff" in
    let tip := (JS.add posX (labelOffset a), JS.add posY (bendOffset a), posZ) in
    let line :=
      {| child_kind := Line;
         child_geometry :=
           Some (PointsGeometry
                   [(posX, posY, posZ);
                    (JS.add posX (bendOffset a), JS.add posY (bendOffset a), posZ);
                    tip]);
         child_material := LineBasicMaterial annotationColor (JS.Fin 2);
         child_position := uniform (JS.Fin 0);
         annotationIndex := Some i |} in
    let sprite :=
      {| child_kind := Sprite;
         child_geometry := None;
         child_material := SpriteMaterial text annotationColor;
         child_position := tip;
         annotationIndex := Some i |} in
    if withSprite then [line; sprite] else [line].

Definition maxLength4 (xs ys zs : list JS.number) (ts : list string) : nat :=
  Nat.max (Nat.max (Nat.max (length xs) (length ys)) (length zs)) (length ts).

Definition callouts (withSprite : bool) (a : AnnotationShape) : list Child * nat :=
  let '(xs, ys, zs, ts) := annotationArrays a in
  let maxLength := maxLength4 xs ys zs ts in
  (List.flat_map (callout withSprite a xs ys zs ts) (List.seq 0 maxLength), maxLength).

(** [createAnnotation] adds the connector lines to the group; the label
    it builds for each of them is not added. *)
Definition createAnnotation (b : BaseShape) (a : AnnotationShape) : Object3D :=
  let (cs, maxLength) := callouts false a in
  {| kind := Group;
     object_name := name b;
     position := uniform (JS.Fin 0);
     quaternion := identityQuaternion;
     object_scale := uniform (JS.Fin 1);
     geometry := None;
     material := None;
     children := cs;
     userData :=
       {| shapeId := id b; shapeType := annotation;
          originalSize := None; originalScale := None;
          viewAngleConfig := Some {| enabled := false; settings := None |};
          aspectRatio := None; unitScale := None; originalUrl := None;
          isDefaultCube := false; dataPointCount := Some maxLength |} |}.

Definition set_userData (o : Object3D) (u : UserData) : Object3D :=
  {| kind := kind o; object_name := object_name o; position := position o;
     quaternion := quaternion o; object_scale := object_scale o;
     geometry := geometry o; material := material o; children := children o;
     userData := u |}.

Definition set_children (o : Object3D) (cs : list Child) : Object3D :=
  {| kind := kind o; object_name := object_name o; position := position o;
     quaternion := quaternion o; object_scale := object_scale o;
     geometry := geometry o; material := material o; children := cs;
     userData := userData o |}.

Definition set_position (o : Object3D) (p : Vec3) : Object3D :=
  {| kind := kind o; object_name := object_name o; position := p;
     quaternion := quaternion o; object_scale := object_scale o;
     geometry := geometry o; material := material o; children := children o;
     userData := userData o |}.

Definition set_quaternion (o : Object3D) (q : JS.number * JS.number * JS.number * JS.number) : Object3D :=
  {| kind := kind o; object_name := object_name o; position := position o;
     quaternion := q; object_scale := object_scale o;
     geometry := geometry o; material := material o; children := children o;
     userData := userData o |}.

Definition set_scale (o : Object3D) (s : Vec3) : Object3D :=
  {| kind := kind o; object_name := object_name o; position := position o;
     quaternion := quaternion o; object_scale := s;
     geometry := geometry o; material := material o; children := children o;
     userData := userData o |}.

Definition set_geometry (o : Object3D) (g : option Geometry) : Object3D :=
  {| kind := kind o; object_name := object_name o; position := position o;
     quaternion := quaternion o; object_scale := object_scale o;
     geometry := g; material := material o; children := children o;
     userData := userData o |}.

Definition set_material (o : Object3D) (m : option Material) : Object3D :=
  {| kind := kind o; object_name := object_name o; position := position o;
     quaternion := quaternion o; object_scale := object_scale o;
     geometry := geometry o; material := m; children := children o;
     userData := userData o |}.

(** [updateAnnotationText(group, null, shape)]: the children are
    disposed of and rebuilt, lines and labels, on the same group. *)
Definition updateAnnotationText (group : Object3D) (a : AnnotationShape) : Object3D :=
  let (cs, maxLength) := callouts true a in
  let u := userData group in
  set_userData (set_children group cs)
    {| shapeId := shapeId u; shapeType := shapeType u;
       originalSize := originalSize u; originalScale := originalScale u;
       viewAngleConfig := viewAngleConfig u; aspectRatio := aspectRatio u;
       unitScale := unitScale u; originalUrl := originalUrl u;
       isDefaultCube := isDefaultCube u; dataPointCount := Some maxLength |}.

(** *** create3DModel *)

(** [shape.unit === 'm' ? 0.001 : 1.0] *)
Definition unitScaleOf (d : ModelShape) : JS.number :=
  match model_unit d with
  | Some m => JS.Fin (1 # 1000)
  | _ => JS.Fin 1
  end.

(** "Apply rotation if quaternion is provided" *)
Definition shapeQuaternion (d : ModelShape)
    : option (JS.number * JS.number * JS.number * JS.number) :=
  match quatX d, quatY d, quatZ d, quatW d with
  | Some qx, Some qy, Some qz, Some qw =>
      Some (getLast qx (JS.Fin 0), getLast qy (JS.Fin 0),
            getLast qz (JS.Fin 0), getLast qw (JS.Fin 1))
  | _, _, _, _ => None
  end.

(** The scale set on a model: the manual scale when [autoScale] is off,
    the unit scale alone otherwise. *)
Definition modelScale (d : ModelShape) : JS.number :=
  match autoScale d, scale d with
  | off, Some s => JS.mul s (unitScaleOf d)
  | _, _ => unitScaleOf d
  end.

(** [(2 * Math.sqrt(3)) / 3], the edge of the default cube, to the
    seventeen digits of the double. *)
Definition cubeSize : JS.number :=
  JS.Fin (11547005383792517 # 10000000000000000).

Definition modelUserData (g : ViewAngleScalingSettings) (b : BaseShape) (d : ModelShape)
    (size aspect : JS.number) (recordedUrl : string) (cube : bool) : UserData :=
  {| shapeId := id b; shapeType := model3d;
     originalSize := Some size;
     originalScale :=
       Some (JS.mul (opt_or (model_autoScaleFactor d) (JS.Fin 1)) (unitScaleOf d));
     viewAngleConfig := Some (makeViewAngleConfig g (isOn (autoScale d)));
     aspectRatio := Some aspect;
     unitScale := Some (unitScaleOf d);
     originalUrl := Some recordedUrl;
     isDefaultCube := cube;
     dataPointCount := None |}.

Definition createDefaultCube (g : ViewAngleScalingSettings) (b : BaseShape) (d : ModelShape)
    (pos : Vec3) : Object3D :=
  {| kind := Group;
     object_name := name b;
     position := pos;
     quaternion :=
       match shapeQuaternion d with Some q => q | None => identityQuaternion end;
     object_scale := uniform (modelScale d);
     geometry := None;
     material := None;
     children :=
       [{| child_kind := Mesh;
           child_geometry := Some DefaultCubeGeometry;
           child_material := MeshLambertMaterial "#888888";
           child_position := uniform (JS.Fin 0);
           annotationIndex := None |}];
     userData := modelUserData g b d cubeSize (JS.Fin 1) (url d) true |}.

(** [Math.max(size.x, size.y, size.z)] *)
Definition maxDimension (size : Vec3) : JS.number :=
  let '(sx, sy, sz) := size in JS.Math_max (JS.Math_max sx sy) sz.

(** The model that the success callback of the loader resolves with. *)
Definition loadedModel (g : ViewAngleScalingSettings) (b : BaseShape) (d : ModelShape)
    (pos : Vec3) (gltf : GLTF) : Object3D :=
  let size := gltf_totalSize gltf (modelScale d) in
  {| kind := Group;
     object_name := name b;
     position := pos;
     quaternion :=
       match shapeQuaternion d with Some q => q | None => identityQuaternion end;
     object_scale := uniform (modelScale d);
     geometry := None;
     material := None;
     children := gltf_meshes gltf;
     userData :=
       modelUserData g b d (maxDimension size)
         (JS.div (fst (fst size)) (snd (fst size))) (url d) false |}.

(** ** The manager's state *)

(** Objects are referred to by reference: the scene graph and the
    id-to-object map hold references into one store, so that an update
    in place is seen through both. *)
Definition Ref : Type := nat.

Inductive Event : Type :=
| Created (r : Ref)
| Disposed (r : Ref).

(** A load in flight: the shape it was started for, the version
    captured when it started, and the position resolved then. *)
Record Ticket : Type := {
  ticket_base : BaseShape;
  ticket_shape : ModelShape;
  ticket_version : nat;
  ticket_position : Vec3
}.

(** The promise returned by [create3DModel]: already resolved with the
    default cube, or waiting for the loader. *)
Inductive Started : Type :=
| Immediate (r : Ref)
| InFlight (t : Ticket).

Inductive Outcome : Type :=
| Resolved (r : Ref)
| Rejected
| NeverSettles.

Record State : Type := {
  store : list (Ref * Object3D);
  nextRef : Ref;
  scene : list Ref;
  objectsRef : list (string * Ref);
  loadingVersions : list (string * nat);
  globalViewAngleSettings : ViewAngleScalingSettings;
  pending : list (string * Started);
  trace : list Event
}.

(** [new ThreeSceneObjectManager(scene, dataProcessor, objectsRef, settings)]
    on an empty scene and an empty map. *)
Definition initialState (g : option ViewAngleScalingSettings) : State :=
  {| store := []; nextRef := 0%nat; scene := []; objectsRef := [];
     loadingVersions := [];
     globalViewAngleSettings :=
       match g with
       | Some s => s
       | None => {| vas_targetAngularSize := JS.Fin (5 # 100);
                    vas_minSize := JS.Fin (1 # 10);
                    vas_maxSize := JS.Fin 10 |}
       end;
     pending := []; trace := [] |}.

(** [Map.prototype.get], [set] and [delete] on a map kept in insertion
    order. *)
Fixpoint map_get {V : Type} (k : string) (mp : list (string * V)) : option V :=
  match mp with
  | [] => None
  | (k', v) :: rest => if String.eqb k' k then Some v else map_get k rest
  end.

Fixpoint map_set {V : Type} (k : string) (v : V) (mp : list (string * V)) : list (string * V) :=
  match mp with
  | [] => [(k, v)]
  | (k', v') :: rest =>
      if String.eqb k' k then (k', v) :: rest else (k', v') :: map_set k v rest
  end.

Fixpoint map_delete {V : Type} (k : string) (mp : list (string * V)) : list (string * V) :=
  match mp with
  | [] => []
  | (k', v') :: rest =>
      if String.eqb k' k then rest else (k', v') :: map_delete k rest
  end.

Definition map_keys {V : Type} (mp : list (string * V)) : list string := List.map fst mp.

Fixpoint deref (r : Ref) (st : list (Ref * Object3D)) : option Object3D :=
  match st with
  | [] => None
  | (r', o) :: rest => if Nat.eqb r' r then Some o else deref r rest
  end.

Fixpoint assign (r : Ref) (o : Object3D) (st : list (Ref * Object3D)) : list (Ref * Object3D) :=
  match st with
  | [] => []
  | (r', o') :: rest =>
      if Nat.eqb r' r then (r', o) :: rest else (r', o') :: assign r o rest
  end.

(** A newly constructed object. *)
Definition allocate (st : State) (o : Object3D) : Ref * State :=
  (nextRef st,
   {| store := store st ++ [(nextRef st, o)];
      nextRef := S (nextRef st);
      scene := scene st; objectsRef := objectsRef st;
      loadingVersions := loadingVersions st;
      globalViewAngleSettings := globalViewAngleSettings st;
      pending := pending st;
      trace := trace st ++ [Created (nextRef st)] |}).

(** A mutation of the object behind [r]. *)
Definition mutate (st : State) (r : Ref) (o : Object3D) : State :=
  {| store := assign r o (store st);
     nextRef := nextRef st;
     scene := scene st; objectsRef := objectsRef st;
     loadingVersions := loadingVersions st;
     globalViewAngleSettings := globalViewAngleSettings st;
     pending := pending st;
     trace := trace st |}.

(** [addObjectToScene(object, id)] *)
Definition addObjectToScene (st : State) (r : Ref) (sid : string) : State :=
  {| store := store st;
     nextRef := nextRef st;
     scene := List.filter (fun r' => negb (Nat.eqb r' r)) (scene st) ++ [r];
     objectsRef := map_set sid r (objectsRef st);
     loadingVersions := loadingVersions st;
     globalViewAngleSettings := globalViewAngleSettings st;
     pending := pending st;
     trace := trace st |}.

(** One round of [removeObjectsFromScene]: the resources of the object
    are disposed of, it leaves the scene and the map. *)
Definition removeObject (st : State) (sid : string) : State :=
  match map_get sid (objectsRef st) with
  | Some r =>
      {| store := store st;
         nextRef := nextRef st;
         scene := List.filter (fun r' => negb (Nat.eqb r' r)) (scene st);
         objectsRef := map_delete sid (objectsRef st);
         loadingVersions := loadingVersions st;
         globalViewAngleSettings := globalViewAngleSettings st;
         pending := pending st;
         trace := trace st ++ [Disposed r] |}
  | None => st
  end.

Definition removeObjectsFromScene (st : State) (objectsToRemove : list string) : State :=
  List.fold_left removeObject objectsToRemove st.

Definition set_loadingVersions (st : State) (v : list (string * nat)) : State :=
  {| store := store st; nextRef := nextRef st; scene := scene st;
     objectsRef := objectsRef st;
     loadingVersions := v;
     globalViewAngleSettings := globalViewAngleSettings st;
     pending := pending st; trace := trace st |}.

Definition set_pending (st : State) (p : list (string * Started)) : State :=
  {| store := store st; nextRef := nextRef st; scene := scene st;
     objectsRef := objectsRef st;
     loadingVersions := loadingVersions st;
     globalViewAngleSettings := globalViewAngleSettings st;
     pending := p; trace := trace st |}.

(** [!shape.url || shape.url.trim() === ''] *)
Definition noUrl (d : ModelShape) : bool :=
  JS.isEmpty (url d) || JS.isEmpty (JS.trim (url d)).

(** [create3DModel(shape)] up to the call of the loader: the default
    cube at once, or a load in flight under a new version. *)
Definition create3DModel_start (st : State) (b : BaseShape) (d : ModelShape) : Started * State :=
  let pos := (getLast (model_posX d) (JS.Fin 0),
              getLast (model_posY d) (JS.Fin 0),
              getLast (model_posZ d) (JS.Fin 0)) in
  if noUrl d then
    let (r, st') := allocate st (createDefaultCube (globalViewAngleSettings st) b d pos) in
    (Immediate r, st')
  else
    let currentVersion :=
      S (match map_get (id b) (loadingVersions st) with Some v => v | None => 0%nat end) in
    (InFlight {| ticket_base := b; ticket_shape := d;
                 ticket_version := currentVersion; ticket_position := pos |},
     set_loadingVersions st (map_set (id b) currentVersion (loadingVersions st))).

(** The callbacks of the loader, run in state [st]: a result whose
    version is no longer the current one is dropped, and the promise is
    then never settled. *)
Definition create3DModel_finish (st : State) (t : Ticket) : Outcome * State :=
  let current :=
    match map_get (id (ticket_base t)) (loadingVersions st) with
    | Some v => Nat.eqb v (ticket_version t)
    | None => false
    end in
  if negb current then (NeverSettles, st)
  else
    match gltfLoader (url (ticket_shape t)) with
    | Some gltf =>
        let (r, st') :=
          allocate st (loadedModel (globalViewAngleSettings st) (ticket_base t)
                                   (ticket_shape t) (ticket_position t) gltf) in
        (Resolved r, st')
    | None => (Rejected, st)
    end.

(** *** updateObjects of the manager, for one shape *)

Definition updateSphere (g : ViewAngleScalingSettings) (existing : Object3D) (s : SphereShape) : Object3D :=
  let o1 := set_position existing
              (getLast (sphere_posX s) (JS.Fin 0),
               getLast (sphere_posY s) (JS.Fin 0),
               getLast (sphere_posZ s) (JS.Fin 0)) in
  let o2 :=
    match kind o1, material o1 with
    | Mesh, Some (MeshLambertMaterial _) =>
        set_material o1 (Some (MeshLambertMaterial (JS.str_or (sphere_color s) "#ff0000")))
    | _, _ => o1
    end in
  let o3 :=
    match autoRadius s, radius s with
    | off, Some r =>
        match kind o2, geometry o2 with
        | Mesh, Some (SphereGeometry _) =>
            let u := userData o2 in
            set_userData (set_geometry o2 (Some (SphereGeometry r)))
              {| shapeId := shapeId u; shapeType := shapeType u;
                 originalSize := Some (JS.mul r (JS.Fin 2));
                 originalScale := originalScale u;
                 viewAngleConfig := viewAngleConfig u; aspectRatio := aspectRatio u;
                 unitScale := unitScale u; originalUrl := originalUrl u;
                 isDefaultCube := isDefaultCube u; dataPointCount := dataPointCount u |}
        | _, _ => o2
        end
    | _, _ => o2
    end in
  let u := userData o3 in
  set_userData o3
    {| shapeId := shapeId u; shapeType := shapeType u;
       originalSize := originalSize u;
       originalScale := Some (opt_or (sphere_autoScaleFactor s) (JS.Fin 1));
       viewAngleConfig := Some (makeViewAngleConfig g (isOn (autoRadius s)));
       aspectRatio := aspectRatio u;
       unitScale := unitScale u; originalUrl := originalUrl u;
       isDefaultCube := isDefaultCube u; dataPointCount := dataPointCount u |}.

(** The update of a model whose URL has not changed. *)
Definition updateModel (g : ViewAngleScalingSettings) (existing : Object3D) (d : ModelShape) : Object3D :=
  let o1 := set_position existing
              (getLast (model_posX d) (JS.Fin 0),
               getLast (model_posY d) (JS.Fin 0),
               getLast (model_posZ d) (JS.Fin 0)) in
  let o2 :=
    match shapeQuaternion d with
    | Some q => set_quaternion o1 q
    | None => o1
    end in
  let o3 := set_scale o2 (uniform (modelScale d)) in
  let u := userData o3 in
  set_userData o3
    {| shapeId := shapeId u; shapeType := shapeType u;
       originalSize := originalSize u;
       originalScale :=
         Some (JS.mul (opt_or (model_autoScaleFactor d) (JS.Fin 1)) (unitScaleOf d));
       viewAngleConfig := Some (makeViewAngleConfig g (isOn (autoScale d)));
       aspectRatio := aspectRatio u;
       unitScale :=
         (if JS.num_eqb (unitScaleOf d) (opt_or (unitScale u) (JS.Fin 1))
          then unitScale u else Some (unitScaleOf d));
       originalUrl := Some (url d);
       isDefaultCube := isDefaultCube u; dataPointCount := dataPointCount u |}.

(** [existingObject.userData.originalUrl || ''] *)
Definition currentUrl (o : Object3D) : string :=
  match originalUrl (userData o) with Some u => u | None => "" end.

Definition updateObject (st : State) (shape : Shape) : State :=
  if negb (visible (base shape)) then st
  else
    match map_get (id (base shape)) (objectsRef st) with
    | None => st
    | Some r =>
        match deref r (store st) with
        | None => st
        | Some existing =>
            match shape with
            | Sphere b s =>
                mutate st r (updateSphere (globalViewAngleSettings st) existing s)
            | Annotation b a =>
                mutate st r (updateAnnotationText existing a)
            | Model b d =>
                if negb (String.eqb (currentUrl existing) (url d)) then
                  let st1 := removeObject st (id b) in
                  let (started, st2) := create3DModel_start st1 b d in
                  set_pending st2 (pending st2 ++ [(id b, started)])
                else
                  mutate st r (updateModel (globalViewAngleSettings st) existing d)
            | Polyline b p =>
                let st1 := removeObject st (id b) in
                let (r', st2) := allocate st1 (createPolyline b p) in
                addObjectToScene st2 r' (id b)
            end
        end
    end.

(** ** ThreeScene.updateObjects: one reconciliation pass *)

Definition has {V : Type} (k : string) (mp : list (string * V)) : bool :=
  match map_get k mp with Some _ => true | None => false end.

Definition member (k : string) (ks : list string) : bool :=
  List.existsb (String.eqb k) ks.

(** The body of [for (const shape of objects)]; the flag tells whether
    the loop goes on: it does not when an awaited load never settles. *)
Definition reconcileShape (st : State) (shape : Shape) : State * bool :=
  let sid := id (base shape) in
  if negb (visible (base shape)) then
    ((if has sid (objectsRef st) then removeObject st sid else st), true)
  else if has sid (objectsRef st) then (updateObject st shape, true)
  else
    match shape with
    | Sphere b s =>
        let (r, st1) := allocate st (createSphere (globalViewAngleSettings st) b s) in
        (addObjectToScene st1 r sid, true)
    | Polyline b p =>
        let (r, st1) := allocate st (createPolyline b p) in
        (addObjectToScene st1 r sid, true)
    | Annotation b a =>
        let (r, st1) := allocate st (createAnnotation b a) in
        (addObjectToScene st1 r sid, true)
    | Model b d =>
        match create3DModel_start st b d with
        | (Immediate r, st1) => (addObjectToScene st1 r sid, true)
        | (InFlight t, st1) =>
            match create3DModel_finish st1 t with
            | (Resolved r, st2) => (addObjectToScene st2 r sid, true)
            | (Rejected, st2) => (st2, true)
            | (NeverSettles, st2) => (st2, false)
            end
        end
    end.

Fixpoint reconcileAll (st : State) (objects : list Shape) : State :=
  match objects with
  | [] => st
  | shape :: rest =>
      let (st', continue) := reconcileShape st shape in
      if continue then reconcileAll st' rest else st'
  end.

(** [updateObjects()] of [ThreeScene] for the shape list [objects].  An
    awaited load is answered by the loader before the loop resumes;
    other passes running meanwhile are not represented. *)
Definition updateObjects (st : State) (objects : list Shape) : State :=
  let currentObjectIds := map_keys (objectsRef st) in
  let newObjectIds :=
    List.map (fun obj => id (base obj)) (List.filter (fun obj => visible (base obj)) objects) in
  let objectsToRemove :=
    List.filter (fun k => negb (member k newObjectIds)) currentObjectIds in
  reconcileAll (removeObjectsFromScene st objectsToRemove) objects.

(** The continuations [create3DModel(shape).then(add)] left by
    [updateObject], run once the pass is over.  The new model is added
    when [this.loadingVersions.get(shape.id)] equals itself read as
    [get(shape.id) || 0]: when the identifier has a loading version. *)
Definition settleOne (st : State) (p : string * Started) : State :=
  match p with
  | (sid, Immediate r) =>
      if has sid (loadingVersions st) then addObjectToScene st r sid else st
  | (sid, InFlight t) =>
      match create3DModel_finish st t with
      | (Resolved r, st') =>
          if has sid (loadingVersions st') then addObjectToScene st' r sid else st'
      | (_, st') => st'
      end
  end.

Definition settlePending (st : State) : State :=
  List.fold_left settleOne (pending st) (set_pending st []).

(** The events of kind creation, and of kind disposal, in a trace. *)
Definition creations (t : list Event) : list Ref :=
  List.flat_map (fun e => match e with Created r => [r] | Disposed _ => [] end) t.

Definition disposals (t : list Event) : list Ref :=
  List.flat_map (fun e => match e with Disposed r => [r] | Created _ => [] end) t.

(** ** Settings, manual scale and clean-up *)

(** What [updateGlobalViewAngleSettings] does to one object of the map:
    the three settings are written into its [viewAngleConfig], when it
    has one. *)
Definition withSettings (g : ViewAngleScalingSettings) (o : Object3D) : Object3D :=
  match viewAngleConfig (userData o) with
  | Some c =>
      let u := userData o in
      set_userData o
        {| shapeId := shapeId u; shapeType := shapeType u;
           originalSize := originalSize u; originalScale := originalScale u;
           viewAngleConfig := Some (makeViewAngleConfig g (enabled c));
           aspectRatio := aspectRatio u;
           unitScale := unitScale u; originalUrl := originalUrl u;
           isDefaultCube := isDefaultCube u; dataPointCount := dataPointCount u |}
  | None => o
  end.

Definition set_globalViewAngleSettings (st : State) (g : ViewAngleScalingSettings) : State :=
  {| store := store st; nextRef := nextRef st; scene := scene st;
     objectsRef := objectsRef st;
     loadingVersions := loadingVersions st;
     globalViewAngleSettings := g;
     pending := pending st; trace := trace st |}.

(** The body of [this.objectsRef.current.forEach((object) => ...)]. *)
Definition applySettings (g : ViewAngleScalingSettings) (st : State) (entry : string * Ref) : State :=
  match deref (snd entry) (store st) with
  | Some o => mutate st (snd entry) (withSettings g o)
  | None => st
  end.

(** [updateGlobalViewAngleSettings(settings)] *)
Definition updateGlobalViewAngleSettings (st : State) (g : ViewAngleScalingSettings) : State :=
  List.fold_left (applySettings g) (objectsRef st) (set_globalViewAngleSettings st g).

(** [saveOriginalScale(objectId, scale)] *)
Definition saveOriginalScale (st : State) (objectId : string) (s : JS.number) : State :=
  match map_get objectId (objectsRef st) with
  | Some r =>
      match deref r (store st) with
      | Some o =>
          let u := userData o in
          mutate st r
            (set_userData o
               {| shapeId := shapeId u; shapeType := shapeType u;
                  originalSize := originalSize u; originalScale := Some s;
                  viewAngleConfig := viewAngleConfig u; aspectRatio := aspectRatio u;
                  unitScale := unitScale u; originalUrl := originalUrl u;
                  isDefaultCube := isDefaultCube u; dataPointCount := dataPointCount u |})
      | None => st
      end
  | None => st
  end.

(** [dispose()]: [this.loadingVersions.clear()] *)
Definition dispose (st : State) : State := set_loadingVersions st [].

End Manager.

End Scene.

(* ================================================================== *)
(** * CommonHelpers.ts                                                  *)
(* ================================================================== *)

Module CommonHelpers.

Import Types.
Local Open Scope string_scope.

(** [validateField(value, required)] *)
Definition validateField (v : string) (required : bool) : bool :=
  if required && (JS.isEmpty v || JS.isEmpty (JS.trim v)) then false else true.

Definition createDefaultDataField : DataField :=
  {| sourceType := const; value := "0" |}.

(** An entry of the drop-down of fields. *)
Record FieldOption : Type := {
  label : string;
  option_value : string
}.

(** An optional string property read in a boolean context or by [||]. *)
Definition text_of (o : option string) : string :=
  match o with Some s => s | None => "" end.

(** [series.name || series.refId || `Query-${seriesIndex + 1}`] *)
Definition dataSourceName (s : DataFrame) (seriesIndex : nat) : string :=
  JS.str_or (text_of (series_name s))
    (JS.str_or (text_of (refId s))
       ("Query-" ++ NilZero.string_of_uint (Nat.to_uint (S seriesIndex)))).

(** The body of [series.fields.forEach((field) => ...)]. *)
Definition fieldOption (s : DataFrame) (seriesIndex : nat) (f : Field) : list FieldOption :=
  if JS.isEmpty (field_name f) then []
  else
    [{| label := dataSourceName s seriesIndex ++ " → " ++ field_name f;
        option_value := dataSourceName s seriesIndex ++ "." ++ field_name f |}].

(** [data.series.forEach((series, seriesIndex) => ...)], from index
    [seriesIndex] on. *)
Fixpoint seriesOptions (ss : list DataFrame) (seriesIndex : nat) : list FieldOption :=
  match ss with
  | [] => []
  | s :: rest =>
      (List.flat_map (fieldOption s seriesIndex) (fields s)
       ++ seriesOptions rest (S seriesIndex))%list
  end.

Definition getFieldOptions (data : option PanelData) : list FieldOption :=
  match data with
  | None => []
  | Some d => seriesOptions (series d) 0%nat
  end.

End CommonHelpers.

(* ================================================================== *)
(** * TargetObjectEditor.tsx                                            *)
(* ================================================================== *)

Module TargetObjectEditor.

Import Types.
Local Open Scope string_scope.

Record SelectableValue : Type := {
  sv_value : string;
  sv_label : string
}.

Definition originOption : SelectableValue :=
  {| sv_value := "origin"; sv_label := "Origin (0,0,0)" |}.

(** The option list: the origin, then every object that has a name and
    an identifier. *)
Definition options (ctx : option SimpleOptions) : list SelectableValue :=
  originOption ::
  match ctx with
  | Some o =>
      match objects o with
      | Some objs =>
          List.flat_map (fun obj =>
            if negb (JS.isEmpty (name (base obj))) && negb (JS.isEmpty (id (base obj)))
            then [{| sv_value := id (base obj); sv_label := name (base obj) |}]
            else []) objs
      | None => []
      end
  | None => []
  end.

(** [value || 'origin'] *)
Definition currentValue (v : option string) : string :=
  JS.str_or (match v with Some s => s | None => "" end) "origin".

(** [options.find(option => option.value === currentValue) || options[0]] *)
Definition selectedOption (ctx : option SimpleOptions) (v : option string) : SelectableValue :=
  match List.find (fun o => String.eqb (sv_value o) (currentValue v)) (options ctx) with
  | Some o => o
  | None => List.hd originOption (options ctx)
  end.

(** The argument of [onChange]: [selectedOption?.value || 'origin'] *)
Definition handleChange (selected : option SelectableValue) : string :=
  JS.str_or (match selected with Some o => sv_value o | None => "" end) "origin".

End TargetObjectEditor.

(* ================================================================== *)
(** * MeasurementSelectEditor.tsx                                       *)
(* ================================================================== *)

Module MeasurementSelectEditor.

Import Types.
Local Open Scope string_scope.

Record SelectOption : Type := {
  so_label : string;
  so_value : string
}.

(** [extractMeasurementName(seriesName)]: what precedes the first comma. *)
Definition extractMeasurementName (seriesName : option string) : string :=
  match seriesName with
  | None => ""
  | Some s =>
      if JS.isEmpty s then ""
      else JS.str_or (List.hd "" (JS.split "," s)) ""
  end.

(** The shapes of [context.data] that the editor accepts. *)
Inductive ContextData : Type :=
| DataArray (frames : list DataFrame)
| DataObject (data_series : option (list DataFrame)) (state_data : option (list DataFrame))
| NoData.

(** [Array.isArray(context.data) ? context.data :
     (context.data?.series || context.data?.state?.data || [])] *)
Definition dataArray (c : ContextData) : list DataFrame :=
  match c with
  | DataArray l => l
  | DataObject (Some l) _ => l
  | DataObject None (Some l) => l
  | DataObject None None => []
  | NoData => []
  end.

(** [measurementSet.has(m)], the set being kept in insertion order. *)
Definition has (k : string) (seen : list string) : bool :=
  List.existsb (String.eqb k) seen.

Definition option_of (k : string) : SelectOption := {| so_label := k; so_value := k |}.

(** The body of [dataArray.forEach((series, index) => ...)] on the
    options and the set collected so far. *)
Definition visitSeries (acc : list SelectOption * list string) (s : DataFrame)
    : list SelectOption * list string :=
  let (opts, seen) := acc in
  if negb (JS.isEmpty (CommonHelpers.text_of (series_name s))) then
    let measurementName := extractMeasurementName (series_name s) in
    if negb (JS.isEmpty measurementName) && negb (has measurementName seen)
    then ((opts ++ [option_of measurementName])%list, (seen ++ [measurementName])%list)
    else acc
  else if negb (JS.isEmpty (CommonHelpers.text_of (refId s))) then
    let r := CommonHelpers.text_of (refId s) in
    if negb (has r seen)
    then ((opts ++ [option_of r])%list, (seen ++ [r])%list)
    else acc
  else acc.

Definition placeholder : SelectOption :=
  {| so_label := "-- choose Measurement Name --"; so_value := "" |}.

(** The options computed by the effect, for the context data, the
    [defaultValue] of the item settings and the current value. *)
Definition measurementOptions (c : ContextData) (defaultValue v : option string)
    : list SelectOption :=
  let collected := fst (List.fold_left visitSeries (dataArray c) ([], [])) in
  let dv := CommonHelpers.text_of defaultValue in
  let withDefault :=
    match collected with
    | [] => if negb (JS.isEmpty dv) then [option_of dv] else [placeholder]
    | _ => collected
    end in
  let cur := CommonHelpers.text_of v in
  if negb (JS.isEmpty cur)
     && negb (List.existsb (fun o => String.eqb (so_value o) cur) withDefault)
  then (withDefault ++ [option_of cur])%list
  else withDefault.

(** [options.find(option => option.value === value) || null] *)
Definition selected (opts : list SelectOption) (v : option string) : option SelectOption :=
  match v with
  | Some cur => List.find (fun o => String.eqb (so_value o) cur) opts
  | None => None
  end.

End MeasurementSelectEditor.

(* ================================================================== *)
(** * ObjectsEditor.tsx                                                 *)
(* ================================================================== *)

Module ObjectsEditor.

Import Types.
Local Open Scope string_scope.

Definition typeName (t : ShapeType) : string :=
  match t with
  | sphere => "sphere"
  | model3d => "3dmodel"
  | annotation => "annotation"
  | polyline => "polyline"
  end.

Definition createDefaultDataField : DataField :=
  {| sourceType := const; value := "0" |}.

Definition createNewShape (t : ShapeType) (newId : string) : Shape :=
  let baseShape :=
    {| id := newId; name := typeName t ++ "_" ++ newId; visible := true |} in
  match t with
  | sphere =>
      Sphere baseShape
        {| sphere_color := "#ff0000";
           sphere_posX := createDefaultDataField;
           sphere_posY := createDefaultDataField;
           sphere_posZ := createDefaultDataField;
           autoRadius := on;
           radius := Some (JS.Fin 1);
           sphere_autoScaleFactor := Some (JS.Fin 1) |}
  | annotation =>
      Annotation baseShape
        {| textSize := JS.Fin 14;
           textColor := "#ffffff";
           annotation_posX := createDefaultDataField;
           annotation_posY := createDefaultDataField;
           annotation_posZ := createDefaultDataField;
           text := {| sourceType := const; value := "Text" |};
           lineDirection := normal |}
  | polyline =>
      Polyline baseShape
        {| strokeSize := JS.Fin 2;
           strokeColor := "#00ff00";
           pointsX := createDefaultDataField;
           pointsY := createDefaultDataField;
           pointsZ := createDefaultDataField;
           closePath := off;
           smoothCurve := off |}
  | model3d =>
      Model baseShape
        {| url := "";
           model_posX := createDefaultDataField;
           model_posY := createDefaultDataField;
           model_posZ := createDefaultDataField;
           quatX := Some createDefaultDataField;
           quatY := Some createDefaultDataField;
           quatZ := Some createDefaultDataField;
           quatW := Some {| sourceType := const; value := "1" |};
           autoScale := on;
           scale := Some (JS.Fin 1);
           model_autoScaleFactor := Some (JS.Fin 1);
           model_unit := Some km |}
  end.

(** The editor: the list it edits and the index of the selected entry. *)
Record Editor : Type := {
  shapes : list Shape;
  selectedObjectIndex : option nat
}.

(** [useState(value.length > 0 ? 0 : null)] *)
Definition initialEditor (v : list Shape) : Editor :=
  {| shapes := v;
     selectedObjectIndex := match v with [] => None | _ => Some 0%nat end |}.

(** [addObject()], [newId] being [Date.now().toString()]. *)
Definition addObject (e : Editor) (selectedType : ShapeType) (newId : string) : Editor :=
  let newObjects := (shapes e ++ [createNewShape selectedType newId])%list in
  {| shapes := newObjects;
     selectedObjectIndex := Some (length newObjects - 1)%nat |}.

(** [value.filter((_, i) => i !== index)], the entries being numbered
    from [i] on. *)
Fixpoint dropIndex (l : list Shape) (i index : nat) : list Shape :=
  match l with
  | [] => []
  | sh :: rest =>
      if Nat.eqb i index then dropIndex rest (S i) index
      else sh :: dropIndex rest (S i) index
  end.

Definition deleteObject (e : Editor) (index : nat) : Editor :=
  let newObjects := dropIndex (shapes e) 0%nat index in
  {| shapes := newObjects;
     selectedObjectIndex :=
       match selectedObjectIndex e with
       | Some sel =>
           if Nat.eqb sel index then
             if Nat.eqb (length newObjects) 0 then None
             else if (length newObjects <=? index)%nat then Some (length newObjects - 1)%nat
             else Some index
           else if (index <? sel)%nat then Some (sel - 1)%nat
           else Some sel
       | None => None
       end |}.

End ObjectsEditor.

(* ================================================================== *)
(** * ViewAngleScalingEditor.tsx                                        *)
(* ================================================================== *)

Module ViewAngleScalingEditor.

Import Types.
Local Open Scope string_scope.

(** [Partial<ViewAngleScalingSettings>] *)
Record PartialSettings : Type := {
  p_targetAngularSize : option JS.number;
  p_minSize : option JS.number;
  p_maxSize : option JS.number
}.

Definition defaultViewAngleScalingSettings : ViewAngleScalingSettings :=
  {| vas_targetAngularSize := JS.Fin (5 # 100);
     vas_minSize := JS.Fin (1 # 10);
     vas_maxSize := JS.Fin 14720000000 |}.

(** [{ ...s, ...updates }] *)
Definition spread (s : ViewAngleScalingSettings) (updates : option PartialSettings)
    : ViewAngleScalingSettings :=
  match updates with
  | None => s
  | Some u =>
      {| vas_targetAngularSize :=
           match p_targetAngularSize u with Some x => x | None => vas_targetAngularSize s end;
         vas_minSize :=
           match p_minSize u with Some x => x | None => vas_minSize s end;
         vas_maxSize :=
           match p_maxSize u with Some x => x | None => vas_maxSize s end |}
  end.

(** [settings = { ...defaultViewAngleScalingSettings, ...value }] *)
Definition settings (v : option PartialSettings) : ViewAngleScalingSettings :=
  spread defaultViewAngleScalingSettings v.

(** [updateSettings(updates)]: the argument of [onChange]. *)
Definition updateSettings (v : option PartialSettings) (updates : PartialSettings)
    : ViewAngleScalingSettings :=
  spread (settings v) (Some updates).

(** The three [onChange] handlers of the inputs, on the text typed. *)
Definition changeTargetAngularSize (v : option PartialSettings) (input : string)
    : ViewAngleScalingSettings :=
  updateSettings v
    {| p_targetAngularSize := Some (JS.num_or (JS.parseFloat input) (JS.Fin (2 # 10)));
       p_minSize := None; p_maxSize := None |}.

Definition changeMinSize (v : option PartialSettings) (input : string)
    : ViewAngleScalingSettings :=
  updateSettings v
    {| p_targetAngularSize := None;
       p_minSize := Some (JS.num_or (JS.parseFloat input) (JS.Fin (1 # 10)));
       p_maxSize := None |}.

Definition changeMaxSize (v : option PartialSettings) (input : string)
    : ViewAngleScalingSettings :=
  updateSettings v
    {| p_targetAngularSize := None; p_minSize := None;
       p_maxSize := Some (JS.num_or (JS.parseFloat input) (JS.Fin 14720000000)) |}.

End ViewAngleScalingEditor.

(* ================================================================== *)
(** * Vocabulary of the properties                                      *)
(* ================================================================== *)

Import Types.

Unset Implicit Arguments.

Module VAS := ViewAngleScaling.

(** ** Field resolution *)

Section FieldVocabulary.

Local Open Scope string_scope.

(** The series that a reference naming [sn] addresses. *)
Definition seriesMatches (sn : string) (s : DataFrame) : Prop :=
  series_name s = Some sn \/ refId s = Some sn.

(** A series offers [fn] when its first field of that name holds at
    least one value. *)
Definition offers (fn : string) (s : DataFrame) : Prop :=
  exists fd, DataFieldProcessor.findField (fields s) fn = Some fd /\ values fd <> [].

Definition constField (v : string) : DataField := {| sourceType := const; value := v |}.

Definition telemetryField (v : string) : DataField := {| sourceType := field; value := v |}.

(** One series named [Other] (ref-id [A]) with a column [PosX = [7]]. *)
Definition otherSeries : list DataFrame :=
  [ {| series_name := Some "Other"; refId := Some "A";
       fields := [ {| field_name := "PosX"; values := [JS.VNum (JS.Fin 7)] |} ] |} ].

(** One series named [Nav] with a column [State] that holds no value. *)
Definition emptyColumn : list DataFrame :=
  [ {| series_name := Some "Nav"; refId := Some "A";
       fields := [ {| field_name := "State"; values := [] |} ] |} ].

(** One series with a column [X] holding the number [NaN]. *)
Definition nanColumn : list DataFrame :=
  [ {| series_name := Some "Nav"; refId := Some "A";
       fields := [ {| field_name := "X"; values := [JS.VNum JS.NaN] |} ] |} ].

End FieldVocabulary.

(** ** Camera presets and bounds *)

Section BoundsVocabulary.

Local Open Scope string_scope.
Local Open Scope Q_scope.

Definition origin : JS.number * JS.number * JS.number := (JS.Fin 0, JS.Fin 0, JS.Fin 0).

(** [c] is [t] moved by [delta]: exactly so when [t] is finite, and an
    infinite [t] stays where it is. *)
Definition displaced (t c : JS.number) (delta : Q) : Prop :=
  match t with
  | JS.Fin q => exists c', c = JS.Fin c' /\ c' == q + delta
  | _ => c = t
  end.

(** The target that the options designate: the identifier, when it is
    given and is not [origin]. *)
Definition designated (options : option SimpleOptions) : option string :=
  match options with
  | Some o =>
      match targetObjectId o with
      | Some t => if String.eqb t "" || String.eqb t "origin" then None else Some t
      | None => None
      end
  | None => None
  end.

Definition objectsOf (options : option SimpleOptions) : list Shape :=
  match options with
  | Some o => match objects o with Some l => l | None => [] end
  | None => []
  end.

(** [parseFloat(field.value) || 0] *)
Definition readCoordinate (f : DataField) : JS.number :=
  JS.num_or (JS.parseFloat (value f)) (JS.Fin 0).

Inductive Axis : Type := AxisX | AxisY | AxisZ.

Definition pointsOn (a : Axis) (p : PolylineShape) : DataField :=
  match a with AxisX => pointsX p | AxisY => pointsY p | AxisZ => pointsZ p end.

Definition positionOn (a : Axis) (sh : Shape) : option DataField :=
  match a with AxisX => posX sh | AxisY => posY sh | AxisZ => posZ sh end.

Definition boundsOn (a : Axis) (l : BoundsCalculator.Limits) : JS.number * JS.number :=
  match a with
  | AxisX => (BoundsCalculator.minX l, BoundsCalculator.maxX l)
  | AxisY => (BoundsCalculator.minY l, BoundsCalculator.maxY l)
  | AxisZ => (BoundsCalculator.minZ l, BoundsCalculator.maxZ l)
  end.

(** What a shape contributes to an axis: nothing when it is not
    visible, all its points when it is a polyline, its last position
    otherwise. *)
Definition contribution (data : option PanelData) (a : Axis) (sh : Shape) : list JS.number :=
  if visible (base sh) then
    match sh with
    | Polyline _ p =>
        DataFieldProcessor.getDataFieldValue data (Some (pointsOn a p)) (JS.Fin 0)
    | _ => [DataFieldProcessor.getLastDataFieldValue data (positionOn a sh) (JS.Fin 0)]
    end
  else [].

Definition contributions (data : option PanelData) (a : Axis) (objs : list Shape) : list JS.number :=
  List.flat_map (contribution data a) objs.

(** An accumulated minimum or maximum that can no longer become a
    finite pair. *)
Definition poisoned (mm : JS.number * JS.number) : Prop :=
  fst mm = JS.NaN \/ fst mm = JS.NInf \/ snd mm = JS.NaN \/ snd mm = JS.PInf.

(** The accumulated pair after the contributions [cs]. *)
Inductive summary (cs : list JS.number) : JS.number * JS.number -> Prop :=
| summary_empty :
    cs = [] -> summary cs (JS.PInf, JS.NInf)
| summary_finite (lo hi : Q) :
    (forall c, In c cs -> JS.isFinite c = true) ->
    In (JS.Fin lo) cs -> In (JS.Fin hi) cs ->
    (forall q, In (JS.Fin q) cs -> lo <= q /\ q <= hi) ->
    summary cs (JS.Fin lo, JS.Fin hi)
| summary_poisoned (mm : JS.number * JS.number) :
    (exists c, In c cs /\ JS.isFinite c = false) ->
    poisoned mm -> summary cs mm.

(** The range [lo, hi] widened on both sides by a tenth of its width,
    of [10] when the width is zero. *)
Definition widened (lo hi : Q) (r : JS.number * JS.number) : Prop :=
  exists mn mx,
    r = (JS.Fin mn, JS.Fin mx) /\
    let range := if Qeq_bool (hi - lo) 0 then 10 else hi - lo in
    mn == lo - range * (1 # 10) /\ mx == hi + range * (1 # 10).

(** What the estimator returns on an axis whose contributions are [cs]. *)
Definition axis_limits (cs : list JS.number) (r : JS.number * JS.number) : Prop :=
  ((forall c, In c cs -> JS.isFinite c = false) -> r = (JS.Fin (-50), JS.Fin 50)) /\
  ((exists c, In c cs /\ JS.isFinite c = false) -> r = (JS.Fin (-50), JS.Fin 50)) /\
  (cs <> [] -> (forall c, In c cs -> JS.isFinite c = true) ->
     exists lo hi,
       In (JS.Fin lo) cs /\ In (JS.Fin hi) cs /\
       (forall q, In (JS.Fin q) cs -> lo <= q /\ q <= hi) /\
       widened lo hi r).

End BoundsVocabulary.

(** ** View-angle scaling *)

Section ScalingVocabulary.

Local Open Scope R_scope.

Definition vec (a b c : R) : VAS.Vector3 := {| VAS.x := a; VAS.y := b; VAS.z := c |}.

(** An entity at the origin, of cached size [size] and aspect ratio
    [aspect]. *)
Definition entity (size : R) (aspect : option VAS.xreal) : VAS.Object3D :=
  {| VAS.position := vec 0 0 0;
     VAS.scale := VAS.Num 1;
     VAS.userData :=
       {| VAS.originalSize := Some size;
          VAS.originalScale := None;
          VAS.aspectRatio := aspect;
          VAS.viewAngleConfig := None |};
     VAS.boundingSize := vec size size size |}.

Definition cameraAt (a b c : R) : VAS.Camera := {| VAS.camera_position := vec a b c |}.

Definition configOf (angle lo hi : R) : VAS.ViewAngleScalingConfig :=
  {| VAS.enabled := true; VAS.targetAngularSize := angle;
     VAS.minSize := lo; VAS.maxSize := hi |}.

(** The entity size that the scale is computed from. *)
Definition entitySize (o : VAS.Object3D) : R := fst (VAS.getObjectSize o).

End ScalingVocabulary.

(** ** Reconciliation *)

Section SceneVocabulary.

Local Close Scope Q_scope.
Local Open Scope nat_scope.
Local Open Scope string_scope.

(** The events of [after] that [before] does not have yet. *)
Definition newEvents (before after : Scene.State) : list Scene.Event :=
  List.skipn (length (Scene.trace before)) (Scene.trace after).

(** The creation of an entity for the shape succeeds: a model has no
    URL, or the loader delivers its asset. *)
Definition loads (gltfLoader : string -> option Scene.GLTF) (sh : Shape) : Prop :=
  match sh with
  | Model _ d => Scene.noUrl d = true \/ gltfLoader (url d) <> None
  | _ => True
  end.

Definition isPolyline (sh : Shape) : bool :=
  match sh with Polyline _ _ => true | _ => false end.

(** The shape is the one the entity was last built or updated from, as
    far as the reconciler compares them: the URL of a model. *)
Definition sameResource (sh : Shape) (o : Scene.Object3D) : Prop :=
  match sh with
  | Model _ d => Scene.originalUrl (Scene.userData o) = Some (url d)
  | _ => True
  end.

Definition sphereShape (sid : string) : Shape :=
  Sphere {| id := sid; name := sid; visible := true |}
         {| sphere_color := "#00ff00";
            sphere_posX := constField "0"; sphere_posY := constField "0";
            sphere_posZ := constField "0";
            autoRadius := on; radius := None; sphere_autoScaleFactor := None |}.

Definition polylineShape (sid : string) : Shape :=
  Polyline {| id := sid; name := sid; visible := true |}
           {| strokeSize := JS.Fin 1; strokeColor := "#ffffff";
              pointsX := constField "0,1"; pointsY := constField "0,0";
              pointsZ := constField "0,0";
              closePath := off; smoothCurve := off |}.

Definition noLoader : string -> option Scene.GLTF := fun _ => None.

(** The state after the creation of an entity [o] for the identifier
    [sid], the loading versions having become [lv]. *)
Definition created (st : Scene.State) (lv : list (string * nat)) (o : Scene.Object3D)
    (sid : string) : Scene.State :=
  Scene.addObjectToScene
    (snd (Scene.allocate (Scene.set_loadingVersions st lv) o)) (Scene.nextRef st) sid.

End SceneVocabulary.

(** ** Reference syntax, constants and scene consistency *)

Section FurtherVocabulary.

Local Close Scope Q_scope.
Local Open Scope nat_scope.
Local Open Scope string_scope.

(** The two ways of writing a reference to the field [fn] of the series
    [sn]. *)
Definition bracketReference (sn fn : string) : DataField :=
  telemetryField ("[" ++ sn ++ "]{" ++ fn ++ "}").

Definition dottedReference (sn fn : string) : DataField :=
  telemetryField (sn ++ "." ++ fn).

(** A position given as one finite constant, or as a text that is no
    number at all. *)
Definition plainConstant (f : DataField) : Prop :=
  sourceType f = const /\ JS.includes "," (value f) = false /\
  JS.parseFloat (value f) <> JS.PInf /\ JS.parseFloat (value f) <> JS.NInf.

(** A number that [parseFloat] returns is in lowest terms. *)
Definition reduced (x : JS.number) : Prop :=
  match x with
  | JS.Fin q => exists y, q = Qred y
  | _ => True
  end.

Definition sphereAt (px py pz : string) : SphereShape :=
  {| sphere_color := "#00ff00";
     sphere_posX := constField px; sphere_posY := constField py;
     sphere_posZ := constField pz;
     autoRadius := on; radius := None; sphere_autoScaleFactor := None |}.

Definition modelShape (u : string) : ModelShape :=
  {| url := u;
     model_posX := constField "0"; model_posY := constField "0";
     model_posZ := constField "0";
     quatX := None; quatY := None; quatZ := None; quatW := None;
     autoScale := on; scale := None; model_autoScaleFactor := None;
     model_unit := None |}.

(** The references that the id-to-entity map holds. *)
Definition liveRefs (st : Scene.State) : list Scene.Ref :=
  List.map snd (Scene.objectsRef st).

(** The scene graph and the map describe the same entities: no
    identifier and no entity occurs twice, the scene holds exactly the
    entities of the map, and each of them is an allocated object. *)
Record consistent (st : Scene.State) : Prop := {
  keys_distinct : NoDup (Scene.map_keys (Scene.objectsRef st));
  refs_distinct : NoDup (liveRefs st);
  scene_distinct : NoDup (Scene.scene st);
  scene_is_live : forall r, In r (Scene.scene st) <-> In r (liveRefs st);
  refs_allocated : forall r, In r (liveRefs st) -> r < Scene.nextRef st;
  refs_stored : forall r, In r (liveRefs st) -> Scene.deref r (Scene.store st) <> None
}.

(** What one step of the loop may do to the map: keep its identifiers,
    or add the identifier of the shape, when the shape is visible. *)
Definition step_ok (st st' : Scene.State) (shape : Shape) : Prop :=
  consistent st' /\
  forall k, In k (Scene.map_keys (Scene.objectsRef st')) ->
            In k (Scene.map_keys (Scene.objectsRef st)) \/
            (visible (base shape) = true /\ k = id (base shape)).

(** The points that a line or tube geometry is built from. *)
Definition geometryPoints (g : option Scene.Geometry) : list Scene.Vec3 :=
  match g with
  | Some (Scene.PointsGeometry ps) => ps
  | Some (Scene.TubeGeometry ps _ _) => ps
  | _ => []
  end.

Definition shortest (xs ys zs : list JS.number) : nat :=
  Nat.min (Nat.min (length xs) (length ys)) (length zs).

(** The selection of the editor designates an entry of its list. *)
Definition validSelection (e : ObjectsEditor.Editor) : Prop :=
  forall sel, ObjectsEditor.selectedObjectIndex e = Some sel ->
              sel < length (ObjectsEditor.shapes e).

(** The entities whose resources have been disposed of. *)
Definition retired (st : Scene.State) : list Scene.Ref :=
  Scene.disposals (Scene.trace st).

(** No entity is disposed of twice, and a disposed entity is no longer
    in the map. *)
Record noReuse (st : Scene.State) : Prop := {
  retired_once : NoDup (retired st);
  retired_not_live : forall r, In r (retired st) -> ~ In r (liveRefs st);
  retired_allocated : forall r, In r (retired st) -> r < Scene.nextRef st
}.

End FurtherVocabulary.

(** ** Proof automation *)

Ltac Rminmax :=
  unfold Rmax, Rmin in *;
  repeat match goal with
         | |- context [Rle_dec ?a ?b] => destruct (Rle_dec a b)
         | H : context [Rle_dec ?a ?b] |- _ => destruct (Rle_dec a b)
         end;
  try Lra.lra.

(** Simplifies, deciding the comparisons of identifiers from the
    hypotheses at hand. *)
Ltac unfold_state :=
  cbv [Scene.removeObjectsFromScene Scene.removeObject Scene.addObjectToScene
       Scene.allocate Scene.set_loadingVersions Scene.mutate Scene.has
       Scene.member Scene.map_keys Scene.initialState
       Scene.map_get Scene.map_set Scene.map_delete Scene.deref Scene.assign
       Scene.objectsRef Scene.scene Scene.store Scene.nextRef Scene.trace
       Scene.pending Scene.loadingVersions Scene.globalViewAngleSettings
       List.fold_left List.filter List.map List.existsb List.app List.skipn
       List.length fst snd negb orb andb Nat.eqb].

Ltac decide_ids :=
  unfold_state;
  repeat (match goal with
          | H : String.eqb _ _ = false |- _ => rewrite H
          | |- _ => rewrite String.eqb_refl
          end;
          unfold_state).

(** The fields of a state, once its constructors are exposed. *)
Ltac state_fields :=
  cbn [Scene.objectsRef Scene.scene Scene.store Scene.nextRef Scene.trace
       Scene.pending Scene.loadingVersions Scene.globalViewAngleSettings fst snd] in *.

(* ================================================================== *)
(** * Properties of the field resolver                                  *)
(* ================================================================== *)

Local Open Scope string_scope.

Lemma opt_is_true (o : option string) (s : string) :
  DataFieldProcessor.opt_is o s = true <-> o = Some s.
Proof.
  destruct o as [x|]; simpl.
  - rewrite String.eqb_eq. split; [intros ->; reflexivity | intros [= ->]; reflexivity].
  - split; discriminate.
Qed.

Lemma seriesMatches_dec (sn : string) (s : DataFrame) :
  (DataFieldProcessor.opt_is (series_name s) sn || DataFieldProcessor.opt_is (refId s) sn)%bool = true
  <-> seriesMatches sn s.
Proof.
  unfold seriesMatches. rewrite orb_true_iff, !opt_is_true. reflexivity.
Qed.

Lemma length_pos_nonempty {A : Type} (l : list A) :
  (0 <? length l)%nat = true <-> l <> [].
Proof.
  destruct l; simpl; split; try discriminate; try congruence; reflexivity.
Qed.

Lemma split_nonempty (c : ascii) (s : string) : JS.split c s <> [].
Proof. unfold JS.split. destruct (JS.split_pieces c s). discriminate. Qed.

Lemma map_nonempty {A B : Type} (f : A -> B) (l : list A) :
  l <> [] -> List.map f l <> [].
Proof. destruct l; simpl; congruence. Qed.

Lemma processFieldValues_nonempty (fd : Field) :
  values fd <> [] -> DataFieldProcessor.processFieldValues fd <> [].
Proof. apply map_nonempty. Qed.

(** The scan of all series returns the column of the first series that
    offers the field, and [[default]] when none does. *)
Lemma findFieldByName_none (ss : list DataFrame) (fn : string) (d : JS.number) :
  (forall s, In s ss -> ~ offers fn s) ->
  DataFieldProcessor.findFieldByName ss fn d = [d].
Proof.
  induction ss as [|s ss IH]; simpl; intros H; [reflexivity|].
  destruct (DataFieldProcessor.findField (fields s) fn) as [fd|] eqn:Hf.
  - destruct (0 <? length (values fd))%nat eqn:Hl.
    + exfalso. apply (H s (or_introl eq_refl)). exists fd. split; [assumption|].
      apply length_pos_nonempty; assumption.
    + apply IH. intros s' Hs'. apply H. right; assumption.
  - apply IH. intros s' Hs'. apply H. right; assumption.
Qed.

Lemma findFieldByName_first (pre post : list DataFrame) (s : DataFrame)
    (fn : string) (d : JS.number) (fd : Field) :
  (forall s', In s' pre -> ~ offers fn s') ->
  DataFieldProcessor.findField (fields s) fn = Some fd -> values fd <> [] ->
  DataFieldProcessor.findFieldByName (pre ++ s :: post) fn d
  = DataFieldProcessor.processFieldValues fd.
Proof.
  intros Hpre Hf Hv. induction pre as [|p pre IH]; simpl.
  - rewrite Hf. apply length_pos_nonempty in Hv. rewrite Hv. reflexivity.
  - destruct (DataFieldProcessor.findField (fields p) fn) as [fd'|] eqn:Hf'.
    + destruct (0 <? length (values fd'))%nat eqn:Hl.
      * exfalso. apply (Hpre p (or_introl eq_refl)). exists fd'. split; [assumption|].
        apply length_pos_nonempty; assumption.
      * apply IH. intros s' Hs'. apply Hpre. right; assumption.
    + apply IH. intros s' Hs'. apply Hpre. right; assumption.
Qed.

Lemma findFieldByName_nonempty (ss : list DataFrame) (fn : string) (d : JS.number) :
  DataFieldProcessor.findFieldByName ss fn d <> [].
Proof.
  induction ss as [|s ss IH]; simpl; [discriminate|].
  destruct (DataFieldProcessor.findField (fields s) fn) as [fd|]; [|assumption].
  destruct (0 <? length (values fd))%nat eqn:Hl; [|assumption].
  apply processFieldValues_nonempty, length_pos_nonempty; assumption.
Qed.

(** The search by series name returns the column of the first matching
    series that offers the field, and nothing when none does. *)
Lemma findFieldBySeriesAndName_none (ss : list DataFrame) (sn fn : string) :
  (forall s, In s ss -> seriesMatches sn s -> ~ offers fn s) ->
  DataFieldProcessor.findFieldBySeriesAndName ss sn fn = None.
Proof.
  induction ss as [|s ss IH]; simpl; intros H; [reflexivity|].
  assert (IH' : DataFieldProcessor.findFieldBySeriesAndName ss sn fn = None)
    by (apply IH; intros s' Hs'; apply H; right; assumption).
  destruct (_ || _)%bool eqn:Hm; [|assumption].
  apply seriesMatches_dec in Hm.
  destruct (DataFieldProcessor.findField (fields s) fn) as [fd|] eqn:Hf; [|assumption].
  destruct (0 <? length (values fd))%nat eqn:Hl; [|assumption].
  exfalso. apply (H s (or_introl eq_refl) Hm). exists fd. split; [assumption|].
  apply length_pos_nonempty; assumption.
Qed.

Lemma findFieldBySeriesAndName_first (pre post : list DataFrame) (s : DataFrame)
    (sn fn : string) (fd : Field) :
  (forall s', In s' pre -> seriesMatches sn s' -> ~ offers fn s') ->
  seriesMatches sn s ->
  DataFieldProcessor.findField (fields s) fn = Some fd -> values fd <> [] ->
  DataFieldProcessor.findFieldBySeriesAndName (pre ++ s :: post) sn fn
  = Some (DataFieldProcessor.processFieldValues fd).
Proof.
  intros Hpre Hm Hf Hv. induction pre as [|p pre IH]; simpl.
  - apply seriesMatches_dec in Hm. rewrite Hm, Hf.
    apply length_pos_nonempty in Hv. rewrite Hv. reflexivity.
  - assert (IH' := IH (fun s' Hs' => Hpre s' (or_intror Hs'))).
    destruct (_ || _)%bool eqn:Hm'; [|assumption].
    apply seriesMatches_dec in Hm'.
    destruct (DataFieldProcessor.findField (fields p) fn) as [fd'|] eqn:Hf'; [|assumption].
    destruct (0 <? length (values fd'))%nat eqn:Hl; [|assumption].
    exfalso. apply (Hpre p (or_introl eq_refl) Hm'). exists fd'. split; [assumption|].
    apply length_pos_nonempty; assumption.
Qed.

Lemma findFieldBySeriesAndName_nonempty (ss : list DataFrame) (sn fn : string)
    (r : list JS.number) :
  DataFieldProcessor.findFieldBySeriesAndName ss sn fn = Some r -> r <> [].
Proof.
  induction ss as [|s ss IH]; simpl; [discriminate|].
  destruct (_ || _)%bool; [|assumption].
  destruct (DataFieldProcessor.findField (fields s) fn) as [fd|]; [|assumption].
  destruct (0 <? length (values fd))%nat eqn:Hl; [|assumption].
  intros [= <-]. apply processFieldValues_nonempty, length_pos_nonempty; assumption.
Qed.

(** Numeric resolution never returns an empty array. *)
Lemma getDataFieldValue_nonempty (data : option PanelData) (f : option DataField)
    (d : JS.number) :
  DataFieldProcessor.getDataFieldValue data f d <> [].
Proof.
  unfold DataFieldProcessor.getDataFieldValue.
  destruct f as [f|]; [|discriminate].
  destruct (sourceType f).
  - destruct (JS.includes _ _); [|discriminate].
    apply map_nonempty, split_nonempty.
  - destruct data as [pd|]; [|discriminate].
    unfold DataFieldProcessor.getFieldFromDataSource.
    destruct (DataFieldProcessor.parseReference (value f)) as [[sn|] fn].
    + destruct (DataFieldProcessor.findFieldBySeriesAndName (series pd) sn fn) eqn:H.
      * eapply findFieldBySeriesAndName_nonempty; eassumption.
      * apply findFieldByName_nonempty.
    + apply findFieldByName_nonempty.
Qed.

(** The text resolvers repeat the two scans over strings. *)
Lemma findFieldByNameAsString_none (nts : JS.number -> string)
    (ss : list DataFrame) (fn : string) (d : string) :
  (forall s, In s ss -> ~ offers fn s) ->
  DataFieldProcessor.findFieldByNameAsString nts ss fn d = [d].
Proof.
  induction ss as [|s ss IH]; simpl; intros H; [reflexivity|].
  assert (IH' := IH (fun s' Hs' => H s' (or_intror Hs'))).
  destruct (DataFieldProcessor.findField (fields s) fn) as [fd|] eqn:Hf; [|assumption].
  destruct (0 <? length (values fd))%nat eqn:Hl; [|assumption].
  exfalso. apply (H s (or_introl eq_refl)). exists fd.
  split; [assumption | apply length_pos_nonempty; assumption].
Qed.

Lemma findFieldByNameAsString_first (nts : JS.number -> string)
    (pre post : list DataFrame) (s : DataFrame) (fn : string) (d : string) (fd : Field) :
  (forall s', In s' pre -> ~ offers fn s') ->
  DataFieldProcessor.findField (fields s) fn = Some fd -> values fd <> [] ->
  DataFieldProcessor.findFieldByNameAsString nts (pre ++ s :: post) fn d
  = DataFieldProcessor.processFieldValuesAsString nts fd.
Proof.
  intros Hpre Hf Hv. induction pre as [|p pre IH]; simpl.
  - rewrite Hf. apply length_pos_nonempty in Hv. rewrite Hv. reflexivity.
  - assert (IH' := IH (fun s' Hs' => Hpre s' (or_intror Hs'))).
    destruct (DataFieldProcessor.findField (fields p) fn) as [fd'|] eqn:Hf'; [|assumption].
    destruct (0 <? length (values fd'))%nat eqn:Hl; [|assumption].
    exfalso. apply (Hpre p (or_introl eq_refl)). exists fd'.
    split; [assumption | apply length_pos_nonempty; assumption].
Qed.

Lemma findFieldByNameAsString_nonempty (nts : JS.number -> string)
    (ss : list DataFrame) (fn : string) (d : string) :
  DataFieldProcessor.findFieldByNameAsString nts ss fn d <> [].
Proof.
  induction ss as [|s ss IH]; simpl; [discriminate|].
  destruct (DataFieldProcessor.findField (fields s) fn) as [fd|]; [|assumption].
  destruct (0 <? length (values fd))%nat eqn:Hl; [|assumption].
  apply map_nonempty, length_pos_nonempty; assumption.
Qed.

Lemma findFieldBySeriesAndNameAsString_none (nts : JS.number -> string)
    (ss : list DataFrame) (sn fn : string) :
  (forall s, In s ss -> seriesMatches sn s -> ~ offers fn s) ->
  DataFieldProcessor.findFieldBySeriesAndNameAsString nts ss sn fn = None.
Proof.
  induction ss as [|s ss IH]; simpl; intros H; [reflexivity|].
  assert (IH' := IH (fun s' Hs' => H s' (or_intror Hs'))).
  destruct (_ || _)%bool eqn:Hm; [|assumption].
  apply seriesMatches_dec in Hm.
  destruct (DataFieldProcessor.findField (fields s) fn) as [fd|] eqn:Hf; [|assumption].
  destruct (0 <? length (values fd))%nat eqn:Hl; [|assumption].
  exfalso. apply (H s (or_introl eq_refl) Hm). exists fd.
  split; [assumption | apply length_pos_nonempty; assumption].
Qed.

Lemma findFieldBySeriesAndNameAsString_first (nts : JS.number -> string)
    (pre post : list DataFrame) (s : DataFrame) (sn fn : string) (fd : Field) :
  (forall s', In s' pre -> seriesMatches sn s' -> ~ offers fn s') ->
  seriesMatches sn s ->
  DataFieldProcessor.findField (fields s) fn = Some fd -> values fd <> [] ->
  DataFieldProcessor.findFieldBySeriesAndNameAsString nts (pre ++ s :: post) sn fn
  = Some (DataFieldProcessor.processFieldValuesAsString nts fd).
Proof.
  intros Hpre Hm Hf Hv. induction pre as [|p pre IH]; simpl.
  - apply seriesMatches_dec in Hm. rewrite Hm, Hf.
    apply length_pos_nonempty in Hv. rewrite Hv. reflexivity.
  - assert (IH' := IH (fun s' Hs' => Hpre s' (or_intror Hs'))).
    destruct (_ || _)%bool eqn:Hm'; [|assumption].
    apply seriesMatches_dec in Hm'.
    destruct (DataFieldProcessor.findField (fields p) fn) as [fd'|] eqn:Hf'; [|assumption].
    destruct (0 <? length (values fd'))%nat eqn:Hl; [|assumption].
    exfalso. apply (Hpre p (or_introl eq_refl) Hm'). exists fd'.
    split; [assumption | apply length_pos_nonempty; assumption].
Qed.

Lemma findFieldBySeriesAndNameAsString_nonempty (nts : JS.number -> string)
    (ss : list DataFrame) (sn fn : string) (r : list string) :
  DataFieldProcessor.findFieldBySeriesAndNameAsString nts ss sn fn = Some r -> r <> [].
Proof.
  induction ss as [|s ss IH]; simpl; [discriminate|].
  destruct (_ || _)%bool; [|assumption].
  destruct (DataFieldProcessor.findField (fields s) fn) as [fd|]; [|assumption].
  destruct (0 <? length (values fd))%nat eqn:Hl; [|assumption].
  intros [= <-]. apply map_nonempty, length_pos_nonempty; assumption.
Qed.

(** The resolver of annotation texts never returns an empty array. *)
Lemma getFieldValueAsString_nonempty (nts : JS.number -> string)
    (data : option PanelData) (f : option DataField) (d : string) :
  DataFieldProcessor.getFieldValueAsString nts data f d <> [].
Proof.
  unfold DataFieldProcessor.getFieldValueAsString.
  destruct f as [f|]; [|discriminate].
  destruct (sourceType f).
  - destruct (JS.includes _ _); [|discriminate].
    apply map_nonempty, split_nonempty.
  - destruct data as [pd|]; [|discriminate].
    unfold DataFieldProcessor.getFieldFromDataSourceAsString.
    destruct (DataFieldProcessor.parseReference (value f)) as [[sn|] fn].
    + destruct (DataFieldProcessor.findFieldBySeriesAndNameAsString nts (series pd) sn fn) eqn:H.
      * eapply findFieldBySeriesAndNameAsString_nonempty; eassumption.
      * apply findFieldByNameAsString_nonempty.
    + apply findFieldByNameAsString_nonempty.
Qed.

(** A reference that names a series for the numeric resolver names the
    same series and field for [getTextFieldFromDataSource]. *)
Lemma parseTextReference_named (v sn fn : string) :
  DataFieldProcessor.parseReference v = (Some sn, fn) ->
  DataFieldProcessor.parseTextReference v = (Some sn, fn).
Proof.
  unfold DataFieldProcessor.parseReference, DataFieldProcessor.parseTextReference.
  destruct (DataFieldProcessor.bracketMatch v) as [[a b]|]; [trivial|].
  unfold DataFieldProcessor.dotMatch, DataFieldProcessor.dotIndexSplit.
  destruct (JS.cut "." v) as [[a b]|]; [|discriminate].
  destruct (JS.isEmpty a); simpl; [discriminate|].
  destruct (JS.isEmpty b || JS.hasLineTerminator b)%bool; [discriminate | trivial].
Qed.

(** [getTextFieldFromDataSource] reads no series but those whose name
    is the one given. *)
Lemma textFieldLoop_named_only (nts : JS.number -> string) (ss : list DataFrame)
    (sn fn d : string) :
  DataFieldProcessor.textFieldLoop nts ss (Some sn) fn d
  = DataFieldProcessor.textFieldLoop nts
      (List.filter (fun s => DataFieldProcessor.opt_is (series_name s) sn) ss) (Some sn) fn d.
Proof.
  induction ss as [|s ss IH]; simpl; [reflexivity|].
  destruct (DataFieldProcessor.opt_is (series_name s) sn) eqn:Hn; simpl.
  - rewrite Hn; simpl. rewrite IH. reflexivity.
  - assumption.
Qed.

Lemma textFieldLoop_absent (nts : JS.number -> string) (ss : list DataFrame)
    (sn fn d : string) :
  (forall s, In s ss -> series_name s = Some sn ->
             DataFieldProcessor.findField (fields s) fn = None) ->
  DataFieldProcessor.textFieldLoop nts ss (Some sn) fn d = [d].
Proof.
  induction ss as [|s ss IH]; simpl; intros H; [reflexivity|].
  assert (IH' := IH (fun s' Hs' => H s' (or_intror Hs'))).
  destruct (DataFieldProcessor.opt_is (series_name s) sn) eqn:Hn; simpl; [|assumption].
  apply opt_is_true in Hn. rewrite (H s (or_introl eq_refl) Hn). assumption.
Qed.

(** C2, as stated, fails: the reference [Nav.PosX] names the series
    [Nav]; no series has that name or ref-id, and numeric resolution
    returns the column [PosX] of the series [Other] instead of the
    default. *)
Lemma series_reference_falls_back :
  DataFieldProcessor.parseReference "Nav.PosX" = (Some "Nav", "PosX") /\
  (forall s, In s otherSeries -> ~ seriesMatches "Nav" s) /\
  DataFieldProcessor.getDataFieldValue (Some {| series := otherSeries |})
    (Some (telemetryField "Nav.PosX")) (JS.Fin 0) = [JS.Fin 7] /\
  [JS.Fin 7] <> [JS.Fin 0].
Proof.
  split; [reflexivity|]. split.
  - intros s [<-|[]] [H|H]; discriminate.
  - split; [reflexivity | discriminate].
Qed.

(** C2, amended.  For a telemetry-bound field whose value names a
    series [sn] and a field [fn]:
    - numeric resolution and the text resolution of annotations return
      the column of the first series, in order, whose name or ref-id is
      [sn] and which offers [fn];
    - when no such series offers [fn], they resolve the bare name [fn]
      over all series: the column of the first series that offers it,
      and [[default]] only when no series does;
    - [getTextDataFieldValue] reads only the series named [sn], does
      not fall back, and yields [[default]] when none of them has a
      field [fn]. *)
Theorem series_reference_resolution
    (nts : JS.number -> string) (ss : list DataFrame) (f : DataField)
    (sn fn : string) (d : JS.number) (dt : string) :
  sourceType f = field ->
  DataFieldProcessor.parseReference (value f) = (Some sn, fn) ->
  let data := Some {| series := ss |} in
  (forall pre s post fd,
      ss = (pre ++ s :: post)%list ->
      (forall s', In s' pre -> seriesMatches sn s' -> ~ offers fn s') ->
      seriesMatches sn s ->
      DataFieldProcessor.findField (fields s) fn = Some fd -> values fd <> [] ->
      DataFieldProcessor.getDataFieldValue data (Some f) d
      = DataFieldProcessor.processFieldValues fd /\
      DataFieldProcessor.getFieldValueAsString nts data (Some f) dt
      = DataFieldProcessor.processFieldValuesAsString nts fd) /\
  ((forall s, In s ss -> seriesMatches sn s -> ~ offers fn s) ->
      (forall pre s post fd,
          ss = (pre ++ s :: post)%list ->
          (forall s', In s' pre -> ~ offers fn s') ->
          DataFieldProcessor.findField (fields s) fn = Some fd -> values fd <> [] ->
          DataFieldProcessor.getDataFieldValue data (Some f) d
          = DataFieldProcessor.processFieldValues fd /\
          DataFieldProcessor.getFieldValueAsString nts data (Some f) dt
          = DataFieldProcessor.processFieldValuesAsString nts fd) /\
      ((forall s, In s ss -> ~ offers fn s) ->
          DataFieldProcessor.getDataFieldValue data (Some f) d = [d] /\
          DataFieldProcessor.getFieldValueAsString nts data (Some f) dt = [dt])) /\
  DataFieldProcessor.getTextDataFieldValue nts data (Some f) dt
  = DataFieldProcessor.textFieldLoop nts
      (List.filter (fun s => DataFieldProcessor.opt_is (series_name s) sn) ss)
      (Some sn) fn dt /\
  ((forall s, In s ss -> series_name s = Some sn ->
              DataFieldProcessor.findField (fields s) fn = None) ->
      DataFieldProcessor.getTextDataFieldValue nts data (Some f) dt = [dt]).
Proof.
  intros Hsrc Href data.
  assert (Hnum : DataFieldProcessor.getDataFieldValue data (Some f) d =
                 match DataFieldProcessor.findFieldBySeriesAndName ss sn fn with
                 | Some r => r
                 | None => DataFieldProcessor.findFieldByName ss fn d
                 end).
  { unfold DataFieldProcessor.getDataFieldValue, data. rewrite Hsrc.
    unfold DataFieldProcessor.getFieldFromDataSource. rewrite Href. reflexivity. }
  assert (Htxt : DataFieldProcessor.getFieldValueAsString nts data (Some f) dt =
                 match DataFieldProcessor.findFieldBySeriesAndNameAsString nts ss sn fn with
                 | Some r => r
                 | None => DataFieldProcessor.findFieldByNameAsString nts ss fn dt
                 end).
  { unfold DataFieldProcessor.getFieldValueAsString, data. rewrite Hsrc.
    unfold DataFieldProcessor.getFieldFromDataSourceAsString. rewrite Href. reflexivity. }
  assert (Hloop : DataFieldProcessor.getTextDataFieldValue nts data (Some f) dt =
                  DataFieldProcessor.textFieldLoop nts ss (Some sn) fn dt).
  { unfold DataFieldProcessor.getTextDataFieldValue, data. rewrite Hsrc.
    unfold DataFieldProcessor.getTextFieldFromDataSource.
    rewrite (parseTextReference_named (value f) sn fn Href). reflexivity. }
  split; [|split; [|split]].
  - intros pre s post fd -> Hpre Hm Hf Hv. rewrite Hnum, Htxt.
    rewrite (findFieldBySeriesAndName_first pre post s sn fn fd Hpre Hm Hf Hv).
    rewrite (findFieldBySeriesAndNameAsString_first nts pre post s sn fn fd Hpre Hm Hf Hv).
    split; reflexivity.
  - intros Hnone. rewrite Hnum, Htxt.
    rewrite (findFieldBySeriesAndName_none ss sn fn Hnone).
    rewrite (findFieldBySeriesAndNameAsString_none nts ss sn fn Hnone).
    split.
    + intros pre s post fd -> Hpre Hf Hv.
      rewrite (findFieldByName_first pre post s fn d fd Hpre Hf Hv).
      rewrite (findFieldByNameAsString_first nts pre post s fn dt fd Hpre Hf Hv).
      split; reflexivity.
    + intros Hno. rewrite (findFieldByName_none ss fn d Hno).
      rewrite (findFieldByNameAsString_none nts ss fn dt Hno). split; reflexivity.
  - rewrite Hloop. apply textFieldLoop_named_only.
  - intros Habs. rewrite Hloop. apply textFieldLoop_absent. assumption.
Qed.

(** The reference [Nav.PosX] against the series [Other]: the numeric
    resolver falls back to [Other], [getTextDataFieldValue] does not. *)
Lemma series_reference_resolution_witness :
  sourceType (telemetryField "Nav.PosX") = field /\
  DataFieldProcessor.parseReference (value (telemetryField "Nav.PosX")) = (Some "Nav", "PosX") /\
  DataFieldProcessor.getDataFieldValue (Some {| series := otherSeries |})
    (Some (telemetryField "Nav.PosX")) (JS.Fin 0)
  = DataFieldProcessor.processFieldValues
      {| field_name := "PosX"; values := [JS.VNum (JS.Fin 7)] |} /\
  DataFieldProcessor.getTextDataFieldValue (fun _ => "7") (Some {| series := otherSeries |})
    (Some (telemetryField "Nav.PosX")) "none" = ["none"].
Proof.
  split; [reflexivity|]. split; [reflexivity|].
  destruct (series_reference_resolution (fun _ => "7") otherSeries
              (telemetryField "Nav.PosX") "Nav" "PosX" (JS.Fin 0) "none"
              eq_refl eq_refl) as (_ & Hfall & _ & Htext).
  split.
  - refine (proj1 (proj1 (Hfall _) [] _ [] _ eq_refl _ eq_refl _)).
    + intros s [<-|[]] [H|H]; discriminate.
    + intros s' [].
    + discriminate.
  - apply Htext. intros s [<-|[]]; discriminate.
Defined.

(** C3, as stated, fails twice.  In the list ["a,1"] the token [a] does
    not parse to a finite float and resolves to [0] although the
    default is [5]; and a [NaN] held by a telemetry column is returned
    as it is. *)
Lemma unparsable_token_not_default :
  JS.isFinite (JS.parseFloat (JS.trim "a")) = false /\
  DataFieldProcessor.getDataFieldValue None (Some (constField "a,1")) (JS.Fin 5)
  = [JS.Fin 0; JS.Fin 1] /\
  JS.Fin 0 <> JS.Fin 5 /\
  DataFieldProcessor.getDataFieldValue (Some {| series := nanColumn |})
    (Some (telemetryField "X")) (JS.Fin 5) = [JS.NaN] /\
  JS.NaN <> JS.Fin 5.
Proof. repeat split; try reflexivity; discriminate. Qed.

(** C3, amended.  A const-source field whose value holds no comma
    resolves to [[default]] when the value does not parse to a finite
    float, silently, and to the parsed number otherwise.  In
    telemetry-bound numeric resolution a number of the column is
    returned as it is, finite or not, a string that does not parse
    becomes [0], as does a value that is neither a number nor a string;
    a non-finite value is replaced by the default by last-value
    selection only, which returns a finite number or the default. *)
Theorem unparsable_values_resolution
    (data : option PanelData) (v : string) (d : JS.number) :
  JS.includes "," (JS.str_or v "0") = false ->
  (JS.isFinite (JS.parseFloat (JS.str_or v "0")) = false ->
     DataFieldProcessor.getDataFieldValue data (Some (constField v)) d = [d] /\
     DataFieldProcessor.getLastDataFieldValue_console data (Some (constField v)) d
     = (d, if JS.isFinite d then [] else [DataFieldProcessor.invalidValueWarning (Some (constField v))])) /\
  (JS.isFinite (JS.parseFloat (JS.str_or v "0")) = true ->
     DataFieldProcessor.getDataFieldValue data (Some (constField v)) d
     = [JS.parseFloat (JS.str_or v "0")]) /\
  (forall (fd : Field) (i : nat),
     match List.nth_error (values fd) i with
     | Some (JS.VNum n) =>
         List.nth_error (DataFieldProcessor.processFieldValues fd) i = Some n
     | Some (JS.VStr s) =>
         List.nth_error (DataFieldProcessor.processFieldValues fd) i
         = Some (if JS.isNaN (JS.parseFloat s) then JS.Fin 0 else JS.parseFloat s)
     | Some _ =>
         List.nth_error (DataFieldProcessor.processFieldValues fd) i = Some (JS.Fin 0)
     | None => List.nth_error (DataFieldProcessor.processFieldValues fd) i = None
     end) /\
  (forall f : option DataField,
     JS.isFinite (DataFieldProcessor.getLastDataFieldValue data f d) = true \/
     DataFieldProcessor.getLastDataFieldValue data f d = d).
Proof.
  intros Hcomma. split; [|split; [|split]].
  - intros Hnf.
    assert (Hv : DataFieldProcessor.getDataFieldValue data (Some (constField v)) d = [d]).
    { unfold DataFieldProcessor.getDataFieldValue; simpl. rewrite Hcomma, Hnf. reflexivity. }
    split; [assumption|].
    unfold DataFieldProcessor.getLastDataFieldValue_console,
      DataFieldProcessor.lastElement.
    rewrite Hv. simpl. destruct (JS.isFinite d); reflexivity.
  - intros Hfin. unfold DataFieldProcessor.getDataFieldValue; simpl.
    rewrite Hcomma, Hfin. reflexivity.
  - intros fd i. unfold DataFieldProcessor.processFieldValues.
    rewrite nth_error_map.
    destruct (List.nth_error (values fd) i) as [[n|s|b| |]|]; reflexivity.
  - intros f. unfold DataFieldProcessor.getLastDataFieldValue,
      DataFieldProcessor.getLastDataFieldValue_console.
    destruct (JS.isFinite (DataFieldProcessor.lastElement _)) eqn:Hl; simpl.
    + left; assumption.
    + right; reflexivity.
Qed.

(** The const value [abc] with default [5]. *)
Lemma unparsable_values_resolution_witness :
  JS.includes "," (JS.str_or "abc" "0") = false /\
  JS.isFinite (JS.parseFloat (JS.str_or "abc" "0")) = false /\
  DataFieldProcessor.getDataFieldValue None (Some (constField "abc")) (JS.Fin 5) = [JS.Fin 5].
Proof.
  split; [reflexivity|]. split; [reflexivity|].
  exact (proj1 (proj1 (unparsable_values_resolution None "abc" (JS.Fin 5) eq_refl) eq_refl)).
Defined.

(** The numeric part of C6: a reference that no series offers, after
    the scan of all series, resolves to [[default]]. *)
Lemma getDataFieldValue_no_match (ss : list DataFrame) (f : DataField) (d : JS.number) :
  sourceType f = field ->
  (forall s, In s ss -> ~ offers (snd (DataFieldProcessor.parseReference (value f))) s) ->
  DataFieldProcessor.getDataFieldValue (Some {| series := ss |}) (Some f) d = [d].
Proof.
  intros Hsrc Hno. unfold DataFieldProcessor.getDataFieldValue. rewrite Hsrc.
  unfold DataFieldProcessor.getFieldFromDataSource.
  destruct (DataFieldProcessor.parseReference (value f)) as [[sn|] fn]; simpl in *.
  - rewrite (findFieldBySeriesAndName_none ss sn fn) by (intros s Hs _; apply Hno; assumption).
    apply findFieldByName_none; assumption.
  - apply findFieldByName_none; assumption.
Qed.

Lemma getFieldValueAsString_no_match (nts : JS.number -> string)
    (ss : list DataFrame) (f : DataField) (d : string) :
  sourceType f = field ->
  (forall s, In s ss -> ~ offers (snd (DataFieldProcessor.parseReference (value f))) s) ->
  DataFieldProcessor.getFieldValueAsString nts (Some {| series := ss |}) (Some f) d = [d].
Proof.
  intros Hsrc Hno. unfold DataFieldProcessor.getFieldValueAsString. rewrite Hsrc.
  unfold DataFieldProcessor.getFieldFromDataSourceAsString.
  destruct (DataFieldProcessor.parseReference (value f)) as [[sn|] fn]; simpl in *.
  - rewrite (findFieldBySeriesAndNameAsString_none nts ss sn fn)
      by (intros s Hs _; apply Hno; assumption).
    apply findFieldByNameAsString_none; assumption.
  - apply findFieldByNameAsString_none; assumption.
Qed.

(** C6 on [getTextDataFieldValue]: the bare reference [State] against a
    series whose column [State] holds no value.  No series offers the
    field, yet the result is the empty array, neither of length one nor
    [[default]]; on the same input the numeric resolver and the
    resolver of annotation texts return [[default]]. *)
Theorem text_resolution_of_empty_column (nts : JS.number -> string) (dt : string) :
  (forall s, In s emptyColumn -> ~ offers "State" s) /\
  DataFieldProcessor.getTextDataFieldValue nts (Some {| series := emptyColumn |})
    (Some (telemetryField "State")) dt = [] /\
  DataFieldProcessor.getFieldValueAsString nts (Some {| series := emptyColumn |})
    (Some (telemetryField "State")) dt = [dt] /\
  DataFieldProcessor.getDataFieldValue (Some {| series := emptyColumn |})
    (Some (telemetryField "State")) (JS.Fin 0) = [JS.Fin 0].
Proof.
  split.
  - intros s [<-|[]] (fd & Hf & Hv). simpl in Hf. injection Hf as <-. apply Hv. reflexivity.
  - repeat split; reflexivity.
Qed.

(** C7.  The array returned by [getDataFieldValue] has a last element;
    [getLastDataFieldValue] returns it when it is finite, and returns
    the default, with one warning on the console, when it is not. *)
Theorem last_value_selection
    (data : option PanelData) (f : option DataField) (d : JS.number) :
  exists (init : list JS.number) (lastValue : JS.number),
    DataFieldProcessor.getDataFieldValue data f d = (init ++ [lastValue])%list /\
    DataFieldProcessor.getLastDataFieldValue_console data f d
    = (if JS.isFinite lastValue then (lastValue, [])
       else (d, [DataFieldProcessor.invalidValueWarning f])) /\
    DataFieldProcessor.getLastDataFieldValue data f d
    = (if JS.isFinite lastValue then lastValue else d).
Proof.
  destruct (exists_last (getDataFieldValue_nonempty data f d)) as (init & lastValue & Heq).
  exists init, lastValue. split; [assumption|].
  unfold DataFieldProcessor.getLastDataFieldValue,
    DataFieldProcessor.getLastDataFieldValue_console, DataFieldProcessor.lastElement.
  rewrite Heq, last_last.
  destruct (JS.isFinite lastValue); split; reflexivity.
Qed.

(** C8.  The const value ["1,2,3"] resolves to [[1, 2, 3]] as numbers
    and to [["1", "2", "3"]] as text, with either text resolver,
    whatever the telemetry and the default. *)
Theorem const_list_resolution
    (nts : JS.number -> string) (data : option PanelData) (d : JS.number) (dt : string) :
  DataFieldProcessor.getDataFieldValue data (Some (constField "1,2,3")) d
  = [JS.Fin 1; JS.Fin 2; JS.Fin 3] /\
  DataFieldProcessor.getFieldValueAsString nts data (Some (constField "1,2,3")) dt
  = ["1"; "2"; "3"] /\
  DataFieldProcessor.getTextDataFieldValue nts data (Some (constField "1,2,3")) dt
  = ["1"; "2"; "3"].
Proof. repeat split; reflexivity. Qed.

(* ================================================================== *)
(** * Properties of the camera axis presets                             *)
(* ================================================================== *)

Local Open Scope Q_scope.

Lemma displaced_add (t : JS.number) :
  JS.isNaN t = false -> displaced t (JS.add t CameraAxisEditor.fixedDistance) 100.
Proof.
  destruct t as [q| | |]; intros H; try discriminate H; try reflexivity.
  unfold displaced, JS.add, CameraAxisEditor.fixedDistance.
  eexists; split; [reflexivity|]. apply Qred_correct.
Qed.

Lemma displaced_sub (t : JS.number) :
  JS.isNaN t = false -> displaced t (JS.sub t CameraAxisEditor.fixedDistance) (-100).
Proof.
  destruct t as [q| | |]; intros H; try discriminate H; try reflexivity.
  unfold displaced, JS.sub, JS.add, JS.neg, CameraAxisEditor.fixedDistance.
  eexists; split; [reflexivity|]. rewrite !Qred_correct. reflexivity.
Qed.

Lemma num_or_not_NaN (x : JS.number) : JS.isNaN (JS.num_or x (JS.Fin 0)) = false.
Proof.
  destruct x as [q| | |]; try reflexivity.
  unfold JS.num_or, JS.truthy. destruct (negb (Qeq_bool q 0)); reflexivity.
Qed.

Lemma designated_spec (options : option SimpleOptions) :
  let tid := JS.str_or
      (match options with
       | Some o => match targetObjectId o with Some t => t | None => "" end
       | None => ""
       end) "origin"%string in
  match designated options with
  | Some t => tid = t /\ String.eqb t "origin" = false
  | None => tid = "origin"%string
  end.
Proof.
  unfold designated. destruct options as [o|]; [|reflexivity].
  destruct (targetObjectId o) as [t|]; [|reflexivity].
  destruct (String.eqb t "") eqn:Hempty.
  - apply String.eqb_eq in Hempty. subst t. reflexivity.
  - assert (Hs : JS.str_or t "origin" = t).
    { destruct t; [discriminate Hempty | reflexivity]. }
    cbv zeta. rewrite Hs. simpl orb.
    destruct (String.eqb t "origin") eqn:He.
    + apply String.eqb_eq in He. assumption.
    + split; [reflexivity | assumption].
Qed.

(** The target position is never [NaN]. *)
Lemma targetPosition_not_NaN (options : option SimpleOptions) :
  let '(tx, ty, tz) := CameraAxisEditor.targetPosition options in
  JS.isNaN tx = false /\ JS.isNaN ty = false /\ JS.isNaN tz = false.
Proof.
  unfold CameraAxisEditor.targetPosition.
  destruct (negb _); [|repeat split].
  destruct (CameraAxisEditor.findObject _ _) as [obj|]; [|repeat split].
  destruct (posX obj) as [px|]; [|repeat split].
  destruct (posY obj) as [py|]; [|repeat split].
  destruct (posZ obj) as [pz|]; [|repeat split].
  destruct (sourceType px); repeat split; apply num_or_not_NaN.
Qed.


(* ================================================================== *)
(** * Properties of the bounds estimator                                *)
(* ================================================================== *)

Lemma extendAll_app (mm : JS.number * JS.number) (xs ys : list JS.number) :
  BoundsCalculator.extendAll mm (xs ++ ys)
  = BoundsCalculator.extendAll (BoundsCalculator.extendAll mm xs) ys.
Proof. unfold BoundsCalculator.extendAll. apply fold_left_app. Qed.

Lemma visit_axis (data : option PanelData) (a : Axis)
    (acc : BoundsCalculator.Limits) (sh : Shape) :
  boundsOn a (BoundsCalculator.visit data acc sh)
  = BoundsCalculator.extendAll (boundsOn a acc) (contribution data a sh).
Proof.
  unfold BoundsCalculator.visit, contribution.
  destruct (visible (base sh)); simpl negb; cbv iota; [|destruct a; reflexivity].
  destruct sh as [b s|b s|b p|b s];
    repeat match goal with
           | |- context [let (_, _) := ?e in _] => destruct e eqn:?
           end;
    destruct a; simpl in *; congruence.
Qed.

Lemma fold_visit_axis (data : option PanelData) (a : Axis) (objs : list Shape)
    (acc : BoundsCalculator.Limits) :
  boundsOn a (List.fold_left (BoundsCalculator.visit data) objs acc)
  = BoundsCalculator.extendAll (boundsOn a acc) (contributions data a objs).
Proof.
  revert acc. induction objs as [|sh objs IH]; intros acc; simpl; [reflexivity|].
  rewrite IH, visit_axis. unfold contributions. simpl.
  rewrite extendAll_app. reflexivity.
Qed.

Lemma limits_axis (data : option PanelData) (a : Axis) (objs : list Shape) :
  boundsOn a (BoundsCalculator.calculateAutoScaleLimits data objs)
  = BoundsCalculator.pad
      (BoundsCalculator.extendAll (JS.PInf, JS.NInf) (contributions data a objs)).
Proof.
  unfold BoundsCalculator.calculateAutoScaleLimits.
  pose proof (fold_visit_axis data a objs BoundsCalculator.initial) as Ha.
  replace (boundsOn a BoundsCalculator.initial) with (JS.PInf, JS.NInf) in Ha
    by (destruct a; reflexivity).
  rewrite <- Ha. clear Ha.
  set (acc := List.fold_left (BoundsCalculator.visit data) objs BoundsCalculator.initial).
  destruct (BoundsCalculator.pad (BoundsCalculator.minX acc, BoundsCalculator.maxX acc)) eqn:Hx.
  destruct (BoundsCalculator.pad (BoundsCalculator.minY acc, BoundsCalculator.maxY acc)) eqn:Hy.
  destruct (BoundsCalculator.pad (BoundsCalculator.minZ acc, BoundsCalculator.maxZ acc)) eqn:Hz.
  destruct a; unfold boundsOn; cbn [BoundsCalculator.minX BoundsCalculator.maxX
    BoundsCalculator.minY BoundsCalculator.maxY BoundsCalculator.minZ BoundsCalculator.maxZ];
    symmetry; assumption.
Qed.

Lemma poisoned_extend (mm : JS.number * JS.number) (v : JS.number) :
  poisoned mm -> poisoned (BoundsCalculator.extend mm v).
Proof.
  destruct mm as [a b]. unfold poisoned, BoundsCalculator.extend; simpl.
  intros [ -> | [ -> | [ -> | -> ] ] ]; destruct v; simpl; auto; destruct a; simpl; auto;
    destruct b; simpl; auto;
    repeat match goal with |- context [if ?c then _ else _] => destruct c end; auto.
Qed.

Lemma extend_not_finite (mm : JS.number * JS.number) (v : JS.number) :
  JS.isFinite v = false -> poisoned (BoundsCalculator.extend mm v).
Proof.
  destruct mm as [a b]. unfold poisoned, BoundsCalculator.extend; simpl.
  destruct v; try discriminate; intros _; destruct a; destruct b; simpl; auto.
Qed.

Lemma Qle_bool_false (a b : Q) : Qle_bool a b = false -> b < a.
Proof.
  intros H. apply Qnot_le_lt. intros Hc.
  apply (proj2 (Qle_bool_iff a b)) in Hc. congruence.
Qed.

Lemma extendAll_summary (cs : list JS.number) :
  summary cs (BoundsCalculator.extendAll (JS.PInf, JS.NInf) cs).
Proof.
  induction cs as [|v cs IH] using rev_ind.
  - apply summary_empty. reflexivity.
  - rewrite extendAll_app. simpl.
    destruct (JS.isFinite v) eqn:Hv.
    + destruct v as [q| | |]; try discriminate.
      inversion IH as [He|lo hi Hall Hlo Hhi Hb|mm [c [Hc Hcf]] Hp].
      * subst cs. simpl. apply summary_finite.
        -- intros c [<-|[]]. reflexivity.
        -- left; reflexivity.
        -- left; reflexivity.
        -- intros q' [[= <-]|[]]. split; apply Qle_refl.
      * unfold BoundsCalculator.extend; simpl.
        assert (Hin : forall c, In c (cs ++ [JS.Fin q]) -> JS.isFinite c = true).
        { intros c Hc. apply in_app_or in Hc. destruct Hc as [Hc|[<-|[]]]; auto. }
        destruct (Qle_bool lo q) eqn:H1; destruct (Qle_bool hi q) eqn:H2;
          try (apply Qle_bool_iff in H1); try (apply Qle_bool_iff in H2);
          try (apply Qle_bool_false in H1); try (apply Qle_bool_false in H2);
          apply summary_finite; try assumption;
          try (apply in_or_app; left; assumption);
          try (apply in_or_app; right; left; reflexivity);
          intros q' Hq'; apply in_app_or in Hq';
          (destruct Hq' as [Hq'|[[= <-]|[]]];
           [destruct (Hb q' Hq'); split; Lqa.lra | split; Lqa.lra]).
      * apply summary_poisoned.
        -- exists c. split; [apply in_or_app; left; assumption | assumption].
        -- apply poisoned_extend. assumption.
    + apply summary_poisoned.
      * exists v. split; [apply in_or_app; right; left; reflexivity | assumption].
      * apply extend_not_finite. assumption.
Qed.

Lemma pad_poisoned (mm : JS.number * JS.number) :
  poisoned mm -> BoundsCalculator.pad mm = (JS.Fin (-50), JS.Fin 50).
Proof.
  destruct mm as [a b]. unfold poisoned, BoundsCalculator.pad; simpl fst; simpl snd.
  intros [ -> | [ -> | [ -> | -> ] ] ]; try reflexivity;
    destruct (JS.isFinite a); reflexivity.
Qed.

Lemma pad_finite (lo hi : Q) :
  lo <= hi ->
  widened lo hi (BoundsCalculator.pad (JS.Fin lo, JS.Fin hi)) /\
  exists mn mx,
    BoundsCalculator.pad (JS.Fin lo, JS.Fin hi) = (JS.Fin mn, JS.Fin mx) /\ mn < mx.
Proof.
  intros Hle.
  unfold BoundsCalculator.pad, JS.isFinite, andb, JS.sub, JS.neg, JS.add, JS.num_or, JS.truthy.
  assert (Hr : Qred (hi + Qred (- lo)) == hi - lo) by (rewrite !Qred_correct; reflexivity).
  destruct (Qeq_bool (Qred (hi + Qred (- lo))) 0) eqn:Hz;
    unfold negb, JS.mul, JS.add, JS.neg.
  - apply Qeq_bool_iff in Hz. rewrite Hr in Hz.
    assert (Hz' : Qeq_bool (hi - lo) 0 = true) by (apply Qeq_bool_iff; assumption).
    split.
    + eexists; eexists; split; [reflexivity|]. cbv zeta. rewrite Hz'.
      rewrite !Qred_correct. split; reflexivity.
    + eexists; eexists; split; [reflexivity|]. rewrite !Qred_correct. Lqa.lra.
  - apply Qeq_bool_neq in Hz. rewrite Hr in Hz.
    assert (Hz' : Qeq_bool (hi - lo) 0 = false).
    { destruct (Qeq_bool (hi - lo) 0) eqn:E; [|reflexivity].
      apply Qeq_bool_iff in E. contradiction. }
    split.
    + eexists; eexists; split; [reflexivity|]. cbv zeta. rewrite Hz'.
      rewrite !Qred_correct. split; reflexivity.
    + eexists; eexists; split; [reflexivity|]. rewrite !Qred_correct.
      assert (lo < hi) by (apply Qle_lteq in Hle; destruct Hle as [?|He];
        [assumption | exfalso; apply Hz; rewrite He; Lqa.lra]).
      Lqa.lra.
Qed.

(** The limits on one axis, from the contributions to that axis. *)
Lemma axis_limits_of_contributions (cs : list JS.number) :
  axis_limits cs (BoundsCalculator.pad (BoundsCalculator.extendAll (JS.PInf, JS.NInf) cs)) /\
  exists lo hi,
    BoundsCalculator.pad (BoundsCalculator.extendAll (JS.PInf, JS.NInf) cs)
    = (JS.Fin lo, JS.Fin hi) /\ lo < hi.
Proof.
  pose proof (extendAll_summary cs) as Hs.
  inversion Hs as [He|lo hi Hall Hlo Hhi Hb|mm [c [Hc Hcf]] Hp].
  - subst cs. split.
    + unfold axis_limits. split; [|split].
      * intros _. reflexivity.
      * intros [c [[] _]].
      * intros Hne. contradiction Hne. reflexivity.
    + exists (-50), 50. split; reflexivity.
  - assert (Hle : lo <= hi) by (destruct (Hb lo Hlo); assumption).
    destruct (pad_finite lo hi Hle) as [Hw Hlt].
    split; [|exact Hlt].
    unfold axis_limits. split; [|split].
    + intros Hnf. specialize (Hnf _ Hlo). discriminate.
    + intros [c [Hc Hcf]]. rewrite (Hall c Hc) in Hcf. discriminate.
    + intros _ _. exists lo, hi. repeat split; try assumption; apply Hb; assumption.
  - rewrite (pad_poisoned _ Hp). split.
    + unfold axis_limits. split; [|split].
      * intros _. reflexivity.
      * intros _. reflexivity.
      * intros _ Hall. rewrite (Hall c Hc) in Hcf. discriminate.
    + exists (-50), 50. split; reflexivity.
Qed.

Lemma visit_invisible (data : option PanelData) (acc : BoundsCalculator.Limits) (sh : Shape) :
  visible (base sh) = false -> BoundsCalculator.visit data acc sh = acc.
Proof. intros H. unfold BoundsCalculator.visit. rewrite H. reflexivity. Qed.

Lemma fold_visit_visible (data : option PanelData) (objs : list Shape)
    (acc : BoundsCalculator.Limits) :
  List.fold_left (BoundsCalculator.visit data) objs acc
  = List.fold_left (BoundsCalculator.visit data)
      (List.filter (fun sh => visible (base sh)) objs) acc.
Proof.
  revert acc. induction objs as [|sh objs IH]; intros acc; simpl; [reflexivity|].
  destruct (visible (base sh)) eqn:Hv; simpl.
  - apply IH.
  - rewrite (visit_invisible data acc sh Hv). apply IH.
Qed.


(* ================================================================== *)
(** * Properties of the view-angle scaling                              *)
(* ================================================================== *)

Local Open Scope R_scope.

Lemma distance_origin_0 : VAS.distanceTo (vec 0 0 0) (vec 0 0 0) = 0.
Proof.
  unfold VAS.distanceTo; simpl.
  replace ((0 - 0) * (0 - 0) + (0 - 0) * (0 - 0) + (0 - 0) * (0 - 0)) with 0 by ring.
  apply sqrt_0.
Qed.

Lemma distance_axis (d : R) : 0 <= d -> VAS.distanceTo (vec d 0 0) (vec 0 0 0) = d.
Proof.
  intros Hd. unfold VAS.distanceTo; simpl.
  replace ((d - 0) * (d - 0) + (0 - 0) * (0 - 0) + (0 - 0) * (0 - 0)) with (Rsqr d)
    by (unfold Rsqr; ring).
  apply sqrt_Rsqr. assumption.
Qed.

Lemma xdiv_nonzero (a b : R) : b <> 0 -> VAS.xdiv a b = VAS.Num (a / b).
Proof.
  intros Hb. unfold VAS.xdiv. destruct (Req_dec_T b 0); [contradiction | reflexivity].
Qed.

Lemma clamp_Num (v lo hi : R) :
  VAS.clamp (VAS.Num v) lo hi = VAS.Num (Rmax lo (Rmin hi v)).
Proof. reflexivity. Qed.

Lemma clamp_monotone (lo hi u v : R) :
  u <= v -> Rmax lo (Rmin hi u) <= Rmax lo (Rmin hi v).
Proof.
  intros H. unfold Rmax, Rmin.
  destruct (Rle_dec hi u), (Rle_dec hi v);
    repeat match goal with |- context [Rle_dec ?a ?b] => destruct (Rle_dec a b) end; Lra.lra.
Qed.

Lemma clamp_range (lo hi v : R) :
  lo <= hi -> lo <= Rmax lo (Rmin hi v) <= hi.
Proof.
  intros H. unfold Rmax, Rmin.
  destruct (Rle_dec hi v);
    repeat match goal with |- context [Rle_dec ?a ?b] => destruct (Rle_dec a b) end; Lra.lra.
Qed.

Lemma clamp_lower (lo hi v : R) : lo <= Rmax lo (Rmin hi v).
Proof. apply Rmax_l. Qed.

Lemma getObjectSize_cached (o : VAS.Object3D) (s : R) :
  VAS.originalSize (VAS.userData o) = Some s -> s <> 0 ->
  VAS.getObjectSize o = (s, o).
Proof.
  intros H Hs. unfold VAS.getObjectSize. rewrite H.
  destruct (Req_dec_T s 0); [contradiction | reflexivity].
Qed.

Lemma getObjectSize_measured (o : VAS.Object3D) :
  VAS.originalSize (VAS.userData o) = None \/ VAS.originalSize (VAS.userData o) = Some 0 ->
  VAS.getObjectSize o = (VAS.maxDimension o, VAS.set_originalSize o (VAS.maxDimension o)).
Proof.
  intros [H|H]; unfold VAS.getObjectSize; rewrite H; [reflexivity|].
  destruct (Req_dec_T 0 0) as [_|Hn]; [reflexivity | contradiction Hn; reflexivity].
Qed.

Lemma calculate_enabled (o : VAS.Object3D) (camera : VAS.Camera)
    (config : VAS.ViewAngleScalingConfig) :
  VAS.enabled config = true ->
  VAS.distanceTo (VAS.camera_position camera) (VAS.position o) <> 0 ->
  VAS.calculateViewBasedScale o camera config
  = (VAS.clamp
       (VAS.xdiv (2 * VAS.distanceTo (VAS.camera_position camera) (VAS.position o)
                  * tan (VAS.targetAngularSize config / 2)) (entitySize o))
       (VAS.minSize config) (VAS.maxSize config),
     snd (VAS.getObjectSize o)).
Proof.
  intros He Hd. unfold VAS.calculateViewBasedScale, entitySize. rewrite He. simpl negb. cbv iota.
  destruct (Req_dec_T _ 0) as [H0|_]; [contradiction|].
  destruct (VAS.getObjectSize o) as [s o']. reflexivity.
Qed.

Lemma calculate_unit (o : VAS.Object3D) (camera : VAS.Camera)
    (config : VAS.ViewAngleScalingConfig) :
  VAS.enabled config = false \/
  VAS.distanceTo (VAS.camera_position camera) (VAS.position o) = 0 ->
  VAS.calculateViewBasedScale o camera config = (VAS.Num 1, o).
Proof.
  intros H. unfold VAS.calculateViewBasedScale.
  destruct (VAS.enabled config); simpl; [|reflexivity].
  destruct H as [H|H]; [discriminate|].
  destruct (Req_dec_T _ 0) as [_|Hn]; [reflexivity | contradiction].
Qed.

Lemma xor_default_Num (r : R) (d : VAS.xreal) :
  VAS.xor_default (Some (VAS.Num r)) d = if Req_dec_T r 0 then d else VAS.Num r.
Proof. reflexivity. Qed.

(** The scale at distance [1] of an entity of cached size [2], under
    the configuration [(0.02, 0.1, 10)]: a real no smaller than [0.1]. *)
Lemma scale_at_distance_1 (aspect : option VAS.xreal) :
  exists c, 1 / 10 <= c /\
    VAS.calculateViewBasedScale (entity 2 aspect) (cameraAt 1 0 0)
      (configOf (2 / 100) (1 / 10) 10)
    = (VAS.Num c, entity 2 aspect).
Proof.
  exists (Rmax (1 / 10) (Rmin 10 (2 * 1 * tan (2 / 100 / 2) / 2))).
  split; [apply Rmax_l|].
  rewrite calculate_enabled.
  - unfold entitySize. rewrite (getObjectSize_cached (entity 2 aspect) 2 eq_refl) by Lra.lra.
    simpl fst; simpl snd. rewrite xdiv_nonzero by Lra.lra.
    unfold cameraAt, entity; simpl VAS.camera_position; simpl VAS.position.
    rewrite distance_axis by Lra.lra. reflexivity.
  - reflexivity.
  - unfold cameraAt, entity; simpl VAS.camera_position; simpl VAS.position.
    rewrite distance_axis by Lra.lra. Lra.lra.
Qed.

(** C1, as stated, fails on the scale that the per-frame pass
    computes, and on [calculateViewBasedScale] alone.
    - With the camera on the entity (distance zero) and an aspect ratio
      of [2], the pass obtains [2], not [1.0].
    - With an aspect ratio of [0], the pass multiplies by [1] where the
      statement has [clamp(0, 0.5, 2.0) = 0.5].
    - At distance [1] with an aspect ratio of [2],
      [calculateViewBasedScale] returns the clamped scale without the
      aspect-ratio factor. *)
Lemma scale_not_as_specified :
  let config := configOf (2 / 100) (1 / 10) 10 in
  (fst (VAS.adjustedScale (entity 2 (Some (VAS.Num 2))) (cameraAt 0 0 0) config) = VAS.Num 2 /\
   VAS.specified_scale (entity 2 (Some (VAS.Num 2))) (cameraAt 0 0 0) config = VAS.Num 1) /\
  fst (VAS.adjustedScale (entity 2 (Some (VAS.Num 0))) (cameraAt 1 0 0) config)
  <> VAS.specified_scale (entity 2 (Some (VAS.Num 0))) (cameraAt 1 0 0) config /\
  fst (VAS.calculateViewBasedScale (entity 2 (Some (VAS.Num 2))) (cameraAt 1 0 0) config)
  <> VAS.specified_scale (entity 2 (Some (VAS.Num 2))) (cameraAt 1 0 0) config.
Proof.
  intros config0. set (config := configOf (2 / 100) (1 / 10) 10) in *.
  subst config0. unfold config. clear config.
  set (config := configOf (2 / 100) (1 / 10) 10).
  assert (Hspec : forall aspect,
    VAS.specified_scale (entity 2 aspect) (cameraAt 1 0 0) config
    = VAS.xmul (fst (VAS.calculateViewBasedScale (entity 2 aspect) (cameraAt 1 0 0) config))
        (VAS.clamp (VAS.nullish aspect (VAS.Num 1)) (1 / 2) 2)).
  { intros aspect. rewrite calculate_enabled.
    - unfold VAS.specified_scale, entitySize. simpl VAS.enabled. simpl negb. cbv iota.
      destruct (Req_dec_T _ 0) as [H0|_]; [|reflexivity].
      exfalso. revert H0. unfold cameraAt, entity; simpl VAS.camera_position; simpl VAS.position.
      rewrite distance_axis by Lra.lra. Lra.lra.
    - reflexivity.
    - unfold cameraAt, entity; simpl VAS.camera_position; simpl VAS.position.
      rewrite distance_axis by Lra.lra. Lra.lra. }
  split; [split|split].
  - unfold VAS.adjustedScale. rewrite calculate_unit by (right; apply distance_origin_0).
    unfold VAS.applyShapeAdjustment, entity; simpl VAS.aspectRatio.
    rewrite xor_default_Num. destruct (Req_dec_T 2 0); [Lra.lra|].
    simpl. f_equal. Rminmax.
  - unfold VAS.specified_scale. simpl VAS.enabled. simpl negb. cbv iota.
    destruct (Req_dec_T _ 0) as [_|Hn]; [reflexivity|].
    contradiction Hn. apply distance_origin_0.
  - rewrite Hspec. unfold VAS.adjustedScale.
    destruct (scale_at_distance_1 (Some (VAS.Num 0))) as (c & Hc & Heq).
    fold config in Heq. rewrite Heq. simpl fst.
    unfold VAS.applyShapeAdjustment, entity; simpl VAS.aspectRatio.
    destruct (Req_dec_T 0 0) as [_|Hn]; [|contradiction Hn; reflexivity].
    simpl. intros [= H]. revert H. Rminmax.
  - rewrite Hspec.
    destruct (scale_at_distance_1 (Some (VAS.Num 2))) as (c & Hc & Heq).
    fold config in Heq. rewrite Heq.
    simpl. intros [= H]. revert H. Rminmax.
Qed.

(** The scale that the per-frame pass adjusts: the result of
    [calculateViewBasedScale] times the aspect-ratio factor of the
    entity. *)
Lemma adjustedScale_factor (o : VAS.Object3D) (camera : VAS.Camera)
    (config : VAS.ViewAngleScalingConfig) :
  fst (VAS.adjustedScale o camera config)
  = VAS.xmul (fst (VAS.calculateViewBasedScale o camera config))
      (VAS.clamp (VAS.xor_default (VAS.aspectRatio (VAS.userData o)) (VAS.Num 1)) (1 / 2) 2).
Proof.
  unfold VAS.adjustedScale.
  assert (Ha : VAS.aspectRatio (VAS.userData (snd (VAS.calculateViewBasedScale o camera config)))
               = VAS.aspectRatio (VAS.userData o)).
  { unfold VAS.calculateViewBasedScale.
    destruct (negb (VAS.enabled config)); [reflexivity|].
    destruct (Req_dec_T _ 0); [reflexivity|].
    unfold VAS.getObjectSize.
    destruct (VAS.originalSize (VAS.userData o)) as [s|]; [|reflexivity].
    destruct (Req_dec_T s 0); reflexivity. }
  destruct (VAS.calculateViewBasedScale o camera config) as [s o'].
  simpl in *. unfold VAS.applyShapeAdjustment. rewrite Ha. reflexivity.
Qed.

(** C1, amended.  [calculateViewBasedScale] returns exactly [1.0], and
    leaves the entity as it is, when the configuration is disabled or
    the camera-to-entity distance is exactly zero; otherwise it returns
    [max(minSize, min(maxSize, 2 * distance * tan(targetAngularSize / 2)
    / originalSize))], where [originalSize] is the cached size when
    there is one and it is not zero, and is otherwise the largest
    dimension of the bounding box, which the call caches.  The
    aspect-ratio factor [clamp(aspectRatio || 1.0, 0.5, 2.0)] belongs to
    [applyShapeAdjustment]; the per-frame pass multiplies every result
    of [calculateViewBasedScale] by it, the [1.0] of a zero distance
    included. *)
Theorem view_based_scale_steps (o : VAS.Object3D) (camera : VAS.Camera)
    (config : VAS.ViewAngleScalingConfig) :
  let distance := VAS.distanceTo (VAS.camera_position camera) (VAS.position o) in
  (VAS.enabled config = false \/ distance = 0 ->
     VAS.calculateViewBasedScale o camera config = (VAS.Num 1, o)) /\
  (VAS.enabled config = true -> distance <> 0 ->
     VAS.calculateViewBasedScale o camera config
     = (VAS.clamp
          (VAS.xdiv (2 * distance * tan (VAS.targetAngularSize config / 2)) (entitySize o))
          (VAS.minSize config) (VAS.maxSize config),
        snd (VAS.getObjectSize o))) /\
  (forall s, VAS.originalSize (VAS.userData o) = Some s -> s <> 0 ->
     VAS.getObjectSize o = (s, o)) /\
  (VAS.originalSize (VAS.userData o) = None \/ VAS.originalSize (VAS.userData o) = Some 0 ->
     entitySize o = Rmax (Rmax (VAS.x (VAS.boundingSize o)) (VAS.y (VAS.boundingSize o)))
                         (VAS.z (VAS.boundingSize o)) /\
     VAS.originalSize (VAS.userData (snd (VAS.getObjectSize o))) = Some (entitySize o) /\
     VAS.aspectRatio (VAS.userData (snd (VAS.getObjectSize o))) = VAS.aspectRatio (VAS.userData o)) /\
  (forall baseScale,
     VAS.applyShapeAdjustment o baseScale
     = VAS.xmul baseScale
         (VAS.clamp (VAS.xor_default (VAS.aspectRatio (VAS.userData o)) (VAS.Num 1)) (1 / 2) 2)) /\
  fst (VAS.adjustedScale o camera config)
  = VAS.xmul (fst (VAS.calculateViewBasedScale o camera config))
      (VAS.clamp (VAS.xor_default (VAS.aspectRatio (VAS.userData o)) (VAS.Num 1)) (1 / 2) 2).
Proof.
  intros distance.
  split; [|split; [|split; [|split; [|split]]]].
  - apply calculate_unit.
  - apply calculate_enabled.
  - apply getObjectSize_cached.
  - intros H. unfold entitySize. rewrite (getObjectSize_measured o H).
    repeat split.
  - reflexivity.
  - apply adjustedScale_factor.
Qed.

(** The camera on an entity whose aspect ratio is [2]. *)
Lemma view_based_scale_steps_witness :
  VAS.distanceTo (VAS.camera_position (cameraAt 0 0 0))
                 (VAS.position (entity 2 (Some (VAS.Num 2)))) = 0 /\
  VAS.calculateViewBasedScale (entity 2 (Some (VAS.Num 2))) (cameraAt 0 0 0)
    (configOf (2 / 100) (1 / 10) 10)
  = (VAS.Num 1, entity 2 (Some (VAS.Num 2))).
Proof.
  split; [apply distance_origin_0|].
  apply (proj1 (view_based_scale_steps (entity 2 (Some (VAS.Num 2))) (cameraAt 0 0 0)
                  (configOf (2 / 100) (1 / 10) 10))).
  right. apply distance_origin_0.
Defined.

(** C4, as stated, fails on its second part: with [minSize = 5] above
    [maxSize = 1] the scale is [5] at every distance, outside
    [[minSize, maxSize]]. *)
Lemma scale_outside_inverted_limits :
  let o := entity 1 None in
  let config := configOf 1 5 1 in
  VAS.enabled config = true /\
  0 < VAS.targetAngularSize config < PI /\
  0 < entitySize o /\
  0 < VAS.distanceTo (VAS.camera_position (cameraAt 1 0 0)) (VAS.position o)
    <= VAS.distanceTo (VAS.camera_position (cameraAt 2 0 0)) (VAS.position o) /\
  fst (VAS.calculateViewBasedScale o (cameraAt 1 0 0) config) = VAS.Num 5 /\
  fst (VAS.calculateViewBasedScale o (cameraAt 2 0 0) config) = VAS.Num 5 /\
  ~ (VAS.minSize config <= 5 <= VAS.maxSize config).
Proof.
  intros o config.
  assert (Hs : entitySize o = 1).
  { unfold entitySize, o. rewrite (getObjectSize_cached (entity 1 None) 1 eq_refl) by Lra.lra.
    reflexivity. }
  assert (Hd : forall d, 0 <= d ->
            VAS.distanceTo (VAS.camera_position (cameraAt d 0 0)) (VAS.position o) = d).
  { intros d H. apply distance_axis. assumption. }
  assert (Hc : forall d, 0 < d ->
            fst (VAS.calculateViewBasedScale o (cameraAt d 0 0) config) = VAS.Num 5).
  { intros d H. rewrite calculate_enabled.
    - rewrite Hs, xdiv_nonzero by Lra.lra. rewrite clamp_Num. simpl. f_equal. Rminmax.
    - reflexivity.
    - rewrite Hd by Lra.lra. Lra.lra. }
  split; [reflexivity|]. split.
  - simpl. pose proof PI2_1. Lra.lra.
  - split; [rewrite Hs; Lra.lra|]. split.
    + rewrite !Hd by Lra.lra. Lra.lra.
    + split; [apply Hc; Lra.lra|]. split; [apply Hc; Lra.lra|].
      simpl. Lra.lra.
Qed.

Lemma shapeAdjustment_bounds (aspect : option VAS.xreal) :
  exists a, VAS.clamp (VAS.xor_default aspect (VAS.Num 1)) (1 / 2) 2 = VAS.Num a /\
            1 / 2 <= a <= 2.
Proof.
  destruct aspect as [[r| | |]|]; simpl.
  - destruct (Req_dec_T r 0); simpl; eexists; (split; [reflexivity|]); Rminmax.
  - eexists; split; [reflexivity|]. Rminmax.
  - eexists; split; [reflexivity|]. Rminmax.
  - eexists; split; [reflexivity|]. Rminmax.
  - eexists; split; [reflexivity|]. Rminmax.
Qed.

(** C4, amended.  For an entity of positive size, an enabled
    configuration with a target angular size in (0, pi) and two camera
    distances [0 < d1 <= d2]: the scale at [d1] is at most the scale at
    [d2], for [calculateViewBasedScale] and for the scale adjusted by
    the aspect ratio; the scale is never below [minSize], and is within
    [[minSize, maxSize]] when [minSize <= maxSize]. *)
Theorem scale_monotone_in_distance (o : VAS.Object3D) (c1 c2 : VAS.Camera)
    (config : VAS.ViewAngleScalingConfig) :
  VAS.enabled config = true ->
  0 < VAS.targetAngularSize config < PI ->
  0 < entitySize o ->
  0 < VAS.distanceTo (VAS.camera_position c1) (VAS.position o) ->
  VAS.distanceTo (VAS.camera_position c1) (VAS.position o)
    <= VAS.distanceTo (VAS.camera_position c2) (VAS.position o) ->
  exists r1 r2 a1 a2,
    fst (VAS.calculateViewBasedScale o c1 config) = VAS.Num r1 /\
    fst (VAS.calculateViewBasedScale o c2 config) = VAS.Num r2 /\
    r1 <= r2 /\
    VAS.minSize config <= r1 /\ VAS.minSize config <= r2 /\
    (VAS.minSize config <= VAS.maxSize config ->
       r1 <= VAS.maxSize config /\ r2 <= VAS.maxSize config) /\
    fst (VAS.adjustedScale o c1 config) = VAS.Num a1 /\
    fst (VAS.adjustedScale o c2 config) = VAS.Num a2 /\
    a1 <= a2.
Proof.
  intros He [Ha0 Ha1] Hs Hd1 Hd12.
  set (d1 := VAS.distanceTo (VAS.camera_position c1) (VAS.position o)) in *.
  set (d2 := VAS.distanceTo (VAS.camera_position c2) (VAS.position o)) in *.
  set (t := tan (VAS.targetAngularSize config / 2)).
  assert (Ht : 0 < t) by (apply tan_gt_0; Lra.lra).
  set (s := entitySize o) in *.
  assert (Hr : forall d, 0 < d -> 0 < 2 * d * t / s).
  { intros d Hd. apply Rdiv_lt_0_compat; [|assumption].
    apply Rmult_lt_0_compat; [Lra.lra | assumption]. }
  assert (Hmono : 2 * d1 * t / s <= 2 * d2 * t / s).
  { unfold Rdiv. apply Rmult_le_compat_r.
    - left. apply Rinv_0_lt_compat. assumption.
    - apply Rmult_le_compat_r; Lra.lra. }
  pose proof (calculate_enabled o c1 config He) as E1.
  pose proof (calculate_enabled o c2 config He) as E2.
  fold d1 in E1. fold d2 in E2. fold t s in E1, E2.
  rewrite !adjustedScale_factor, E1, E2 by Lra.lra. clear E1 E2.
  rewrite !xdiv_nonzero by Lra.lra. rewrite !clamp_Num. simpl fst.
  destruct (shapeAdjustment_bounds (VAS.aspectRatio (VAS.userData o))) as (a & -> & Ha).
  exists (Rmax (VAS.minSize config) (Rmin (VAS.maxSize config) (2 * d1 * t / s))).
  exists (Rmax (VAS.minSize config) (Rmin (VAS.maxSize config) (2 * d2 * t / s))).
  eexists. eexists.
  split; [reflexivity|]. split; [reflexivity|].
  pose proof (clamp_monotone (VAS.minSize config) (VAS.maxSize config) _ _ Hmono) as Hm.
  split; [exact Hm|]. split; [apply clamp_lower|]. split; [apply clamp_lower|].
  split.
  - intros Hle. split; apply clamp_range; assumption.
  - split; [reflexivity|]. split; [reflexivity|].
    apply Rmult_le_compat_r; [Lra.lra | exact Hm].
Qed.

(** An entity of size [2] seen from the distances [1] and [3] under the
    default limits. *)
Lemma scale_monotone_in_distance_witness :
  VAS.enabled (configOf (2 / 100) (1 / 10) 10) = true /\
  0 < VAS.targetAngularSize (configOf (2 / 100) (1 / 10) 10) < PI /\
  0 < entitySize (entity 2 None) /\
  0 < VAS.distanceTo (VAS.camera_position (cameraAt 1 0 0)) (VAS.position (entity 2 None)) /\
  VAS.distanceTo (VAS.camera_position (cameraAt 1 0 0)) (VAS.position (entity 2 None))
    <= VAS.distanceTo (VAS.camera_position (cameraAt 3 0 0)) (VAS.position (entity 2 None)) /\
  exists r1 r2,
    fst (VAS.calculateViewBasedScale (entity 2 None) (cameraAt 1 0 0)
           (configOf (2 / 100) (1 / 10) 10)) = VAS.Num r1 /\
    fst (VAS.calculateViewBasedScale (entity 2 None) (cameraAt 3 0 0)
           (configOf (2 / 100) (1 / 10) 10)) = VAS.Num r2 /\
    r1 <= r2.
Proof.
  assert (H1 : VAS.enabled (configOf (2 / 100) (1 / 10) 10) = true) by reflexivity.
  assert (H2 : 0 < VAS.targetAngularSize (configOf (2 / 100) (1 / 10) 10) < PI).
  { simpl. pose proof PI2_1. Lra.lra. }
  assert (H3 : 0 < entitySize (entity 2 None)).
  { unfold entitySize. rewrite (getObjectSize_cached (entity 2 None) 2 eq_refl) by Lra.lra.
    simpl. Lra.lra. }
  assert (H4 : 0 < VAS.distanceTo (VAS.camera_position (cameraAt 1 0 0))
                     (VAS.position (entity 2 None))).
  { unfold cameraAt, entity; simpl VAS.camera_position; simpl VAS.position.
    rewrite distance_axis by Lra.lra. Lra.lra. }
  assert (H5 : VAS.distanceTo (VAS.camera_position (cameraAt 1 0 0)) (VAS.position (entity 2 None))
               <= VAS.distanceTo (VAS.camera_position (cameraAt 3 0 0)) (VAS.position (entity 2 None))).
  { unfold cameraAt, entity; simpl VAS.camera_position; simpl VAS.position.
    rewrite !distance_axis by Lra.lra. Lra.lra. }
  repeat (split; [assumption|]).
  destruct (scale_monotone_in_distance (entity 2 None) (cameraAt 1 0 0) (cameraAt 3 0 0)
              (configOf (2 / 100) (1 / 10) 10) H1 H2 H3 H4 H5)
    as (r1 & r2 & _ & _ & E1 & E2 & Hle & _).
  exists r1, r2. repeat split; assumption.
Defined.

(* ================================================================== *)
(** * Properties of the reconciler                                      *)
(* ================================================================== *)

Local Close Scope R_scope.
Local Close Scope Q_scope.
Local Open Scope nat_scope.
Local Open Scope string_scope.

Section Reconciler.

Variable data : option PanelData.
Variable nts : JS.number -> string.
Variable gltfLoader : string -> option Scene.GLTF.

Lemma map_get_set_same {V : Type} (k : string) (v : V) (mp : list (string * V)) :
  Scene.map_get k (Scene.map_set k v mp) = Some v.
Proof.
  induction mp as [|[k' v'] mp IH]; simpl.
  - rewrite String.eqb_refl. reflexivity.
  - destruct (String.eqb k' k) eqn:E; simpl; rewrite E; [reflexivity | assumption].
Qed.

Lemma create_step (st : Scene.State) (sh : Shape) :
  visible (base sh) = true ->
  Scene.has (id (base sh)) (Scene.objectsRef st) = false ->
  loads gltfLoader sh ->
  exists o lv,
    Scene.reconcileShape data nts gltfLoader st sh = (created st lv o (id (base sh)), true) /\
    sameResource sh o.
Proof.
  intros Hv Hh Hl. unfold Scene.reconcileShape. rewrite Hv, Hh. simpl negb. cbv iota.
  destruct sh as [b s|b a|b p|b d]; simpl in *.
  - exists (Scene.createSphere data (Scene.globalViewAngleSettings st) b s),
      (Scene.loadingVersions st).
    split; [destruct st; reflexivity | exact I].
  - exists (Scene.createAnnotation data nts b a), (Scene.loadingVersions st).
    split; [destruct st; reflexivity | exact I].
  - exists (Scene.createPolyline data b p), (Scene.loadingVersions st).
    split; [destruct st; reflexivity | exact I].
  - unfold Scene.create3DModel_start.
    destruct (Scene.noUrl d) eqn:Hu.
    + eexists; exists (Scene.loadingVersions st).
      split; [destruct st; reflexivity | reflexivity].
    + destruct Hl as [Hl|Hl]; [discriminate|].
      destruct (gltfLoader (url d)) as [gltf|] eqn:Hg; [|contradiction Hl; reflexivity].
      unfold Scene.create3DModel_finish.
      cbn [Scene.ticket_base Scene.ticket_shape Scene.ticket_version Scene.ticket_position
           Scene.set_loadingVersions Scene.loadingVersions].
      rewrite map_get_set_same, Nat.eqb_refl, Hg. simpl negb. cbv iota.
      eexists; eexists. split; [reflexivity | reflexivity].
Qed.

Lemma update_step (st : Scene.State) (sh : Shape) (r : Scene.Ref) (existing : Scene.Object3D) :
  visible (base sh) = true ->
  Scene.map_get (id (base sh)) (Scene.objectsRef st) = Some r ->
  Scene.deref r (Scene.store st) = Some existing ->
  isPolyline sh = false ->
  sameResource sh existing ->
  exists o,
    Scene.reconcileShape data nts gltfLoader st sh = (Scene.mutate st r o, true) /\
    sameResource sh o.
Proof.
  intros Hv Hm Hd Hp Hs. unfold Scene.reconcileShape, Scene.has. rewrite Hv, Hm.
  simpl negb. cbv iota. unfold Scene.updateObject. rewrite Hv, Hm, Hd. simpl negb. cbv iota.
  destruct sh as [b s|b a|b p|b d]; simpl in *; try discriminate.
  - eexists; split; [reflexivity | exact I].
  - eexists; split; [reflexivity | exact I].
  - unfold Scene.currentUrl. rewrite Hs, String.eqb_refl. simpl.
    eexists; split; [reflexivity | reflexivity].
Qed.

Lemma polyline_step (st : Scene.State) (b : BaseShape) (p : PolylineShape)
    (r : Scene.Ref) (existing : Scene.Object3D) :
  visible b = true ->
  Scene.map_get (id b) (Scene.objectsRef st) = Some r ->
  Scene.deref r (Scene.store st) = Some existing ->
  Scene.reconcileShape data nts gltfLoader st (Polyline b p)
  = (created (Scene.removeObject st (id b))
       (Scene.loadingVersions st) (Scene.createPolyline data b p) (id b), true).
Proof.
  intros Hv Hm Hd. unfold Scene.reconcileShape, Scene.has. simpl base. rewrite Hv, Hm.
  simpl negb. cbv iota. unfold Scene.updateObject. simpl base. rewrite Hv, Hm, Hd.
  simpl negb. cbv iota. unfold created, Scene.removeObject. rewrite Hm.
  reflexivity.
Qed.

(** C5, amended.  From an empty scene, a pass over the visible shapes
    [[A, B]] followed by a pass over [[B, C]], the three identifiers
    being distinct and the assets of the models being delivered: the
    second pass disposes of the entity of [A] and drops it from the map
    and from the scene, and creates a new entity for [C].  When [B] is
    a sphere, an annotation or a model, its entity is the same object
    before and after, and one creation and one disposal are all that
    the pass performs; when [B] is a polyline, its entity is disposed
    of and created anew as well.  Afterwards the map holds one entity
    for [B] and one for [C], and nothing else. *)
Theorem reconcile_AB_to_BC (g : option ViewAngleScalingSettings) (A B C : Shape) :
  visible (base A) = true -> visible (base B) = true -> visible (base C) = true ->
  id (base A) <> id (base B) -> id (base A) <> id (base C) -> id (base B) <> id (base C) ->
  loads gltfLoader A -> loads gltfLoader B -> loads gltfLoader C ->
  let st1 := Scene.updateObjects data nts gltfLoader (Scene.initialState g) [A; B] in
  let st2 := Scene.updateObjects data nts gltfLoader st1 [B; C] in
  exists rA rB rB' rC : Scene.Ref,
    Scene.objectsRef st1 = [(id (base A), rA); (id (base B), rB)] /\
    Scene.scene st1 = [rA; rB] /\
    Scene.objectsRef st2 = [(id (base B), rB'); (id (base C), rC)] /\
    Scene.scene st2 = [rB'; rC] /\
    NoDup (Scene.map_keys (Scene.objectsRef st2)) /\
    Scene.pending st2 = [] /\
    Scene.deref rC (Scene.store st1) = None /\
    rA <> rB /\
    (if isPolyline B
     then Scene.deref rB' (Scene.store st1) = None /\ rB' <> rC /\
          newEvents st1 st2
          = [Scene.Disposed rA; Scene.Disposed rB; Scene.Created rB'; Scene.Created rC]
     else rB' = rB /\
          newEvents st1 st2 = [Scene.Disposed rA; Scene.Created rC] /\
          length (Scene.creations (newEvents st1 st2)) = 1 /\
          length (Scene.disposals (newEvents st1 st2)) = 1).
Proof.
  intros HvA HvB HvC Hab Hac Hbc HlA HlB HlC.
  assert (Eab : String.eqb (id (base A)) (id (base B)) = false) by (apply String.eqb_neq; assumption).
  assert (Eac : String.eqb (id (base A)) (id (base C)) = false) by (apply String.eqb_neq; assumption).
  assert (Ebc : String.eqb (id (base B)) (id (base C)) = false) by (apply String.eqb_neq; assumption).
  assert (Eba : String.eqb (id (base B)) (id (base A)) = false)
    by (apply String.eqb_neq; congruence).
  assert (Eca : String.eqb (id (base C)) (id (base A)) = false)
    by (apply String.eqb_neq; congruence).
  assert (Ecb : String.eqb (id (base C)) (id (base B)) = false)
    by (apply String.eqb_neq; congruence).
  (* first pass *)
  destruct (create_step (Scene.initialState g) A HvA eq_refl HlA) as (oA & lvA & EA & _).
  set (sA := created (Scene.initialState g) lvA oA (id (base A))) in *.
  assert (HhB : Scene.has (id (base B)) (Scene.objectsRef sA) = false).
  { unfold Scene.has, sA, created. decide_ids. reflexivity. }
  destruct (create_step sA B HvB HhB HlB) as (oB & lvB & EB & SB).
  set (sB := created sA lvB oB (id (base B))) in *.
  assert (E1 : Scene.updateObjects data nts gltfLoader (Scene.initialState g) [A; B] = sB).
  { unfold Scene.updateObjects. simpl Scene.removeObjectsFromScene.
    simpl Scene.reconcileAll. rewrite EA, EB. reflexivity. }
  intros st1 st2. unfold st2, st1. clear st1 st2. rewrite E1.
  (* second pass: the removals *)
  assert (Erm : List.filter
            (fun k => negb (Scene.member k
               (List.map (fun obj => id (base obj))
                  (List.filter (fun obj => visible (base obj)) [B; C]))))
            (Scene.map_keys (Scene.objectsRef sB)) = [id (base A)]).
  { unfold sB, sA, created. simpl. rewrite HvB, HvC. decide_ids. reflexivity. }
  unfold Scene.updateObjects. rewrite Erm. clear Erm.
  set (sR := Scene.removeObjectsFromScene sB [id (base A)]).
  assert (HmB : Scene.map_get (id (base B)) (Scene.objectsRef sR) = Some 1).
  { unfold sR, sB, sA, created. decide_ids. reflexivity. }
  assert (HdB : Scene.deref 1 (Scene.store sR) = Some oB).
  { unfold sR, sB, sA, created. decide_ids. reflexivity. }
  assert (HtR : Scene.trace sR = (Scene.trace sB ++ [Scene.Disposed 0])%list).
  { unfold sR, sB, sA, created. decide_ids. reflexivity. }
  assert (HoR : Scene.objectsRef sR = [(id (base B), 1)]).
  { unfold sR, sB, sA, created. decide_ids. reflexivity. }
  assert (HsR : Scene.scene sR = [1]).
  { unfold sR, sB, sA, created. decide_ids. reflexivity. }
  assert (HnR : Scene.nextRef sR = 2).
  { unfold sR, sB, sA, created. decide_ids. reflexivity. }
  assert (HpR : Scene.pending sR = []).
  { unfold sR, sB, sA, created. decide_ids. reflexivity. }
  assert (HstR : Scene.store sR = [(0, oA); (1, oB)]).
  { unfold sR, sB, sA, created. decide_ids. reflexivity. }
  assert (HtB : Scene.trace sB = [Scene.Created 0; Scene.Created 1]).
  { unfold sB, sA, created. decide_ids. reflexivity. }
  exists 0, 1.
  destruct (isPolyline B) eqn:HpB.
  - (* B is a polyline: disposed of and created anew *)
    destruct B as [b s|b a|b p|b d]; try discriminate. simpl base in *.
    pose proof (polyline_step sR b p 1 oB HvB HmB HdB) as EB2.
    set (sB2 := created (Scene.removeObject sR (id b)) (Scene.loadingVersions sR)
                  (Scene.createPolyline data b p) (id b)) in *.
    assert (HhC : Scene.has (id (base C)) (Scene.objectsRef sB2) = false).
    { unfold Scene.has, sB2, created, Scene.removeObject. rewrite HmB.
      cbn [Scene.objectsRef Scene.addObjectToScene Scene.allocate snd
           Scene.set_loadingVersions].
      rewrite HoR. decide_ids. reflexivity. }
    destruct (create_step sB2 C HvC HhC HlC) as (oC & lvC & EC & _).
    exists 2, 3.
    simpl Scene.reconcileAll. rewrite EB2, EC.
    unfold newEvents, created, sB2, created, Scene.removeObject. rewrite HmB.
    cbn [Scene.objectsRef Scene.scene Scene.pending Scene.trace Scene.store Scene.nextRef
         Scene.addObjectToScene Scene.allocate snd Scene.set_loadingVersions].
    rewrite ?HoR, ?HsR, ?HnR, ?HpR, ?HtR, ?HstR, ?HtB. unfold sB, sA, created.
    decide_ids.
    repeat split; try reflexivity; try discriminate.
    repeat constructor; simpl; intuition congruence.
  - (* B is updated in place *)
    destruct (update_step sR B 1 oB HvB HmB HdB HpB SB) as (oB2 & EB2 & _).
    assert (HhC : Scene.has (id (base C)) (Scene.objectsRef (Scene.mutate sR 1 oB2)) = false).
    { unfold Scene.has. cbn [Scene.objectsRef Scene.mutate]. rewrite HoR.
      decide_ids. reflexivity. }
    destruct (create_step (Scene.mutate sR 1 oB2) C HvC HhC HlC) as (oC & lvC & EC & _).
    exists 1, 2.
    simpl Scene.reconcileAll. rewrite EB2, EC.
    unfold newEvents, created.
    cbn [Scene.objectsRef Scene.scene Scene.pending Scene.trace Scene.store Scene.nextRef
         Scene.addObjectToScene Scene.allocate snd Scene.set_loadingVersions Scene.mutate].
    rewrite ?HoR, ?HsR, ?HnR, ?HpR, ?HtR, ?HstR, ?HtB. unfold sB, sA, created.
    decide_ids.
    repeat split; try reflexivity; try discriminate.
    repeat constructor; simpl; intuition congruence.
Qed.

End Reconciler.

(** Three spheres [A], [B], [C]. *)
Lemma reconcile_AB_to_BC_witness :
  let A := sphereShape "A" in
  let B := sphereShape "B" in
  let C := sphereShape "C" in
  let st1 := Scene.updateObjects None (fun _ => "") noLoader (Scene.initialState None) [A; B] in
  let st2 := Scene.updateObjects None (fun _ => "") noLoader st1 [B; C] in
  (visible (base A) = true /\ visible (base B) = true /\ visible (base C) = true) /\
  (id (base A) <> id (base B) /\ id (base A) <> id (base C) /\ id (base B) <> id (base C)) /\
  (loads noLoader A /\ loads noLoader B /\ loads noLoader C) /\
  exists rA rC, newEvents st1 st2 = [Scene.Disposed rA; Scene.Created rC].
Proof.
  intros A B C st1 st2.
  split; [repeat split|]. split; [repeat split; discriminate|]. split; [repeat split|].
  destruct (reconcile_AB_to_BC None (fun _ => "") noLoader None A B C
              eq_refl eq_refl eq_refl
              ltac:(discriminate) ltac:(discriminate) ltac:(discriminate) I I I)
    as (rA & rB & rB' & rC & _ & _ & _ & _ & _ & _ & _ & _ & H).
  simpl in H. destruct H as (_ & H & _).
  exists rA, rC. exact H.
Defined.

(** C5, as stated, fails when [B] is a polyline: the pass from
    [[A, B]] to [[B, C]] disposes of the entity of [B] and creates
    another one for it, so that two creations and two disposals occur. *)
Lemma polyline_is_recreated :
  let A := sphereShape "A" in
  let B := polylineShape "B" in
  let C := sphereShape "C" in
  let st1 := Scene.updateObjects None (fun _ => "") noLoader (Scene.initialState None) [A; B] in
  let st2 := Scene.updateObjects None (fun _ => "") noLoader st1 [B; C] in
  Scene.objectsRef st1 = [("A", 0); ("B", 1)] /\
  newEvents st1 st2
  = [Scene.Disposed 0; Scene.Disposed 1; Scene.Created 2; Scene.Created 3] /\
  length (Scene.creations (newEvents st1 st2)) = 2 /\
  length (Scene.disposals (newEvents st1 st2)) = 2 /\
  Scene.objectsRef st2 = [("B", 2); ("C", 3)] /\
  Scene.map_get "B" (Scene.objectsRef st2) <> Scene.map_get "B" (Scene.objectsRef st1).
Proof.
  vm_compute. repeat split; try reflexivity. discriminate.
Qed.

(* ================================================================== *)
(** * Further properties of the field resolver                        *)
(* ================================================================== *)

Local Close Scope R_scope.
Local Close Scope Q_scope.
Local Open Scope nat_scope.
Local Open Scope string_scope.

Lemma cut_append (c : ascii) (a b : string) :
  JS.includes c a = false -> JS.cut c (a ++ String c b) = Some (a, b).
Proof.
  induction a as [|x a IH]; simpl; intro H.
  - now rewrite Ascii.eqb_refl.
  - apply orb_false_iff in H. destruct H as [Hx Ha].
    rewrite Hx, (IH Ha). reflexivity.
Qed.

Lemma bracketMatch_head (c : ascii) (s : string) :
  c <> "["%char -> DataFieldProcessor.bracketMatch (String c s) = None.
Proof.
  intro H. unfold DataFieldProcessor.bracketMatch.
  destruct c as [[] [] [] [] [] [] [] []]; try reflexivity.
  now elim H.
Qed.

Lemma isEmpty_false (s : string) : s <> "" -> JS.isEmpty s = false.
Proof. destruct s; [intro H; now elim H | reflexivity]. Qed.

Lemma parseReference_bracket (sn fn : string) :
  sn <> "" -> fn <> "" ->
  JS.includes "]" sn = false -> JS.includes "}" fn = false ->
  DataFieldProcessor.parseReference ("[" ++ sn ++ "]{" ++ fn ++ "}") = (Some sn, fn).
Proof.
  intros Hs Hf Hb Hc.
  unfold DataFieldProcessor.parseReference, DataFieldProcessor.bracketMatch. simpl.
  rewrite (cut_append "]" sn _ Hb), (cut_append "}" fn "" Hc).
  now rewrite (isEmpty_false _ Hs), (isEmpty_false _ Hf).
Qed.

Lemma parseReference_dotted (sn fn : string) :
  sn <> "" -> fn <> "" ->
  JS.includes "." sn = false -> String.prefix "[" sn = false ->
  JS.hasLineTerminator fn = false ->
  DataFieldProcessor.parseReference (sn ++ "." ++ fn) = (Some sn, fn).
Proof.
  intros Hs Hf Hd Hp Hl.
  unfold DataFieldProcessor.parseReference.
  assert (Hb : DataFieldProcessor.bracketMatch (sn ++ "." ++ fn) = None).
  { destruct sn as [|c r]; [now elim Hs|]. simpl.
    apply bracketMatch_head. intros ->. simpl in Hp.
    destruct r; discriminate. }
  rewrite Hb. unfold DataFieldProcessor.dotMatch. simpl.
  rewrite (cut_append "." sn fn Hd).
  now rewrite (isEmpty_false _ Hs), (isEmpty_false _ Hf), Hl.
Qed.

(** X1.  The bracket syntax [[sn]{fn}] and the dotted syntax [sn.fn]
    name the same series and field, and every resolver returns the same
    array for the two: provided [sn] and [fn] are not empty, [sn] holds
    no [']'], no ['.'] and does not start with ['['], and [fn] holds no
    ['}'] and no line terminator. *)
Theorem reference_syntaxes_agree
    (nts : JS.number -> string) (data : option PanelData) (sn fn : string)
    (d : JS.number) (dt : string) :
  sn <> "" -> fn <> "" ->
  JS.includes "]" sn = false -> JS.includes "." sn = false ->
  String.prefix "[" sn = false ->
  JS.includes "}" fn = false -> JS.hasLineTerminator fn = false ->
  DataFieldProcessor.parseReference (value (bracketReference sn fn)) = (Some sn, fn) /\
  DataFieldProcessor.parseReference (value (dottedReference sn fn)) = (Some sn, fn) /\
  DataFieldProcessor.getDataFieldValue data (Some (bracketReference sn fn)) d
  = DataFieldProcessor.getDataFieldValue data (Some (dottedReference sn fn)) d /\
  DataFieldProcessor.getFieldValueAsString nts data (Some (bracketReference sn fn)) dt
  = DataFieldProcessor.getFieldValueAsString nts data (Some (dottedReference sn fn)) dt /\
  DataFieldProcessor.getTextDataFieldValue nts data (Some (bracketReference sn fn)) dt
  = DataFieldProcessor.getTextDataFieldValue nts data (Some (dottedReference sn fn)) dt.
Proof.
  intros Hs Hf Hb Hd Hp Hc Hl.
  pose proof (parseReference_bracket sn fn Hs Hf Hb Hc) as Pb.
  pose proof (parseReference_dotted sn fn Hs Hf Hd Hp Hl) as Pd.
  pose proof (parseTextReference_named _ _ _ Pb) as Tb.
  pose proof (parseTextReference_named _ _ _ Pd) as Td.
  repeat split; try assumption.
  - unfold DataFieldProcessor.getDataFieldValue, DataFieldProcessor.getFieldFromDataSource.
    simpl sourceType. cbv iota. destruct data; [|reflexivity].
    unfold bracketReference, dottedReference, telemetryField, value in *.
    now rewrite Pb, Pd.
  - unfold DataFieldProcessor.getFieldValueAsString,
      DataFieldProcessor.getFieldFromDataSourceAsString.
    simpl sourceType. cbv iota. destruct data; [|reflexivity].
    unfold bracketReference, dottedReference, telemetryField, value in *.
    now rewrite Pb, Pd.
  - unfold DataFieldProcessor.getTextDataFieldValue,
      DataFieldProcessor.getTextFieldFromDataSource.
    simpl sourceType. cbv iota. destruct data; [|reflexivity].
    unfold bracketReference, dottedReference, telemetryField, value in *.
    now rewrite Tb, Td.
Qed.

Lemma reference_syntaxes_agree_witness :
  DataFieldProcessor.getDataFieldValue (Some {| series := otherSeries |})
    (Some (bracketReference "Other" "PosX")) (JS.Fin 0)
  = DataFieldProcessor.getDataFieldValue (Some {| series := otherSeries |})
    (Some (dottedReference "Other" "PosX")) (JS.Fin 0).
Proof.
  refine (proj1 (proj2 (proj2
    (reference_syntaxes_agree (fun _ => "") (Some {| series := otherSeries |})
       "Other" "PosX" (JS.Fin 0) "" _ _ _ _ _ _ _)))); try discriminate; reflexivity.
Defined.

Lemma dataSourceName_nonempty (s : DataFrame) (i : nat) :
  CommonHelpers.dataSourceName s i <> "".
Proof.
  unfold CommonHelpers.dataSourceName, JS.str_or.
  destruct (CommonHelpers.text_of (series_name s)); simpl; [|discriminate].
  destruct (CommonHelpers.text_of (refId s)); simpl; discriminate.
Qed.

Lemma seriesOptions_offers (pre post : list DataFrame) (s : DataFrame) (f : Field) (i : nat) :
  In f (fields s) -> field_name f <> "" ->
  In (CommonHelpers.dataSourceName s (i + length pre) ++ "." ++ field_name f)
     (List.map CommonHelpers.option_value
        (CommonHelpers.seriesOptions (pre ++ s :: post) i)).
Proof.
  intros Hin Hn. revert i.
  induction pre as [|p pre IH]; intro i; simpl.
  - rewrite Nat.add_0_r, List.map_app. apply in_or_app. left.
    apply in_map_iff.
    exists {| CommonHelpers.label :=
                CommonHelpers.dataSourceName s i ++ " → " ++ field_name f;
              CommonHelpers.option_value :=
                CommonHelpers.dataSourceName s i ++ "." ++ field_name f |}.
    split; [reflexivity|].
    apply in_flat_map. exists f. split; [assumption|].
    unfold CommonHelpers.fieldOption. rewrite (isEmpty_false _ Hn). now left.
  - rewrite List.map_app. apply in_or_app. right.
    replace (i + S (length pre)) with (S i + length pre) by lia.
    apply IH.
Qed.

(** X2.  Every field with a name yields an entry of the drop-down
    built by [getFieldOptions], whose value is the data source name
    (series name, else ref-id, else [Query-n]), a dot and the field
    name.  When the data source name holds no ['.'] and does not start
    with ['['], and the field name holds no line terminator, that value
    parses back to this series and field, and it resolves to the column
    of the field as soon as the series is known under this name, no
    earlier series of the same name offers the field, and the field is
    the first of its name in the series and holds a value. *)
Theorem offered_field_resolves
    (pre post : list DataFrame) (s : DataFrame) (f : Field) (d : JS.number) :
  let ss := (pre ++ s :: post)%list in
  let n := CommonHelpers.dataSourceName s (length pre) in
  let v := n ++ "." ++ field_name f in
  In f (fields s) -> field_name f <> "" ->
  JS.includes "." n = false -> String.prefix "[" n = false ->
  JS.hasLineTerminator (field_name f) = false ->
  In v (List.map CommonHelpers.option_value
          (CommonHelpers.getFieldOptions (Some {| series := ss |}))) /\
  DataFieldProcessor.parseReference v = (Some n, field_name f) /\
  (seriesMatches n s ->
   (forall s', In s' pre -> seriesMatches n s' -> ~ offers (field_name f) s') ->
   DataFieldProcessor.findField (fields s) (field_name f) = Some f -> values f <> [] ->
   DataFieldProcessor.getDataFieldValue (Some {| series := ss |}) (Some (telemetryField v)) d
   = DataFieldProcessor.processFieldValues f).
Proof.
  intros ss n v Hin Hn Hd Hp Hl.
  assert (P : DataFieldProcessor.parseReference v = (Some n, field_name f)).
  { apply parseReference_dotted; try assumption. apply dataSourceName_nonempty. }
  split; [|split; [exact P|]].
  - unfold CommonHelpers.getFieldOptions. simpl series.
    apply (seriesOptions_offers pre post s f 0 Hin Hn).
  - intros Hm Hpre Hfind Hvals.
    unfold DataFieldProcessor.getDataFieldValue, DataFieldProcessor.getFieldFromDataSource.
    simpl sourceType. cbv iota. unfold telemetryField, value. rewrite P. simpl series.
    unfold ss.
    now rewrite (findFieldBySeriesAndName_first pre post s n (field_name f) f Hpre Hm Hfind Hvals).
Qed.

Lemma offered_field_resolves_witness :
  In "Other.PosX"
     (List.map CommonHelpers.option_value
        (CommonHelpers.getFieldOptions (Some {| series := otherSeries |}))) /\
  DataFieldProcessor.parseReference "Other.PosX" = (Some "Other", "PosX") /\
  DataFieldProcessor.getDataFieldValue (Some {| series := otherSeries |})
    (Some (telemetryField "Other.PosX")) (JS.Fin 0) = [JS.Fin 7].
Proof.
  pose proof (offered_field_resolves [] []
    {| series_name := Some "Other"; refId := Some "A";
       fields := [ {| field_name := "PosX"; values := [JS.VNum (JS.Fin 7)] |} ] |}
    {| field_name := "PosX"; values := [JS.VNum (JS.Fin 7)] |} (JS.Fin 0)) as H.
  simpl in H.
  destruct H as [H1 [H2 H3]]; try reflexivity; try discriminate.
  - now left.
  - split; [exact H1 | split; [exact H2|]].
    apply H3; try reflexivity; try discriminate.
    + now left.
    + intros s' [].
Defined.

Lemma series_search_lengths (nts : JS.number -> string) (ss : list DataFrame) (sn fn : string) :
  match DataFieldProcessor.findFieldBySeriesAndName ss sn fn,
        DataFieldProcessor.findFieldBySeriesAndNameAsString nts ss sn fn with
  | Some a, Some b => length a = length b
  | None, None => True
  | _, _ => False
  end.
Proof.
  induction ss as [|s ss IH]; simpl; [exact I|].
  destruct (DataFieldProcessor.opt_is (series_name s) sn
            || DataFieldProcessor.opt_is (refId s) sn); [|exact IH].
  destruct (DataFieldProcessor.findField (fields s) fn) as [fd|]; [|exact IH].
  destruct (0 <? length (values fd))%nat; [|exact IH].
  unfold DataFieldProcessor.processFieldValues, DataFieldProcessor.processFieldValuesAsString.
  now rewrite !List.length_map.
Qed.

Lemma name_search_lengths (nts : JS.number -> string) (ss : list DataFrame) (fn : string)
    (d : JS.number) (dt : string) :
  length (DataFieldProcessor.findFieldByName ss fn d)
  = length (DataFieldProcessor.findFieldByNameAsString nts ss fn dt).
Proof.
  induction ss as [|s ss IH]; simpl; [reflexivity|].
  destruct (DataFieldProcessor.findField (fields s) fn) as [fd|]; [|exact IH].
  destruct (0 <? length (values fd))%nat; [|exact IH].
  unfold DataFieldProcessor.processFieldValues, DataFieldProcessor.processFieldValuesAsString.
  now rewrite !List.length_map.
Qed.

(** X3.  For every field, telemetry snapshot and defaults, numeric
    resolution and the text resolution of annotations return arrays of
    the same length. *)
Theorem numeric_and_text_lengths_agree
    (nts : JS.number -> string) (data : option PanelData) (f : option DataField)
    (d : JS.number) (dt : string) :
  length (DataFieldProcessor.getDataFieldValue data f d)
  = length (DataFieldProcessor.getFieldValueAsString nts data f dt).
Proof.
  unfold DataFieldProcessor.getDataFieldValue, DataFieldProcessor.getFieldValueAsString.
  destruct f as [f|]; [|reflexivity].
  destruct (sourceType f).
  - destruct (value f) as [|c r] eqn:E; [reflexivity|].
    unfold JS.str_or. cbn [JS.isEmpty].
    destruct (JS.includes "," (String c r)); [|reflexivity].
    now rewrite !List.length_map.
  - destruct data as [p|]; [|reflexivity].
    unfold DataFieldProcessor.getFieldFromDataSource,
      DataFieldProcessor.getFieldFromDataSourceAsString.
    destruct (DataFieldProcessor.parseReference (value f)) as [[sn|] fn].
    + pose proof (series_search_lengths nts (series p) sn fn) as H.
      destruct (DataFieldProcessor.findFieldBySeriesAndName (series p) sn fn),
               (DataFieldProcessor.findFieldBySeriesAndNameAsString nts (series p) sn fn);
        try contradiction; [assumption | apply name_search_lengths].
    + apply name_search_lengths.
Qed.

Lemma getLast_finite (data : option PanelData) (f : option DataField) (d : JS.number) :
  JS.isFinite d = true ->
  JS.isFinite (DataFieldProcessor.getLastDataFieldValue data f d) = true.
Proof.
  intro Hd.
  unfold DataFieldProcessor.getLastDataFieldValue,
    DataFieldProcessor.getLastDataFieldValue_console.
  destruct (JS.isFinite (DataFieldProcessor.lastElement
              (DataFieldProcessor.getDataFieldValue data f d))) eqn:E; simpl; assumption.
Qed.

(* ================================================================== *)
(** * Further properties of the bounds                                *)
(* ================================================================== *)

Local Open Scope Q_scope.

Lemma contribution_of_position (data : option PanelData) (a : Axis) (sh : Shape) (c : JS.number) :
  isPolyline sh = false -> In c (contribution data a sh) -> JS.isFinite c = true.
Proof.
  intros Hp Hin. unfold contribution in Hin.
  destruct (visible (base sh)); [|contradiction].
  destruct sh; try discriminate; destruct Hin as [<-|[]]; now apply getLast_finite.
Qed.

(** X4.  When no visible shape is a polyline, every contribution to
    the limits is a finite number, whatever the telemetry holds: a
    position is read by last-value selection, which replaces a value
    that is not finite by the default [0]. *)
Theorem positions_keep_limits_finite (data : option PanelData) (objs : list Shape) :
  (forall sh, In sh objs -> visible (base sh) = true -> isPolyline sh = false) ->
  forall a c, In c (contributions data a objs) -> JS.isFinite c = true.
Proof.
  intros H a c Hin. unfold contributions in Hin.
  apply in_flat_map in Hin. destruct Hin as [sh [Hsh Hc]].
  destruct (visible (base sh)) eqn:V.
  - apply (contribution_of_position data a sh c); [now apply H | assumption].
  - unfold contribution in Hc. rewrite V in Hc. contradiction.
Qed.

Lemma positions_keep_limits_finite_witness :
  let sh :=
    Sphere {| id := "A"; name := "A"; visible := true |}
           {| sphere_color := "#00ff00";
              sphere_posX := telemetryField "X"; sphere_posY := constField "0";
              sphere_posZ := constField "0";
              autoRadius := on; radius := None; sphere_autoScaleFactor := None |} in
  contributions (Some {| series := nanColumn |}) AxisX [sh] = [JS.Fin 0] /\
  JS.isFinite (JS.Fin 0) = true.
Proof.
  intro sh. split; [reflexivity|].
  apply (positions_keep_limits_finite (Some {| series := nanColumn |}) [sh]) with (a := AxisX).
  - intros s [<-|[]] _. reflexivity.
  - left. reflexivity.
Defined.



Lemma pad_Qeq (lo1 hi1 lo2 hi2 : Q) :
  lo1 == lo2 -> hi1 == hi2 ->
  BoundsCalculator.pad (JS.Fin lo1, JS.Fin hi1) = BoundsCalculator.pad (JS.Fin lo2, JS.Fin hi2).
Proof.
  intros Hl Hh.
  unfold BoundsCalculator.pad, JS.sub, JS.add, JS.neg, JS.mul, JS.num_or, JS.truthy.
  cbn [JS.isFinite andb].
  assert (R : Qred (hi1 + Qred (- lo1)) = Qred (hi2 + Qred (- lo2))).
  { apply Qred_complete. rewrite !Qred_correct. now rewrite Hl, Hh. }
  rewrite R.
  destruct (negb (Qeq_bool (Qred (hi2 + Qred (- lo2))) 0));
    f_equal; f_equal; apply Qred_complete; rewrite ?Qred_correct; now rewrite ?Hl, ?Hh.
Qed.

Lemma summary_same_set (cs cs' : list JS.number) (mm mm' : JS.number * JS.number) :
  (forall c, In c cs <-> In c cs') ->
  summary cs mm -> summary cs' mm' ->
  BoundsCalculator.pad mm = BoundsCalculator.pad mm'.
Proof.
  intros Hset S1 S2.
  destruct S1 as [E1 | lo1 hi1 F1 L1 H1 B1 | mm P1 Q1];
  destruct S2 as [E2 | lo2 hi2 F2 L2 H2 B2 | mm' P2 Q2].
  - reflexivity.
  - subst cs. apply Hset in L2. contradiction.
  - subst cs. destruct P2 as [c [Hc _]]. apply Hset in Hc. contradiction.
  - subst cs'. apply Hset in L1. contradiction.
  - apply pad_Qeq.
    + destruct (B1 lo2 (proj2 (Hset _) L2)) as [A _].
      destruct (B2 lo1 (proj1 (Hset _) L1)) as [B _]. Lqa.lra.
    + destruct (B1 hi2 (proj2 (Hset _) H2)) as [_ A].
      destruct (B2 hi1 (proj1 (Hset _) H1)) as [_ B]. Lqa.lra.
  - destruct P2 as [c [Hc Hn]]. apply Hset in Hc. rewrite (F1 c Hc) in Hn. discriminate.
  - subst cs'. destruct P1 as [c [Hc _]]. apply Hset in Hc. contradiction.
  - destruct P1 as [c [Hc Hn]]. apply Hset in Hc. rewrite (F2 c Hc) in Hn. discriminate.
  - now rewrite (pad_poisoned _ Q1), (pad_poisoned _ Q2).
Qed.

(** X6.  Two shape lists with the same shapes, in any order and with
    any repetition, get the same limits. *)
Theorem limits_independent_of_order (data : option PanelData) (objs objs' : list Shape) :
  (forall sh, In sh objs <-> In sh objs') ->
  BoundsCalculator.calculateAutoScaleLimits data objs
  = BoundsCalculator.calculateAutoScaleLimits data objs'.
Proof.
  intro Hset.
  assert (H : forall a,
    boundsOn a (BoundsCalculator.calculateAutoScaleLimits data objs)
    = boundsOn a (BoundsCalculator.calculateAutoScaleLimits data objs')).
  { intro a. rewrite !limits_axis.
    apply (summary_same_set (contributions data a objs) (contributions data a objs')).
    - intro c. unfold contributions. rewrite !in_flat_map.
      split; intros [sh [Hs Hc]]; exists sh; (split; [now apply Hset | assumption]).
    - apply extendAll_summary.
    - apply extendAll_summary. }
  pose proof (H AxisX) as HX. pose proof (H AxisY) as HY. pose proof (H AxisZ) as HZ.
  destruct (BoundsCalculator.calculateAutoScaleLimits data objs),
           (BoundsCalculator.calculateAutoScaleLimits data objs').
  simpl in HX, HY, HZ. congruence.
Qed.

Lemma limits_independent_of_order_witness :
  BoundsCalculator.calculateAutoScaleLimits None [sphereShape "A"%string; polylineShape "B"%string]
  = BoundsCalculator.calculateAutoScaleLimits None [polylineShape "B"%string; sphereShape "A"%string].
Proof.
  apply (limits_independent_of_order None).
  intro sh. simpl. tauto.
Defined.

(* ================================================================== *)
(** * Further properties of view-angle scaling                        *)
(* ================================================================== *)

Local Close Scope Q_scope.
Local Open Scope R_scope.

(** X7.  For an enabled configuration with a target angle in
    [(0, pi)], an entity of positive size and a positive distance [d]:
    when [2 d tan(angle / 2) / size] lies within [[minSize, maxSize]] it
    is the scale returned, and the entity scaled by it subtends the
    target angle exactly: [2 atan(scale * size / (2 d)) = angle]. *)
Theorem unclamped_scale_subtends_target (o : VAS.Object3D) (camera : VAS.Camera)
    (config : VAS.ViewAngleScalingConfig) :
  let d := VAS.distanceTo (VAS.camera_position camera) (VAS.position o) in
  let raw := 2 * d * tan (VAS.targetAngularSize config / 2) / entitySize o in
  VAS.enabled config = true ->
  0 < VAS.targetAngularSize config < PI ->
  0 < entitySize o -> 0 < d ->
  VAS.minSize config <= raw <= VAS.maxSize config ->
  fst (VAS.calculateViewBasedScale o camera config) = VAS.Num raw /\
  2 * atan (raw * entitySize o / (2 * d)) = VAS.targetAngularSize config.
Proof.
  intros d raw He Ha Hs Hd Hr.
  split.
  - rewrite (calculate_enabled o camera config He) by (fold d; Lra.lra).
    fold d. rewrite xdiv_nonzero by Lra.lra. fold raw.
    rewrite clamp_Num. cbn [fst]. f_equal. Rminmax.
  - replace (raw * entitySize o / (2 * d)) with (tan (VAS.targetAngularSize config / 2)).
    + rewrite atan_tan; [Lra.lra|]. split; Lra.lra.
    + unfold raw. field. split; Lra.lra.
Qed.

Lemma unclamped_scale_subtends_target_witness :
  fst (VAS.calculateViewBasedScale (entity (tan (1 / 2)) None) (cameraAt 1 0 0)
         (configOf 1 1 3))
  = VAS.Num (2 * VAS.distanceTo (vec 1 0 0) (vec 0 0 0) * tan (1 / 2) / tan (1 / 2)).
Proof.
  assert (Ht : 0 < tan (1 / 2)).
  { apply tan_gt_0; [Lra.lra|]. pose proof PI2_1. Lra.lra. }
  assert (Hs : entitySize (entity (tan (1 / 2)) None) = tan (1 / 2)).
  { unfold entitySize. rewrite (getObjectSize_cached _ (tan (1 / 2))); [reflexivity|reflexivity|Lra.lra]. }
  pose proof (unclamped_scale_subtends_target (entity (tan (1 / 2)) None) (cameraAt 1 0 0)
                (configOf 1 1 3)) as H.
  cbv zeta in H. rewrite Hs in H.
  simpl VAS.targetAngularSize in H. simpl VAS.minSize in H. simpl VAS.maxSize in H.
  simpl VAS.camera_position in H. simpl VAS.position in H.
  assert (Hd : VAS.distanceTo (vec 1 0 0) (vec 0 0 0) = 1) by (apply distance_axis; Lra.lra).
  apply H.
  - reflexivity.
  - pose proof PI2_1. Lra.lra.
  - exact Ht.
  - rewrite Hd. Lra.lra.
  - rewrite Hd. replace (2 * 1 * tan (1 / 2) / tan (1 / 2)) with 2 by (field; Lra.lra). Lra.lra.
Defined.

(** X8.  For an enabled configuration with a target angle in
    [(0, pi)] and a positive distance, an entity whose size is zero gets
    the scale [max(minSize, maxSize)]: the division by zero yields
    [+Infinity], which the clamp cuts. *)
Theorem zero_size_scale (o : VAS.Object3D) (camera : VAS.Camera)
    (config : VAS.ViewAngleScalingConfig) :
  VAS.enabled config = true ->
  0 < VAS.targetAngularSize config < PI ->
  0 < VAS.distanceTo (VAS.camera_position camera) (VAS.position o) ->
  entitySize o = 0 ->
  fst (VAS.calculateViewBasedScale o camera config)
  = VAS.Num (Rmax (VAS.minSize config) (VAS.maxSize config)).
Proof.
  intros He Ha Hd Hs.
  rewrite (calculate_enabled o camera config He) by Lra.lra.
  rewrite Hs. cbn [fst].
  assert (Ht : 0 < tan (VAS.targetAngularSize config / 2)).
  { apply tan_gt_0; Lra.lra. }
  assert (Hq : 0 < 2 * VAS.distanceTo (VAS.camera_position camera) (VAS.position o)
                   * tan (VAS.targetAngularSize config / 2)).
  { apply Rmult_lt_0_compat; [Lra.lra | exact Ht]. }
  unfold VAS.xdiv. destruct (Req_dec_T 0 0) as [_|N]; [|now elim N].
  unfold VAS.Rsign.
  destruct (total_order_T _ 0) as [[L|E]|G]; try Lra.lra.
  reflexivity.
Qed.

Lemma zero_size_scale_witness :
  fst (VAS.calculateViewBasedScale
         {| VAS.position := vec 0 0 0; VAS.scale := VAS.Num 1;
            VAS.userData := {| VAS.originalSize := None; VAS.originalScale := None;
                               VAS.aspectRatio := None; VAS.viewAngleConfig := None |};
            VAS.boundingSize := vec 0 0 0 |}
         (cameraAt 1 0 0) (configOf 1 1 3))
  = VAS.Num (Rmax 1 3).
Proof.
  apply (zero_size_scale _ (cameraAt 1 0 0) (configOf 1 1 3)).
  - reflexivity.
  - simpl. pose proof PI2_1. Lra.lra.
  - simpl. rewrite (distance_axis 1); Lra.lra.
  - unfold entitySize, VAS.getObjectSize, VAS.maxDimension. simpl. Rminmax.
Defined.

(** X9.  Whatever the aspect ratio of the entity (absent, zero, [NaN]
    or infinite included), [applyShapeAdjustment] turns a base scale
    [b >= 0] into a number between [b / 2] and [2 b]. *)
Theorem shape_adjustment_within_factor_two (o : VAS.Object3D) (b : R) :
  0 <= b ->
  exists a, VAS.applyShapeAdjustment o (VAS.Num b) = VAS.Num a /\ b / 2 <= a <= 2 * b.
Proof.
  intro Hb.
  destruct (shapeAdjustment_bounds (VAS.aspectRatio (VAS.userData o))) as [k [Hk Hr]].
  exists (b * k). split.
  - unfold VAS.applyShapeAdjustment. unfold VAS.clamp in Hk. rewrite Hk. reflexivity.
  - split; Lra.nra.
Qed.

Lemma shape_adjustment_within_factor_two_witness :
  exists a, VAS.applyShapeAdjustment (entity 2 (Some VAS.PosInf)) (VAS.Num 3) = VAS.Num a /\
            3 / 2 <= a <= 2 * 3.
Proof.
  apply (shape_adjustment_within_factor_two (entity 2 (Some VAS.PosInf)) 3). Lra.lra.
Defined.

(** X10.  The per-frame scaling of an entity is idempotent for a camera
    that does not move: applying it to its own result changes neither
    the scale nor the cached size. *)
Theorem scaling_pass_idempotent (camera : VAS.Camera) (o : VAS.Object3D) :
  VAS.updateViewAngleScaling_object camera (VAS.updateViewAngleScaling_object camera o)
  = VAS.updateViewAngleScaling_object camera o.
Proof.
  unfold VAS.updateViewAngleScaling_object.
  destruct (VAS.viewAngleConfig (VAS.userData o)) as [config|] eqn:Ec; [|now rewrite Ec].
  destruct (VAS.enabled config) eqn:Ee; cbn [negb]; [|now rewrite Ec, Ee].
  unfold VAS.adjustedScale, VAS.calculateViewBasedScale. rewrite Ee. cbn [negb].
  destruct (Req_dec_T (VAS.distanceTo (VAS.camera_position camera) (VAS.position o)) 0)
    as [Hd|Hd].
  - cbn. rewrite Ec, Ee. cbn. destruct (Req_dec_T _ 0); [|contradiction]. reflexivity.
  - unfold VAS.getObjectSize.
    destruct (VAS.originalSize (VAS.userData o)) as [s|] eqn:Es.
    + destruct (Req_dec_T s 0) as [Hs|Hs].
      * cbn. rewrite Ec, Ee. cbn.
        destruct (Req_dec_T _ 0); [contradiction|].
        destruct (Req_dec_T (VAS.maxDimension o) 0) as [Hm|Hm]; reflexivity.
      * cbn. rewrite Ec, Ee. cbn.
        destruct (Req_dec_T _ 0); [contradiction|].
        rewrite Es. destruct (Req_dec_T s 0); [contradiction|]. reflexivity.
    + cbn. rewrite Ec, Ee. cbn.
      destruct (Req_dec_T _ 0); [contradiction|].
      destruct (Req_dec_T (VAS.maxDimension o) 0) as [Hm|Hm]; reflexivity.
Qed.

(* ================================================================== *)
(** * Further properties of the reconciler and the entity factory     *)
(* ================================================================== *)

Local Close Scope R_scope.
Local Close Scope Q_scope.
Local Open Scope nat_scope.
Local Open Scope string_scope.

Lemma consistent_ext (st st' : Scene.State) :
  Scene.store st' = Scene.store st -> Scene.nextRef st' = Scene.nextRef st ->
  Scene.scene st' = Scene.scene st -> Scene.objectsRef st' = Scene.objectsRef st ->
  consistent st -> consistent st'.
Proof.
  intros H1 H2 H3 H4 [A B C D E F].
  constructor; unfold liveRefs in *; rewrite ?H1, ?H2, ?H3, ?H4; assumption.
Qed.

Lemma map_get_split {V : Type} (k : string) (v : V) (mp : list (string * V)) :
  Scene.map_get k mp = Some v ->
  exists pre post,
    mp = (pre ++ (k, v) :: post)%list /\ Scene.map_delete k mp = (pre ++ post)%list.
Proof.
  induction mp as [|[k' v'] mp IH]; simpl; [discriminate|].
  destruct (String.eqb k' k) eqn:E.
  - intro H. injection H as ->. apply String.eqb_eq in E. subst k'.
    now exists [], mp.
  - intro H. destruct (IH H) as [pre [post [E1 E2]]].
    exists ((k', v') :: pre), post. simpl. now rewrite E1 at 1; rewrite E2.
Qed.

Lemma map_get_none {V : Type} (k : string) (mp : list (string * V)) :
  Scene.map_get k mp = None <-> ~ In k (Scene.map_keys mp).
Proof.
  induction mp as [|[k' v'] mp IH]; simpl.
  - split; [intros _ [] | reflexivity].
  - destruct (String.eqb k' k) eqn:E.
    + apply String.eqb_eq in E. split; [discriminate | intro H; elim H; now left].
    + apply String.eqb_neq in E. rewrite IH. split.
      * intros H [Hk|Hk]; [now elim E | now elim H].
      * intros H Hk. apply H. now right.
Qed.

Lemma map_set_fresh {V : Type} (k : string) (v : V) (mp : list (string * V)) :
  ~ In k (Scene.map_keys mp) -> Scene.map_set k v mp = (mp ++ [(k, v)])%list.
Proof.
  induction mp as [|[k' v'] mp IH]; simpl; intro H; [reflexivity|].
  destruct (String.eqb k' k) eqn:E.
  - apply String.eqb_eq in E. elim H. now left.
  - rewrite IH; [reflexivity|]. intro Hk. apply H. now right.
Qed.

Lemma has_spec {V : Type} (k : string) (mp : list (string * V)) :
  Scene.has k mp = false <-> ~ In k (Scene.map_keys mp).
Proof.
  unfold Scene.has. rewrite <- map_get_none.
  destruct (Scene.map_get k mp); split; congruence.
Qed.

Lemma deref_app (r : Scene.Ref) (st : list (Scene.Ref * Scene.Object3D)) (r' : Scene.Ref)
    (o : Scene.Object3D) :
  Scene.deref r st <> None -> Scene.deref r (st ++ [(r', o)]) <> None.
Proof.
  induction st as [|[r0 o0] st IH]; simpl; [congruence|].
  destruct (Nat.eqb r0 r); [congruence | exact IH].
Qed.

Lemma deref_new (r : Scene.Ref) (st : list (Scene.Ref * Scene.Object3D)) (o : Scene.Object3D) :
  Scene.deref r (st ++ [(r, o)]) <> None.
Proof.
  induction st as [|[r0 o0] st IH]; simpl.
  - rewrite Nat.eqb_refl. congruence.
  - destruct (Nat.eqb r0 r); [congruence | exact IH].
Qed.

Lemma deref_assign (r r' : Scene.Ref) (o : Scene.Object3D) (st : list (Scene.Ref * Scene.Object3D)) :
  Scene.deref r st <> None -> Scene.deref r (Scene.assign r' o st) <> None.
Proof.
  induction st as [|[r0 o0] st IH]; simpl; [congruence|].
  destruct (Nat.eqb r0 r') eqn:E; simpl; destruct (Nat.eqb r0 r); try congruence; exact IH.
Qed.

Lemma consistent_removeObject (st : Scene.State) (sid : string) :
  consistent st ->
  consistent (Scene.removeObject st sid) /\
  (forall k, In k (Scene.map_keys (Scene.objectsRef (Scene.removeObject st sid))) ->
             In k (Scene.map_keys (Scene.objectsRef st)) /\ k <> sid).
Proof.
  intros [A B C D E F]. unfold Scene.removeObject.
  destruct (Scene.map_get sid (Scene.objectsRef st)) as [r|] eqn:G.
  - destruct (map_get_split sid r _ G) as [pre [post [E1 E2]]].
    unfold liveRefs, Scene.map_keys in *. state_fields. rewrite E2.
    rewrite E1 in A, B, D, E, F.
    rewrite List.map_app in *. cbn [List.map fst snd] in *.
    pose proof (NoDup_remove _ _ _ A) as [A1 A2].
    pose proof (NoDup_remove _ _ _ B) as [B1 B2].
    split; [constructor|]; unfold liveRefs, Scene.map_keys; state_fields;
      rewrite ?E2, ?List.map_app.
    + exact A1.
    + exact B1.
    + now apply NoDup_filter.
    + intro r'. rewrite filter_In, D, !in_app_iff. cbn [In].
      rewrite in_app_iff in B2.
      split.
      * intros [[H|[H|H]] N]; auto.
        subst r'. rewrite Nat.eqb_refl in N. discriminate.
      * intros H. split; [tauto|].
        apply negb_true_iff, Nat.eqb_neq. intros ->. tauto.
    + intros r' H. apply E. rewrite in_app_iff in *. cbn [In]. tauto.
    + intros r' H. apply F. rewrite in_app_iff in *. cbn [In]. tauto.
    + intros k H. rewrite in_app_iff in H. rewrite E1, List.map_app, in_app_iff.
      cbn [List.map fst In].
      split; [tauto|]. intros ->. apply A2. now rewrite in_app_iff.
  - split; [now constructor|].
    intros k H. split; [assumption|]. intros ->.
    apply map_get_none in G. contradiction.
Qed.

Lemma consistent_allocate (st : Scene.State) (o : Scene.Object3D) :
  consistent st -> consistent (snd (Scene.allocate st o)).
Proof.
  intros [A B C D E F]. unfold Scene.allocate.
  constructor; unfold liveRefs in *; state_fields; try assumption.
  - intros r H. specialize (E r H). lia.
  - intros r H. apply deref_app. now apply F.
Qed.

Lemma consistent_mutate (st : Scene.State) (r : Scene.Ref) (o : Scene.Object3D) :
  consistent st -> consistent (Scene.mutate st r o).
Proof.
  intros [A B C D E F]. unfold Scene.mutate.
  constructor; unfold liveRefs in *; state_fields; try assumption.
  intros r' H. apply deref_assign. now apply F.
Qed.

Lemma consistent_add (st : Scene.State) (o : Scene.Object3D) (sid : string) :
  consistent st -> ~ In sid (Scene.map_keys (Scene.objectsRef st)) ->
  consistent (Scene.addObjectToScene (snd (Scene.allocate st o)) (Scene.nextRef st) sid).
Proof.
  intros [A B C D E F] N. unfold Scene.addObjectToScene, Scene.allocate.
  assert (Fresh : ~ In (Scene.nextRef st) (liveRefs st)).
  { intro H. specialize (E _ H). lia. }
  constructor; unfold liveRefs, Scene.map_keys in *; state_fields;
    rewrite ?(map_set_fresh _ _ _ N), ?List.map_app; cbn [List.map fst snd].
  - apply NoDup_app; [assumption | repeat constructor; intros [] | ].
    intros k Hk [<-|[]]. contradiction.
  - apply NoDup_app; [assumption | repeat constructor; intros [] | ].
    intros k Hk [<-|[]]. contradiction.
  - apply NoDup_app; [now apply NoDup_filter | repeat constructor; intros [] | ].
    intros k Hk [<-|[]]. apply filter_In in Hk. destruct Hk as [_ Hk].
    rewrite Nat.eqb_refl in Hk. discriminate.
  - intro r. rewrite !in_app_iff, filter_In, D. cbn [In].
    split.
    + intros [[H _]|H]; tauto.
    + intros [H|[<-|[]]]; [|now right; left].
      left. split; [assumption|].
      apply negb_true_iff, Nat.eqb_neq. intros ->. contradiction.
  - intros r. rewrite in_app_iff. cbn [In]. intros [H|[<-|[]]]; [|lia].
    specialize (E r H). lia.
  - intros r. rewrite in_app_iff. cbn [In]. intros [H|[<-|[]]].
    + apply deref_app. now apply F.
    + apply deref_new.
Qed.

Section Invariant.

Variable data : option PanelData.
Variable nts : JS.number -> string.
Variable gltfLoader : string -> option Scene.GLTF.

Lemma add_keys (st : Scene.State) (o : Scene.Object3D) (sid : string) :
  ~ In sid (Scene.map_keys (Scene.objectsRef st)) ->
  Scene.map_keys (Scene.objectsRef
    (Scene.addObjectToScene (snd (Scene.allocate st o)) (Scene.nextRef st) sid))
  = (Scene.map_keys (Scene.objectsRef st) ++ [sid])%list.
Proof.
  intro N. unfold Scene.addObjectToScene, Scene.allocate, Scene.map_keys in *. state_fields.
  now rewrite (map_set_fresh _ _ _ N), List.map_app.
Qed.

Lemma allocate_eq (st : Scene.State) (o : Scene.Object3D) :
  Scene.allocate st o = (Scene.nextRef st, snd (Scene.allocate st o)).
Proof. reflexivity. Qed.

Lemma step_same (st st' : Scene.State) (shape : Shape) :
  Scene.store st' = Scene.store st -> Scene.nextRef st' = Scene.nextRef st ->
  Scene.scene st' = Scene.scene st -> Scene.objectsRef st' = Scene.objectsRef st ->
  consistent st -> step_ok st st' shape.
Proof.
  intros H1 H2 H3 H4 C. split; [now apply (consistent_ext st) | ].
  intros k H. left. now rewrite <- H4.
Qed.

Lemma step_created (st st0 : Scene.State) (o : Scene.Object3D) (shape : Shape) :
  visible (base shape) = true ->
  consistent st0 ->
  (forall k, In k (Scene.map_keys (Scene.objectsRef st0)) ->
             In k (Scene.map_keys (Scene.objectsRef st))) ->
  ~ In (id (base shape)) (Scene.map_keys (Scene.objectsRef st0)) ->
  step_ok st
    (Scene.addObjectToScene (snd (Scene.allocate st0 o)) (Scene.nextRef st0) (id (base shape)))
    shape.
Proof.
  intros V C S N. split; [now apply consistent_add|].
  intro k. rewrite (add_keys st0 o _ N), in_app_iff. cbn [In].
  intros [H|[<-|[]]]; [left; now apply S | right; now split].
Qed.

Lemma removed_key (st : Scene.State) (sid : string) :
  consistent st ->
  ~ In sid (Scene.map_keys (Scene.objectsRef (Scene.removeObject st sid))).
Proof.
  intros C H. destruct (consistent_removeObject st sid C) as [_ K].
  destruct (K sid H) as [_ N]. now elim N.
Qed.

Lemma reconcileShape_step (st : Scene.State) (shape : Shape) :
  consistent st ->
  step_ok st (fst (Scene.reconcileShape data nts gltfLoader st shape)) shape.
Proof.
  intro C. unfold Scene.reconcileShape.
  destruct (visible (base shape)) eqn:V; cbn [negb].
  2:{ destruct (Scene.has (id (base shape)) (Scene.objectsRef st)); cbn [fst].
      - destruct (consistent_removeObject st (id (base shape)) C) as [C1 K].
        split; [exact C1|]. intros k H. left. now apply K.
      - now apply step_same. }
  destruct (Scene.has (id (base shape)) (Scene.objectsRef st)) eqn:Hh.
  - cbn [fst]. unfold Scene.updateObject. rewrite V. cbn [negb].
    destruct (Scene.map_get (id (base shape)) (Scene.objectsRef st)) as [r|];
      [|now apply step_same].
    destruct (Scene.deref r (Scene.store st)) as [existing|]; [|now apply step_same].
    destruct (consistent_removeObject st (id (base shape)) C) as [C1 K].
    pose proof (removed_key st (id (base shape)) C) as N.
    destruct shape as [b s|b a|b p|b d]; cbn [base] in *.
    + split; [now apply consistent_mutate | intros k H; now left].
    + split; [now apply consistent_mutate | intros k H; now left].
    + rewrite allocate_eq.
      apply (step_created st (Scene.removeObject st (id b)) _ (Polyline b p));
        try assumption. intros k H. now apply K.
    + destruct (negb (String.eqb (Scene.currentUrl existing) (url d))).
      * unfold Scene.create3DModel_start.
        destruct (Scene.noUrl d).
        -- rewrite allocate_eq.
           split.
           ++ apply (consistent_ext (snd (Scene.allocate (Scene.removeObject st (id b))
                  (Scene.createDefaultCube data (Scene.globalViewAngleSettings
                     (Scene.removeObject st (id b))) b d
                     (Scene.getLast data (model_posX d) (JS.Fin 0),
                      Scene.getLast data (model_posY d) (JS.Fin 0),
                      Scene.getLast data (model_posZ d) (JS.Fin 0))))));
                try reflexivity.
              now apply consistent_allocate.
           ++ intros k H. left. now apply K.
        -- split.
           ++ apply (consistent_ext (Scene.removeObject st (id b))); try reflexivity.
              exact C1.
           ++ intros k H. left. now apply K.
      * split; [now apply consistent_mutate | intros k H; now left].
  - apply has_spec in Hh.
    destruct shape as [b s|b a|b p|b d]; cbn [base] in *.
    + rewrite allocate_eq. cbn [fst].
      apply (step_created st st _ (Sphere b s)); auto.
    + rewrite allocate_eq. cbn [fst].
      apply (step_created st st _ (Annotation b a)); auto.
    + rewrite allocate_eq. cbn [fst].
      apply (step_created st st _ (Polyline b p)); auto.
    + unfold Scene.create3DModel_start.
      destruct (Scene.noUrl d).
      * rewrite allocate_eq. cbn [fst].
        apply (step_created st st _ (Model b d)); auto.
      * unfold Scene.create3DModel_finish.
        cbn [Scene.ticket_base Scene.ticket_version Scene.ticket_shape Scene.ticket_position
             Scene.loadingVersions Scene.set_loadingVersions].
        rewrite map_get_set_same, Nat.eqb_refl. cbn [negb].
        destruct (gltfLoader (url d)) as [gltf|].
        -- rewrite allocate_eq. cbn [fst].
           match goal with
           | |- step_ok _ (Scene.addObjectToScene (snd (Scene.allocate ?s0 _)) _ _) _ =>
               apply (step_created st s0 _ (Model b d)); auto
           end.
           apply (consistent_ext st); auto.
        -- cbn [fst]. now apply step_same.
Qed.

Lemma reconcileAll_consistent (objects : list Shape) (ids : list string) (st : Scene.State) :
  consistent st ->
  (forall sh, In sh objects -> visible (base sh) = true -> In (id (base sh)) ids) ->
  (forall k, In k (Scene.map_keys (Scene.objectsRef st)) -> In k ids) ->
  consistent (Scene.reconcileAll data nts gltfLoader st objects) /\
  (forall k, In k (Scene.map_keys
                     (Scene.objectsRef (Scene.reconcileAll data nts gltfLoader st objects))) ->
             In k ids).
Proof.
  revert st. induction objects as [|sh objects IH]; intros st C Hv Hk; simpl.
  - now split.
  - destruct (reconcileShape_step st sh C) as [C1 K1].
    assert (K : forall k,
      In k (Scene.map_keys (Scene.objectsRef
              (fst (Scene.reconcileShape data nts gltfLoader st sh)))) -> In k ids).
    { intros k H. destruct (K1 k H) as [H1|[V ->]]; [now apply Hk|].
      apply Hv; [now left | assumption]. }
    destruct (Scene.reconcileShape data nts gltfLoader st sh) as [st' [|]]; cbn [fst] in *.
    + apply IH; try assumption. intros s Hs. apply Hv. now right.
    + now split.
Qed.

Lemma removeObjects_consistent (toRemove : list string) (st : Scene.State) :
  consistent st ->
  consistent (Scene.removeObjectsFromScene st toRemove) /\
  (forall k, In k (Scene.map_keys (Scene.objectsRef (Scene.removeObjectsFromScene st toRemove))) ->
             In k (Scene.map_keys (Scene.objectsRef st)) /\ ~ In k toRemove).
Proof.
  revert st. unfold Scene.removeObjectsFromScene.
  induction toRemove as [|sid rest IH]; intros st C; simpl.
  - split; [assumption|]. intros k H. split; [assumption | intros []].
  - destruct (consistent_removeObject st sid C) as [C1 K1].
    destruct (IH _ C1) as [C2 K2]. split; [assumption|].
    intros k H. destruct (K2 k H) as [H1 H2]. destruct (K1 k H1) as [H3 H4].
    split; [assumption|]. intros [E|E]; [now elim H4 | contradiction].
Qed.

End Invariant.

Lemma member_spec (k : string) (ks : list string) :
  Scene.member k ks = true <-> In k ks.
Proof.
  unfold Scene.member. rewrite existsb_exists. split.
  - intros [x [H E]]. apply String.eqb_eq in E. now subst.
  - intro H. exists k. split; [assumption | apply String.eqb_refl].
Qed.

Lemma visible_ids (objects : list Shape) (k : string) :
  In k (List.map (fun obj => id (base obj))
          (List.filter (fun obj => visible (base obj)) objects)) <->
  exists sh, In sh objects /\ visible (base sh) = true /\ id (base sh) = k.
Proof.
  rewrite in_map_iff. split.
  - intros [sh [E H]]. apply filter_In in H. exists sh. tauto.
  - intros [sh [H [V E]]]. exists sh. rewrite filter_In. tauto.
Qed.

Section Passes.

Variable data : option PanelData.
Variable nts : JS.number -> string.
Variable gltfLoader : string -> option Scene.GLTF.

Lemma updateObjects_consistent (st : Scene.State) (objects : list Shape) :
  consistent st ->
  consistent (Scene.updateObjects data nts gltfLoader st objects) /\
  (forall k, In k (Scene.map_keys
                     (Scene.objectsRef (Scene.updateObjects data nts gltfLoader st objects))) ->
             exists sh, In sh objects /\ visible (base sh) = true /\ id (base sh) = k).
Proof.
  intro C. unfold Scene.updateObjects.
  set (ids := List.map (fun obj => id (base obj))
                (List.filter (fun obj => visible (base obj)) objects)).
  set (toRemove := List.filter (fun k => negb (Scene.member k ids))
                     (Scene.map_keys (Scene.objectsRef st))).
  destruct (removeObjects_consistent toRemove st C) as [C1 K1].
  destruct (reconcileAll_consistent data nts gltfLoader objects ids
              (Scene.removeObjectsFromScene st toRemove) C1) as [C2 K2].
  - intros sh H V. apply visible_ids. now exists sh.
  - intros k H. destruct (K1 k H) as [H1 H2].
    destruct (Scene.member k ids) eqn:M; [now apply member_spec|].
    elim H2. unfold toRemove. rewrite filter_In, M. now split.
  - split; [exact C2|]. intros k H. apply visible_ids. now apply K2.
Qed.



(** X13.  When a second load is started for an identifier while the
    first is in flight, the result of the first is dropped: its promise
    never settles and the state is left as it is.  The second one
    resolves with a new entity when the loader delivers the asset and
    is rejected when it does not.  After [dispose()] no load in flight
    settles any more. *)
Theorem superseded_load_is_dropped (st : Scene.State) (b1 b2 : BaseShape) (d1 d2 : ModelShape) :
  Scene.noUrl d1 = false -> Scene.noUrl d2 = false -> id b1 = id b2 ->
  exists t1 st1 t2 st2,
    Scene.create3DModel_start data st b1 d1 = (Scene.InFlight t1, st1) /\
    Scene.create3DModel_start data st1 b2 d2 = (Scene.InFlight t2, st2) /\
    Scene.create3DModel_finish data gltfLoader st2 t1 = (Scene.NeverSettles, st2) /\
    (forall gltf, gltfLoader (url d2) = Some gltf ->
       fst (Scene.create3DModel_finish data gltfLoader st2 t2)
       = Scene.Resolved (Scene.nextRef st2)) /\
    (gltfLoader (url d2) = None ->
       Scene.create3DModel_finish data gltfLoader st2 t2 = (Scene.Rejected, st2)) /\
    (forall t, Scene.create3DModel_finish data gltfLoader (Scene.dispose st2) t
               = (Scene.NeverSettles, Scene.dispose st2)).
Proof.
  intros N1 N2 E.
  unfold Scene.create3DModel_start. rewrite N1, N2.
  do 4 eexists. split; [reflexivity|]. split; [reflexivity|].
  unfold Scene.create3DModel_finish, Scene.dispose.
  cbn [Scene.ticket_base Scene.ticket_version Scene.ticket_shape Scene.ticket_position
       Scene.loadingVersions Scene.set_loadingVersions Scene.map_get].
  rewrite <- E, !map_get_set_same.
  repeat split.
  - assert (F : forall n, Nat.eqb (S (S n)) (S n) = false)
      by (intro n; apply Nat.eqb_neq; lia).
    now rewrite F.
  - intros gltf G. rewrite Nat.eqb_refl, G. reflexivity.
  - intro G. now rewrite Nat.eqb_refl, G.
Qed.

End Passes.



Lemma superseded_load_is_dropped_witness :
  exists t1 st1 t2 st2,
    Scene.create3DModel_start None (Scene.initialState None)
      {| id := "M"; name := "M"; visible := true |} (modelShape "a.glb")
    = (Scene.InFlight t1, st1) /\
    Scene.create3DModel_start None st1
      {| id := "M"; name := "M"; visible := true |} (modelShape "b.glb")
    = (Scene.InFlight t2, st2) /\
    Scene.create3DModel_finish None noLoader st2 t1 = (Scene.NeverSettles, st2).
Proof.
  destruct (superseded_load_is_dropped None noLoader (Scene.initialState None)
              {| id := "M"; name := "M"; visible := true |}
              {| id := "M"; name := "M"; visible := true |}
              (modelShape "a.glb") (modelShape "b.glb"))
    as [t1 [st1 [t2 [st2 [H1 [H2 [H3 _]]]]]]]; try reflexivity.
  exists t1, st1, t2, st2. now repeat split.
Defined.

Lemma zip3_length (xs ys zs : list JS.number) :
  length (Scene.zip3 xs ys zs) = shortest xs ys zs.
Proof.
  unfold shortest. revert ys zs.
  induction xs as [|x xs IH]; intros [|y ys] [|z zs]; simpl; try lia.
  rewrite IH. lia.
Qed.

Lemma zip3_nth (xs ys zs : list JS.number) (i : nat) (d : JS.number) :
  i < shortest xs ys zs ->
  List.nth_error (Scene.zip3 xs ys zs) i
  = Some (List.nth i xs d, List.nth i ys d, List.nth i zs d).
Proof.
  unfold shortest. revert ys zs i.
  induction xs as [|x xs IH]; intros [|y ys] [|z zs] i; simpl; try lia.
  destruct i as [|i]; [reflexivity|]. intro H. apply IH. lia.
Qed.

Lemma createPolyline_points (data : option PanelData) (b : BaseShape) (p : PolylineShape) :
  geometryPoints (Scene.geometry (Scene.createPolyline data b p))
  = Scene.closeLoop (closePath p)
      (Scene.zip3
         (DataFieldProcessor.getDataFieldValue data (Some (pointsX p)) (JS.Fin 0))
         (DataFieldProcessor.getDataFieldValue data (Some (pointsY p)) (JS.Fin 0))
         (DataFieldProcessor.getDataFieldValue data (Some (pointsZ p)) (JS.Fin 0))).
Proof.
  unfold Scene.createPolyline. cbn [Scene.geometry].
  match goal with |- context [if ?c then _ else _] => destruct c end; reflexivity.
Qed.

(** X14.  The polyline built from the three coordinate arrays has as
    many points as the shortest of them, at least one, point [i]
    taking its coordinates at index [i] of each array; with
    [closePath] on, one more point follows, equal to the first. *)
Theorem polyline_points (data : option PanelData) (b : BaseShape) (p : PolylineShape) :
  let xs := DataFieldProcessor.getDataFieldValue data (Some (pointsX p)) (JS.Fin 0) in
  let ys := DataFieldProcessor.getDataFieldValue data (Some (pointsY p)) (JS.Fin 0) in
  let zs := DataFieldProcessor.getDataFieldValue data (Some (pointsZ p)) (JS.Fin 0) in
  let n := shortest xs ys zs in
  let pts := geometryPoints (Scene.geometry (Scene.createPolyline data b p)) in
  1 <= n /\
  (forall i, i < n ->
     List.nth_error pts i
     = Some (List.nth i xs (JS.Fin 0), List.nth i ys (JS.Fin 0), List.nth i zs (JS.Fin 0))) /\
  (closePath p = off -> length pts = n) /\
  (closePath p = on -> length pts = S n /\ List.nth_error pts n = List.nth_error pts 0).
Proof.
  intros xs ys zs n pts.
  assert (Hn : 1 <= n).
  { unfold n, shortest.
    pose proof (getDataFieldValue_nonempty data (Some (pointsX p)) (JS.Fin 0)) as Hx.
    pose proof (getDataFieldValue_nonempty data (Some (pointsY p)) (JS.Fin 0)) as Hy.
    pose proof (getDataFieldValue_nonempty data (Some (pointsZ p)) (JS.Fin 0)) as Hz.
    fold xs in Hx. fold ys in Hy. fold zs in Hz.
    destruct xs; [now elim Hx|]. destruct ys; [now elim Hy|]. destruct zs; [now elim Hz|].
    simpl. lia. }
  assert (E : pts = Scene.closeLoop (closePath p) (Scene.zip3 xs ys zs))
    by apply createPolyline_points.
  pose proof (zip3_length xs ys zs) as L. fold n in L.
  pose proof (fun i => zip3_nth xs ys zs i (JS.Fin 0)) as Z. fold n in Z.
  split; [exact Hn|]. rewrite E. unfold Scene.closeLoop.
  destruct (Scene.zip3 xs ys zs) as [|q qs] eqn:Q; [simpl in L; lia|].
  split; [|split].
  - intros i Hi. rewrite <- (Z i Hi).
    destruct (closePath p); [|reflexivity].
    apply nth_error_app1. lia.
  - intros ->. exact L.
  - intros ->. split.
    + rewrite List.length_app, L. simpl. lia.
    + rewrite nth_error_app2 by lia. rewrite L, Nat.sub_diag. reflexivity.
Qed.



Lemma withSettings_idempotent (g : ViewAngleScalingSettings) (o : Scene.Object3D) :
  Scene.withSettings g (Scene.withSettings g o) = Scene.withSettings g o.
Proof.
  unfold Scene.withSettings.
  destruct (Scene.viewAngleConfig (Scene.userData o)) as [c|] eqn:E.
  - reflexivity.
  - now rewrite E.
Qed.

Lemma deref_assign_same (r : Scene.Ref) (o o0 : Scene.Object3D)
    (st : list (Scene.Ref * Scene.Object3D)) :
  Scene.deref r st = Some o0 -> Scene.deref r (Scene.assign r o st) = Some o.
Proof.
  induction st as [|[r1 o1] st IH]; simpl; [discriminate|].
  destruct (Nat.eqb r1 r) eqn:E; simpl; rewrite E; [reflexivity | exact IH].
Qed.

Lemma deref_assign_other (r r' : Scene.Ref) (o : Scene.Object3D)
    (st : list (Scene.Ref * Scene.Object3D)) :
  r' <> r -> Scene.deref r' (Scene.assign r o st) = Scene.deref r' st.
Proof.
  intro N. induction st as [|[r1 o1] st IH]; simpl; [reflexivity|].
  destruct (Nat.eqb r1 r) eqn:E; simpl.
  - apply Nat.eqb_eq in E. subst r1.
    destruct (Nat.eqb r r') eqn:E'; [apply Nat.eqb_eq in E'; now elim N | reflexivity].
  - destruct (Nat.eqb r1 r'); [reflexivity | exact IH].
Qed.

Lemma applySettings_fold (g : ViewAngleScalingSettings) (entries : list (string * Scene.Ref))
    (st : Scene.State) :
  let st' := List.fold_left (Scene.applySettings g) entries st in
  Scene.nextRef st' = Scene.nextRef st /\ Scene.scene st' = Scene.scene st /\
  Scene.objectsRef st' = Scene.objectsRef st /\
  Scene.loadingVersions st' = Scene.loadingVersions st /\
  Scene.globalViewAngleSettings st' = Scene.globalViewAngleSettings st /\
  Scene.pending st' = Scene.pending st /\ Scene.trace st' = Scene.trace st /\
  forall r,
    Scene.deref r (Scene.store st')
    = match Scene.deref r (Scene.store st) with
      | Some o =>
          Some (if List.existsb (Nat.eqb r) (List.map snd entries)
                then Scene.withSettings g o else o)
      | None => None
      end.
Proof.
  revert st. induction entries as [|[k r0] entries IH]; intro st; simpl.
  - repeat split. intro r. now destruct (Scene.deref r (Scene.store st)).
  - destruct (IH (Scene.applySettings g st (k, r0))) as [A [B [C [D [E [F [G H]]]]]]].
    unfold Scene.applySettings in *. cbn [snd] in *.
    destruct (Scene.deref r0 (Scene.store st)) as [o0|] eqn:D0.
    + unfold Scene.mutate in *. state_fields.
      repeat split; try assumption.
      intro r. rewrite H.
      destruct (Nat.eqb r r0) eqn:R.
      * apply Nat.eqb_eq in R. subst r.
        rewrite (deref_assign_same r0 _ o0 _ D0), D0. cbn [orb].
        destruct (List.existsb (Nat.eqb r0) (List.map snd entries));
          [now rewrite withSettings_idempotent | reflexivity].
      * apply Nat.eqb_neq in R. rewrite (deref_assign_other r0 r _ _ R). reflexivity.
    + repeat split; try assumption.
      intro r. rewrite H.
      destruct (Nat.eqb r r0) eqn:R; [|reflexivity].
      apply Nat.eqb_eq in R. subst r. now rewrite D0.
Qed.

(** X16.  [updateGlobalViewAngleSettings(g)] records [g], leaves the
    map, the scene graph and the trace as they are, and rewrites the
    [viewAngleConfig] of every entity of the map that has one to the
    three values of [g], keeping its [enabled] flag, its size, its
    scale factor and all of the entity outside [userData]; objects
    outside the map are untouched. *)
Theorem settings_update_reaches_live_entities (st : Scene.State) (g : ViewAngleScalingSettings) :
  let st' := Scene.updateGlobalViewAngleSettings st g in
  Scene.globalViewAngleSettings st' = g /\
  Scene.objectsRef st' = Scene.objectsRef st /\ Scene.scene st' = Scene.scene st /\
  Scene.trace st' = Scene.trace st /\
  (forall r o, In r (liveRefs st) -> Scene.deref r (Scene.store st) = Some o ->
     exists o',
       Scene.deref r (Scene.store st') = Some o' /\
       Scene.set_userData o' (Scene.userData o) = o /\
       Scene.originalSize (Scene.userData o') = Scene.originalSize (Scene.userData o) /\
       Scene.originalScale (Scene.userData o') = Scene.originalScale (Scene.userData o) /\
       Scene.viewAngleConfig (Scene.userData o')
       = option_map (fun c => Scene.makeViewAngleConfig g (Scene.enabled c))
           (Scene.viewAngleConfig (Scene.userData o))) /\
  (forall r, ~ In r (liveRefs st) ->
     Scene.deref r (Scene.store st') = Scene.deref r (Scene.store st)).
Proof.
  intro st'. unfold st', Scene.updateGlobalViewAngleSettings.
  destruct (applySettings_fold g (Scene.objectsRef st) (Scene.set_globalViewAngleSettings st g))
    as [A [B [C [D [E [F [G H]]]]]]].
  unfold Scene.set_globalViewAngleSettings in *. state_fields.
  repeat split; try assumption.
  - intros r o Hin Hd. rewrite H, Hd.
    assert (X : List.existsb (Nat.eqb r) (List.map snd (Scene.objectsRef st)) = true).
    { apply existsb_exists. exists r. split; [exact Hin | apply Nat.eqb_refl]. }
    rewrite X. exists (Scene.withSettings g o). split; [reflexivity|].
    unfold Scene.withSettings.
    destruct (Scene.viewAngleConfig (Scene.userData o)) as [c|] eqn:Ec.
    + split; [destruct o; reflexivity | repeat split].
    + split; [destruct o; reflexivity | now rewrite Ec].
  - intros r Hn. rewrite H.
    assert (X : List.existsb (Nat.eqb r) (List.map snd (Scene.objectsRef st)) = false).
    { apply not_true_is_false. intro T. apply existsb_exists in T.
      destruct T as [x [Hx Ex]]. apply Nat.eqb_eq in Ex. subst x. contradiction. }
    rewrite X. now destruct (Scene.deref r (Scene.store st)).
Qed.

Lemma disposals_disposed (t : list Scene.Event) (r : Scene.Ref) :
  Scene.disposals (t ++ [Scene.Disposed r]) = (Scene.disposals t ++ [r])%list.
Proof. unfold Scene.disposals. now rewrite flat_map_app. Qed.

Lemma disposals_created (t : list Scene.Event) (r : Scene.Ref) :
  Scene.disposals (t ++ [Scene.Created r]) = Scene.disposals t.
Proof. unfold Scene.disposals. rewrite flat_map_app. simpl. apply app_nil_r. Qed.

Lemma noReuse_ext (st st' : Scene.State) :
  Scene.trace st' = Scene.trace st -> Scene.nextRef st' = Scene.nextRef st ->
  Scene.objectsRef st' = Scene.objectsRef st ->
  noReuse st -> noReuse st'.
Proof.
  intros H1 H2 H3 [A B C].
  constructor; unfold retired, liveRefs in *; rewrite ?H1, ?H2, ?H3; assumption.
Qed.

Lemma noReuse_removeObject (st : Scene.State) (sid : string) :
  consistent st -> noReuse st -> noReuse (Scene.removeObject st sid).
Proof.
  intros [A B C D E F] [R1 R2 R3]. unfold Scene.removeObject.
  destruct (Scene.map_get sid (Scene.objectsRef st)) as [r|] eqn:G;
    [|now constructor].
  destruct (map_get_split sid r _ G) as [pre [post [E1 E2]]].
  unfold liveRefs in *. rewrite E1, List.map_app in B, E, R2.
  cbn [List.map snd] in B, E, R2.
  pose proof (NoDup_remove _ _ _ B) as [B1 B2].
  assert (Live : In r (List.map snd pre ++ r :: List.map snd post))
    by (apply in_or_app; right; now left).
  constructor; unfold retired, liveRefs; state_fields;
    rewrite disposals_disposed, ?E2, ?List.map_app.
  - apply NoDup_app; [assumption | repeat constructor; intros [] |].
    intros x Hx [Ex|[]]. subst x. now apply (R2 r Hx).
  - intros x Hx Hl. apply in_app_iff in Hx. destruct Hx as [Hx|[Ex|[]]].
    + apply (R2 x Hx). rewrite in_app_iff in *. cbn [In]. tauto.
    + subst x. contradiction.
  - intros x Hx. apply in_app_iff in Hx. destruct Hx as [Hx|[Ex|[]]].
    + now apply R3.
    + subst x. now apply E.
Qed.

Lemma noReuse_allocate (st : Scene.State) (o : Scene.Object3D) :
  noReuse st -> noReuse (snd (Scene.allocate st o)).
Proof.
  intros [R1 R2 R3]. unfold Scene.allocate.
  constructor; unfold retired, liveRefs in *; state_fields;
    rewrite disposals_created; try assumption.
  intros r H. specialize (R3 r H). lia.
Qed.

Lemma noReuse_mutate (st : Scene.State) (r : Scene.Ref) (o : Scene.Object3D) :
  noReuse st -> noReuse (Scene.mutate st r o).
Proof. apply noReuse_ext; reflexivity. Qed.

Lemma noReuse_add (st : Scene.State) (o : Scene.Object3D) (sid : string) :
  noReuse st -> ~ In sid (Scene.map_keys (Scene.objectsRef st)) ->
  noReuse (Scene.addObjectToScene (snd (Scene.allocate st o)) (Scene.nextRef st) sid).
Proof.
  intros [R1 R2 R3] N. unfold Scene.addObjectToScene, Scene.allocate.
  constructor; unfold retired, liveRefs in *; state_fields;
    rewrite disposals_created, ?(map_set_fresh _ _ _ N), ?List.map_app; cbn [List.map snd].
  - assumption.
  - intros r H Hl. apply in_app_iff in Hl. destruct Hl as [Hl|[El|[]]].
    + now apply (R2 r H).
    + specialize (R3 _ H). lia.
  - intros r H. specialize (R3 r H). lia.
Qed.

Section Disposal.

Variable data : option PanelData.
Variable nts : JS.number -> string.
Variable gltfLoader : string -> option Scene.GLTF.

Lemma reconcileShape_noReuse (st : Scene.State) (shape : Shape) :
  consistent st -> noReuse st ->
  noReuse (fst (Scene.reconcileShape data nts gltfLoader st shape)).
Proof.
  intros C R. unfold Scene.reconcileShape.
  destruct (visible (base shape)) eqn:V; cbn [negb].
  2:{ destruct (Scene.has (id (base shape)) (Scene.objectsRef st)); cbn [fst];
        [now apply noReuse_removeObject | assumption]. }
  destruct (Scene.has (id (base shape)) (Scene.objectsRef st)) eqn:Hh.
  - cbn [fst]. unfold Scene.updateObject. rewrite V. cbn [negb].
    destruct (Scene.map_get (id (base shape)) (Scene.objectsRef st)) as [r|];
      [|assumption].
    destruct (Scene.deref r (Scene.store st)) as [existing|]; [|assumption].
    pose proof (noReuse_removeObject st (id (base shape)) C R) as R1.
    pose proof (removed_key st (id (base shape)) C) as N.
    destruct shape as [b s|b a|b p|b d]; cbn [base] in *.
    + now apply noReuse_mutate.
    + now apply noReuse_mutate.
    + rewrite allocate_eq. now apply noReuse_add.
    + destruct (negb (String.eqb (Scene.currentUrl existing) (url d))).
      * unfold Scene.create3DModel_start.
        destruct (Scene.noUrl d).
        -- rewrite allocate_eq.
           apply (noReuse_ext (snd (Scene.allocate (Scene.removeObject st (id b))
                  (Scene.createDefaultCube data (Scene.globalViewAngleSettings
                     (Scene.removeObject st (id b))) b d
                     (Scene.getLast data (model_posX d) (JS.Fin 0),
                      Scene.getLast data (model_posY d) (JS.Fin 0),
                      Scene.getLast data (model_posZ d) (JS.Fin 0))))));
             try reflexivity.
           now apply noReuse_allocate.
        -- apply (noReuse_ext (Scene.removeObject st (id b))); try reflexivity.
           exact R1.
      * now apply noReuse_mutate.
  - apply has_spec in Hh.
    destruct shape as [b s|b a|b p|b d]; cbn [base] in *.
    + rewrite allocate_eq. cbn [fst]. now apply noReuse_add.
    + rewrite allocate_eq. cbn [fst]. now apply noReuse_add.
    + rewrite allocate_eq. cbn [fst]. now apply noReuse_add.
    + unfold Scene.create3DModel_start.
      destruct (Scene.noUrl d).
      * rewrite allocate_eq. cbn [fst]. now apply noReuse_add.
      * unfold Scene.create3DModel_finish.
        cbn [Scene.ticket_base Scene.ticket_version Scene.ticket_shape Scene.ticket_position
             Scene.loadingVersions Scene.set_loadingVersions].
        rewrite map_get_set_same, Nat.eqb_refl. cbn [negb].
        destruct (gltfLoader (url d)) as [gltf|].
        -- rewrite allocate_eq. cbn [fst].
           match goal with
           | |- noReuse (Scene.addObjectToScene (snd (Scene.allocate ?s0 _)) _ _) =>
               apply (noReuse_add s0); [apply (noReuse_ext st); auto | exact Hh]
           end.
        -- cbn [fst]. apply (noReuse_ext st); auto.
Qed.

Lemma reconcileAll_noReuse (objects : list Shape) (st : Scene.State) :
  consistent st -> noReuse st ->
  noReuse (Scene.reconcileAll data nts gltfLoader st objects).
Proof.
  revert st. induction objects as [|sh objects IH]; intros st C R; simpl; [assumption|].
  pose proof (reconcileShape_noReuse st sh C R) as R1.
  destruct (reconcileShape_step data nts gltfLoader st sh C) as [C1 _].
  destruct (Scene.reconcileShape data nts gltfLoader st sh) as [st' [|]]; cbn [fst] in *.
  - now apply IH.
  - assumption.
Qed.

Lemma removeObjects_noReuse (toRemove : list string) (st : Scene.State) :
  consistent st -> noReuse st -> noReuse (Scene.removeObjectsFromScene st toRemove).
Proof.
  revert st. unfold Scene.removeObjectsFromScene.
  induction toRemove as [|sid rest IH]; intros st C R; simpl; [assumption|].
  apply IH.
  - now destruct (consistent_removeObject st sid C).
  - now apply noReuse_removeObject.
Qed.

(** X17.  Over a reconciliation pass started in a consistent state, no
    entity is disposed of twice, and no entity that has been disposed
    of is in the map or in the scene graph afterwards. *)
Theorem no_entity_is_disposed_twice (st : Scene.State) (objects : list Shape) :
  consistent st -> noReuse st ->
  let st' := Scene.updateObjects data nts gltfLoader st objects in
  noReuse st' /\
  (forall r, In r (retired st') -> ~ In r (Scene.scene st')).
Proof.
  intros C R st'.
  assert (R' : noReuse st').
  { unfold st', Scene.updateObjects.
    apply reconcileAll_noReuse.
    - now destruct (removeObjects_consistent
                      (List.filter (fun k => negb (Scene.member k
                         (List.map (fun obj => id (base obj))
                            (List.filter (fun obj => visible (base obj)) objects))))
                         (Scene.map_keys (Scene.objectsRef st))) st C).
    - now apply removeObjects_noReuse. }
  split; [exact R'|].
  intros r H Hs.
  destruct (updateObjects_consistent data nts gltfLoader st objects C) as [C' _].
  fold st' in C'. destruct C' as [_ _ _ D _ _]. destruct R' as [_ R2 _].
  apply (R2 r H). now apply D.
Qed.

End Disposal.

Lemma no_entity_is_disposed_twice_witness :
  let st := Scene.updateObjects None (fun _ => "") noLoader (Scene.initialState None)
              [sphereShape "A"; polylineShape "B"] in
  let st' := Scene.updateObjects None (fun _ => "") noLoader st [polylineShape "B"] in
  retired st' = [0; 1] /\ Scene.scene st' = [2] /\ NoDup (retired st').
Proof.
  intros st st'. split; [reflexivity|]. split; [reflexivity|].
  assert (C0 : consistent (Scene.initialState None))
    by (constructor; simpl; try constructor; try tauto; intros r []).
  assert (R0 : noReuse (Scene.initialState None))
    by (constructor; simpl; try constructor; intros r []).
  destruct (updateObjects_consistent None (fun _ => "") noLoader (Scene.initialState None)
              [sphereShape "A"; polylineShape "B"] C0) as [C _].
  destruct (no_entity_is_disposed_twice None (fun _ => "") noLoader (Scene.initialState None)
              [sphereShape "A"; polylineShape "B"] C0 R0) as [R _].
  destruct (no_entity_is_disposed_twice None (fun _ => "") noLoader st
              [polylineShape "B"] C R) as [[N _ _] _].
  exact N.
Defined.



(** X19.  [saveOriginalScale] writes the manual scale into the entity
    of a sphere, keeping its size, its [viewAngleConfig] and all of the
    entity outside [userData]; the next update in place of the sphere
    replaces it by the auto-scale factor of the shape ([1] when
    absent), whatever was saved, and leaves the map and the scene graph
    unchanged. *)
Theorem manual_scale_is_overwritten
    (data : option PanelData) (nts : JS.number -> string)
    (st : Scene.State) (b : BaseShape) (s : SphereShape)
    (r : Scene.Ref) (existing : Scene.Object3D) (manual : JS.number) :
  visible b = true ->
  Scene.map_get (id b) (Scene.objectsRef st) = Some r ->
  Scene.deref r (Scene.store st) = Some existing ->
  let saved := Scene.saveOriginalScale st (id b) manual in
  (exists o,
     Scene.deref r (Scene.store saved) = Some o /\
     Scene.originalScale (Scene.userData o) = Some manual /\
     Scene.originalSize (Scene.userData o) = Scene.originalSize (Scene.userData existing) /\
     Scene.viewAngleConfig (Scene.userData o)
     = Scene.viewAngleConfig (Scene.userData existing) /\
     Scene.set_userData o (Scene.userData existing) = existing) /\
  (exists o,
     Scene.deref r (Scene.store (Scene.updateObject data nts saved (Sphere b s))) = Some o /\
     Scene.originalScale (Scene.userData o)
     = Some (Scene.opt_or (sphere_autoScaleFactor s) (JS.Fin 1))) /\
  Scene.objectsRef (Scene.updateObject data nts saved (Sphere b s)) = Scene.objectsRef st /\
  Scene.scene (Scene.updateObject data nts saved (Sphere b s)) = Scene.scene st.
Proof.
  intros V G D saved. unfold saved, Scene.saveOriginalScale. rewrite G, D.
  set (o1 := Scene.set_userData existing _).
  unfold Scene.updateObject. cbn [base visible id]. rewrite V. cbn [negb].
  change (Scene.objectsRef (Scene.mutate st r o1)) with (Scene.objectsRef st).
  change (Scene.store (Scene.mutate st r o1)) with (Scene.assign r o1 (Scene.store st)).
  rewrite G, (deref_assign_same r o1 existing _ D).
  split; [|split; [|split; reflexivity]].
  - exists o1. repeat split. unfold o1. destruct existing. reflexivity.
  - unfold Scene.mutate. state_fields.
    rewrite (deref_assign_same r _ o1 _ (deref_assign_same r o1 existing _ D)).
    eexists. split; [reflexivity|]. unfold Scene.updateSphere.
    cbn [Scene.set_userData Scene.userData Scene.originalScale]. reflexivity.
Qed.

Lemma manual_scale_is_overwritten_witness :
  let b := {| id := "A"; name := "A"; visible := true |} in
  let s := sphereAt "1" "2" "3" in
  let st := Scene.updateObjects None (fun _ => "") noLoader (Scene.initialState None)
              [Sphere b s] in
  exists o,
    Scene.deref 0%nat (Scene.store (Scene.updateObject None (fun _ => "")
                                      (Scene.saveOriginalScale st "A" (JS.Fin 5)) (Sphere b s)))
    = Some o /\
    Scene.originalScale (Scene.userData o) = Some (JS.Fin 1).
Proof.
  intros b s st.
  destruct (manual_scale_is_overwritten None (fun _ => "") st b s 0%nat
           (Scene.createSphere None (Scene.globalViewAngleSettings (Scene.initialState None)) b s)
           (JS.Fin 5) eq_refl eq_refl eq_refl) as [_ [[o [H1 H2]] _]].
  exists o. split; [exact H1 | exact H2].
Defined.

Lemma skipn_length_app {A : Type} (l l' : list A) : List.skipn (length l) (l ++ l') = l'.
Proof. induction l as [|x l IH]; simpl; [reflexivity | exact IH]. Qed.

(** X20.  A model that is recreated without a URL is shown only when
    its identifier has a loading version.  For a visible model with a
    live entity whose recorded URL differs from the new one, the new
    one being blank: the update in place disposes of the entity and
    builds the default cube; once the continuation has run, the cube is
    registered under the identifier when a load was started for it
    before, and otherwise it is dropped and the identifier has no
    entity. *)
Theorem blank_url_model_needs_a_version
    (data : option PanelData) (nts : JS.number -> string)
    (gltfLoader : string -> option Scene.GLTF)
    (st : Scene.State) (b : BaseShape) (d : ModelShape)
    (r : Scene.Ref) (existing : Scene.Object3D) :
  consistent st -> Scene.pending st = [] ->
  visible b = true ->
  Scene.map_get (id b) (Scene.objectsRef st) = Some r ->
  Scene.deref r (Scene.store st) = Some existing ->
  Scene.currentUrl existing <> url d -> Scene.noUrl d = true ->
  let st' := Scene.settlePending data gltfLoader (Scene.updateObject data nts st (Model b d)) in
  newEvents st st' = [Scene.Disposed r; Scene.Created (Scene.nextRef st)] /\
  (Scene.has (id b) (Scene.loadingVersions st) = true ->
     Scene.map_get (id b) (Scene.objectsRef st') = Some (Scene.nextRef st)) /\
  (Scene.has (id b) (Scene.loadingVersions st) = false ->
     Scene.map_get (id b) (Scene.objectsRef st') = None /\
     ~ In (Scene.nextRef st) (Scene.scene st')).
Proof.
  intros C P V G D U N st'.
  assert (E : st' =
    let st1 := snd (Scene.allocate (Scene.removeObject st (id b))
                 (Scene.createDefaultCube data (Scene.globalViewAngleSettings st) b d
                    (Scene.getLast data (model_posX d) (JS.Fin 0),
                     Scene.getLast data (model_posY d) (JS.Fin 0),
                     Scene.getLast data (model_posZ d) (JS.Fin 0)))) in
    if Scene.has (id b) (Scene.loadingVersions st)
    then Scene.addObjectToScene (Scene.set_pending st1 []) (Scene.nextRef st) (id b)
    else Scene.set_pending st1 []).
  { unfold st', Scene.updateObject. cbn [base visible id]. rewrite V, G, D. cbn [negb].
    apply String.eqb_neq in U. rewrite U. cbn [negb].
    unfold Scene.create3DModel_start. rewrite N.
    unfold Scene.removeObject. rewrite G.
    unfold Scene.settlePending, Scene.allocate, Scene.set_pending. state_fields.
    rewrite P. cbn [List.app List.fold_left Scene.settleOne]. state_fields. reflexivity. }
  pose proof (removed_key st (id b) C) as K.
  unfold Scene.removeObject in E, K. rewrite G in E, K.
  unfold Scene.allocate, Scene.set_pending in E. state_fields.
  split; [|split].
  - rewrite E. unfold newEvents.
    destruct (Scene.has (id b) (Scene.loadingVersions st));
      unfold Scene.addObjectToScene; state_fields;
      rewrite <- List.app_assoc; apply skipn_length_app.
  - intro H. rewrite E, H. unfold Scene.addObjectToScene. state_fields.
    apply map_get_set_same.
  - intro H. rewrite E, H. state_fields. split.
    + now apply map_get_none.
    + intro Hin. apply filter_In in Hin. destruct Hin as [Hin _].
      destruct C as [_ _ _ Cs Ca _]. apply Cs in Hin. specialize (Ca _ Hin). lia.
Qed.

Lemma blank_url_model_needs_a_version_witness :
  let b := {| id := "M"; name := "M"; visible := true |} in
  let st := Scene.updateObjects None (fun _ => "") noLoader (Scene.initialState None)
              [Model b (modelShape " ")] in
  let st' := Scene.settlePending None noLoader
               (Scene.updateObject None (fun _ => "") st (Model b (modelShape ""))) in
  Scene.objectsRef st = [("M", 0)] /\
  Scene.map_get "M" (Scene.objectsRef st') = None /\
  newEvents st st' = [Scene.Disposed 0; Scene.Created 1].
Proof.
  intros b st st'.
  assert (C : consistent st).
  { constructor; vm_compute.
    - constructor; [intros [] | constructor].
    - constructor; [intros [] | constructor].
    - constructor; [intros [] | constructor].
    - intro r. tauto.
    - intros r [<-|[]]. constructor.
    - intros r [<-|[]]. discriminate. }
  destruct (blank_url_model_needs_a_version None (fun _ => "") noLoader st b (modelShape "")
              0 (Scene.createDefaultCube None (Scene.globalViewAngleSettings (Scene.initialState None))
                   b (modelShape " ") (JS.Fin 0, JS.Fin 0, JS.Fin 0))
              C eq_refl eq_refl eq_refl eq_refl) as [H1 [_ H3]].
  - discriminate.
  - reflexivity.
  - split; [reflexivity|]. split; [|exact H1].
    now apply H3.
Defined.

(* ================================================================== *)
(** * Properties of the option editors                                *)
(* ================================================================== *)

(** X21.  The option that the target editor shows is always one of
    its options; it is the origin, or carries the current value.  When
    it is not the origin, an object of the panel with a name has this
    identifier, and the camera presets find an object under it. *)
Theorem target_selection_is_offered (ctx : option SimpleOptions) (v : option string) :
  let sel := TargetObjectEditor.selectedOption ctx v in
  In sel (TargetObjectEditor.options ctx) /\
  (sel = TargetObjectEditor.originOption \/
   TargetObjectEditor.sv_value sel = TargetObjectEditor.currentValue v) /\
  (TargetObjectEditor.sv_value sel <> "origin" ->
   exists obj,
     In obj (objectsOf ctx) /\ id (base obj) = TargetObjectEditor.currentValue v /\
     name (base obj) = TargetObjectEditor.sv_label sel /\ name (base obj) <> "" /\
     CameraAxisEditor.findObject (objectsOf ctx) (TargetObjectEditor.sv_value sel) <> None).
Proof.
  intro sel. unfold sel, TargetObjectEditor.selectedOption.
  destruct (List.find _ (TargetObjectEditor.options ctx)) as [o|] eqn:F.
  - apply find_some in F. destruct F as [Hin He]. apply String.eqb_eq in He.
    split; [exact Hin|]. split; [now right|].
    intro N. unfold TargetObjectEditor.options in Hin.
    destruct Hin as [<-|Hin]; [now elim N|].
    assert (X : exists obj, In obj (objectsOf ctx) /\
                  (negb (JS.isEmpty (name (base obj))) && negb (JS.isEmpty (id (base obj))))%bool = true /\
                  o = {| TargetObjectEditor.sv_value := id (base obj);
                         TargetObjectEditor.sv_label := name (base obj) |}).
    { unfold objectsOf. destruct ctx as [c|]; [|contradiction].
      destruct (objects c) as [objs|]; [|contradiction].
      apply in_flat_map in Hin. destruct Hin as [obj [Ho Hi]].
      exists obj. split; [exact Ho|].
      destruct (negb (JS.isEmpty (name (base obj))) && negb (JS.isEmpty (id (base obj))))%bool;
        [|contradiction].
      destruct Hi as [<-|[]]. now split. }
    destruct X as [obj [Ho [Hb ->]]]. cbn [TargetObjectEditor.sv_value TargetObjectEditor.sv_label] in *.
    exists obj. apply andb_true_iff in Hb. destruct Hb as [Hn _].
    repeat split; try assumption.
    + destruct (name (base obj)); [discriminate | discriminate].
    + unfold CameraAxisEditor.findObject. intro Z.
      apply (find_none _ _ Z) in Ho. now rewrite String.eqb_refl in Ho.
  - cbn [TargetObjectEditor.options List.hd].
    split; [now left|]. split; [now left|]. intro N. now elim N.
Qed.

Lemma has_false (k : string) (seen : list string) :
  MeasurementSelectEditor.has k seen = false -> ~ In k seen.
Proof.
  unfold MeasurementSelectEditor.has. intros H Hin.
  assert (T : List.existsb (String.eqb k) seen = true).
  { apply existsb_exists. exists k. split; [assumption | apply String.eqb_refl]. }
  congruence.
Qed.

Lemma NoDup_snoc (k : string) (l : list string) :
  NoDup l -> ~ In k l -> NoDup (l ++ [k]).
Proof.
  intros H N. apply NoDup_app; [assumption | repeat constructor; intros [] |].
  intros x Hx [<-|[]]. contradiction.
Qed.

Lemma visitSeries_fold (frames : list DataFrame)
    (acc : list MeasurementSelectEditor.SelectOption * list string) :
  List.map MeasurementSelectEditor.so_value (fst acc) = snd acc -> NoDup (snd acc) ->
  let r := List.fold_left MeasurementSelectEditor.visitSeries frames acc in
  List.map MeasurementSelectEditor.so_value (fst r) = snd r /\ NoDup (snd r).
Proof.
  revert acc. induction frames as [|s frames IH]; intros [opts seen] E N; simpl; [now split|].
  apply IH; unfold MeasurementSelectEditor.visitSeries; cbn [fst snd] in *;
    repeat match goal with
           | |- context [if ?c then _ else _] => destruct c eqn:?
           end; cbn [fst snd]; try assumption;
    try (rewrite List.map_app, E; reflexivity);
    apply NoDup_snoc; try assumption; apply has_false;
    match goal with
    | H : (_ && negb (MeasurementSelectEditor.has _ _))%bool = true |- _ =>
        apply andb_true_iff in H; destruct H as [_ H]; now apply negb_true_iff in H
    | H : negb (MeasurementSelectEditor.has _ _) = true |- _ => now apply negb_true_iff in H
    end.
Qed.

(** X22.  The options of the measurement editor are never empty and
    hold no value twice, and a current value that is not empty is
    always among them, so that it is the one displayed. *)
Theorem measurement_options_distinct (c : MeasurementSelectEditor.ContextData)
    (defaultValue v : option string) :
  let opts := MeasurementSelectEditor.measurementOptions c defaultValue v in
  NoDup (List.map MeasurementSelectEditor.so_value opts) /\
  opts <> [] /\
  (forall cur, v = Some cur -> cur <> "" ->
     exists o, MeasurementSelectEditor.selected opts v = Some o /\
               MeasurementSelectEditor.so_value o = cur).
Proof.
  intro opts. unfold opts, MeasurementSelectEditor.measurementOptions.
  destruct (visitSeries_fold (MeasurementSelectEditor.dataArray c) ([], []) eq_refl (NoDup_nil _))
    as [E N].
  rewrite <- E in N.
  set (collected := fst (List.fold_left MeasurementSelectEditor.visitSeries
                           (MeasurementSelectEditor.dataArray c) ([], []))) in *.
  set (withDefault :=
         match collected with
         | [] => if negb (JS.isEmpty (CommonHelpers.text_of defaultValue))
                 then [MeasurementSelectEditor.option_of (CommonHelpers.text_of defaultValue)]
                 else [MeasurementSelectEditor.placeholder]
         | _ :: _ => collected
         end).
  assert (Nd : NoDup (List.map MeasurementSelectEditor.so_value withDefault)).
  { unfold withDefault. destruct collected; [|exact N].
    destruct (negb (JS.isEmpty (CommonHelpers.text_of defaultValue)));
      repeat constructor; intros []. }
  assert (Ne : withDefault <> []).
  { unfold withDefault. destruct collected; [|discriminate].
    destruct (negb (JS.isEmpty (CommonHelpers.text_of defaultValue))); discriminate. }
  destruct (List.existsb (fun o => String.eqb (MeasurementSelectEditor.so_value o)
                                     (CommonHelpers.text_of v)) withDefault) eqn:X.
  - rewrite andb_false_r. split; [exact Nd|]. split; [exact Ne|].
    intros cur -> Hc. cbn [CommonHelpers.text_of] in X.
    unfold MeasurementSelectEditor.selected.
    destruct (List.find _ withDefault) as [o|] eqn:F.
    + exists o. split; [reflexivity|]. apply find_some in F. now apply String.eqb_eq.
    + apply existsb_exists in X. destruct X as [o [Ho He]].
      apply (find_none _ _ F) in Ho. congruence.
  - rewrite andb_true_r.
    destruct (negb (JS.isEmpty (CommonHelpers.text_of v))) eqn:B.
    + split; [|split].
      * rewrite List.map_app. apply NoDup_snoc; [exact Nd|].
        cbn [List.map MeasurementSelectEditor.option_of MeasurementSelectEditor.so_value].
        intro Hin. apply in_map_iff in Hin. destruct Hin as [o [Ho Hi]].
        assert (T : List.existsb (fun o => String.eqb (MeasurementSelectEditor.so_value o)
                                     (CommonHelpers.text_of v)) withDefault = true).
        { apply existsb_exists. exists o. split; [assumption|]. now apply String.eqb_eq. }
        congruence.
      * destruct withDefault; discriminate.
      * intros cur -> Hc. cbn [CommonHelpers.text_of] in *.
        unfold MeasurementSelectEditor.selected.
        destruct (List.find _ (withDefault ++ [MeasurementSelectEditor.option_of cur])%list)
          as [o|] eqn:F.
        -- exists o. split; [reflexivity|]. apply find_some in F. now apply String.eqb_eq.
        -- assert (Hin : In (MeasurementSelectEditor.option_of cur)
                            (withDefault ++ [MeasurementSelectEditor.option_of cur])%list)
             by (apply in_or_app; right; now left).
           apply (find_none _ _ F) in Hin.
           cbn [MeasurementSelectEditor.option_of MeasurementSelectEditor.so_value] in Hin.
           now rewrite String.eqb_refl in Hin.
    + split; [exact Nd|]. split; [exact Ne|].
      intros cur -> Hc. cbn [CommonHelpers.text_of] in B.
      destruct cur; [now elim Hc | discriminate].
Qed.

Local Open Scope nat_scope.

Lemma dropIndex_past (l : list Shape) (i index : nat) :
  index < i -> ObjectsEditor.dropIndex l i index = l.
Proof.
  revert i. induction l as [|x l IH]; intros i H; simpl; [reflexivity|].
  destruct (Nat.eqb i index) eqn:E; [apply Nat.eqb_eq in E; lia|].
  rewrite IH by lia. reflexivity.
Qed.

Lemma dropIndex_nth (l : list Shape) (i index j : nat) :
  i <= index ->
  List.nth_error (ObjectsEditor.dropIndex l i index) j
  = if i + j <? index then List.nth_error l j else List.nth_error l (S j).
Proof.
  revert i j. induction l as [|x l IH]; intros i j H; simpl.
  - destruct (i + j <? index); now destruct j.
  - destruct (Nat.eqb i index) eqn:E.
    + apply Nat.eqb_eq in E. subst i.
      rewrite dropIndex_past by lia.
      destruct (index + j <? index) eqn:L; [apply Nat.ltb_lt in L; lia | reflexivity].
    + apply Nat.eqb_neq in E. destruct j as [|j]; simpl.
      * destruct (i + 0 <? index) eqn:L; [reflexivity | apply Nat.ltb_ge in L; lia].
      * rewrite IH by lia.
        replace (S i + j) with (i + S j) by lia. reflexivity.
Qed.

Lemma dropIndex_length (l : list Shape) (i index : nat) :
  i <= index ->
  length (ObjectsEditor.dropIndex l i index)
  = if index <? i + length l then length l - 1 else length l.
Proof.
  revert i. induction l as [|x l IH]; intros i H; simpl.
  - now destruct (index <? i + 0).
  - destruct (Nat.eqb i index) eqn:E.
    + apply Nat.eqb_eq in E. subst i. rewrite dropIndex_past by lia.
      destruct (index <? index + S (length l)) eqn:L; [lia | apply Nat.ltb_ge in L; lia].
    + apply Nat.eqb_neq in E. simpl. rewrite IH by lia.
      replace (S i + length l) with (i + S (length l)) by lia.
      destruct (index <? i + S (length l)) eqn:L; [|reflexivity].
      apply Nat.ltb_lt in L. destruct l; simpl in *; lia.
Qed.

(** X23.  Deleting entry [index] of the object editor removes that
    entry and no other.  A valid selection stays valid; an object other
    than the deleted one stays selected; when the selected object is
    deleted the selection passes to the one that followed it, to the
    last one when none followed, and is cleared when the list becomes
    empty. *)
Theorem delete_keeps_selection (e : ObjectsEditor.Editor) (index : nat) :
  validSelection e ->
  let e' := ObjectsEditor.deleteObject e index in
  validSelection e' /\
  (forall j, List.nth_error (ObjectsEditor.shapes e') j
             = if j <? index then List.nth_error (ObjectsEditor.shapes e) j
               else List.nth_error (ObjectsEditor.shapes e) (S j)) /\
  (forall sel, ObjectsEditor.selectedObjectIndex e = Some sel -> sel <> index ->
     exists sel', ObjectsEditor.selectedObjectIndex e' = Some sel' /\
       List.nth_error (ObjectsEditor.shapes e') sel'
       = List.nth_error (ObjectsEditor.shapes e) sel) /\
  (ObjectsEditor.selectedObjectIndex e = Some index ->
     match ObjectsEditor.selectedObjectIndex e' with
     | None => ObjectsEditor.shapes e' = []
     | Some sel' =>
         if S index <? length (ObjectsEditor.shapes e)
         then List.nth_error (ObjectsEditor.shapes e') sel'
              = List.nth_error (ObjectsEditor.shapes e) (S index)
         else S sel' = index
     end).
Proof.
  intros V e'.
  assert (N : forall j, List.nth_error (ObjectsEditor.shapes e') j
             = if j <? index then List.nth_error (ObjectsEditor.shapes e) j
               else List.nth_error (ObjectsEditor.shapes e) (S j)).
  { intro j. unfold e', ObjectsEditor.deleteObject. cbn [ObjectsEditor.shapes].
    rewrite dropIndex_nth by lia. reflexivity. }
  assert (L : length (ObjectsEditor.shapes e')
              = if index <? length (ObjectsEditor.shapes e)
                then length (ObjectsEditor.shapes e) - 1 else length (ObjectsEditor.shapes e)).
  { unfold e', ObjectsEditor.deleteObject. cbn [ObjectsEditor.shapes].
    rewrite dropIndex_length by lia. reflexivity. }
  unfold validSelection in *.
  unfold e', ObjectsEditor.deleteObject in *.
  cbn [ObjectsEditor.shapes ObjectsEditor.selectedObjectIndex] in *.
  set (newObjects := ObjectsEditor.dropIndex (ObjectsEditor.shapes e) 0 index) in *.
  destruct (ObjectsEditor.selectedObjectIndex e) as [sel|] eqn:S0.
  2:{ repeat split; try discriminate. exact N. }
  specialize (V sel eq_refl).
  destruct (index <? length (ObjectsEditor.shapes e)) eqn:I;
    [apply Nat.ltb_lt in I | apply Nat.ltb_ge in I].
  - destruct (Nat.eqb sel index) eqn:E;
      [apply Nat.eqb_eq in E | apply Nat.eqb_neq in E].
    + subst sel.
      destruct (Nat.eqb (length newObjects) 0) eqn:Z;
        [apply Nat.eqb_eq in Z | apply Nat.eqb_neq in Z].
      * repeat split; try discriminate; try exact N.
        -- intros s [= <-] X. now elim X.
        -- intros _. now apply length_zero_iff_nil.
      * destruct (length newObjects <=? index) eqn:B;
          [apply Nat.leb_le in B | apply Nat.leb_gt in B].
        -- repeat split; try exact N.
           ++ intros s [= <-]. lia.
           ++ intros s [= <-] X. now elim X.
           ++ intros _. destruct (S index <? length (ObjectsEditor.shapes e)) eqn:Q;
                [apply Nat.ltb_lt in Q; lia | lia].
        -- repeat split; try exact N.
           ++ intros s [= <-]. lia.
           ++ intros s [= <-] X. now elim X.
           ++ intros _. destruct (S index <? length (ObjectsEditor.shapes e)) eqn:Q;
                [|apply Nat.ltb_ge in Q; lia].
              rewrite N. now rewrite Nat.ltb_irrefl.
    + destruct (index <? sel) eqn:B; [apply Nat.ltb_lt in B | apply Nat.ltb_ge in B].
      * repeat split; try exact N.
        -- intros s [= <-]. lia.
        -- intros s [= <-] _. exists (sel - 1). split; [reflexivity|].
           rewrite N. destruct (sel - 1 <? index) eqn:Q; [apply Nat.ltb_lt in Q; lia|].
           f_equal. lia.
        -- intros [= X]. now elim E.
      * repeat split; try exact N.
        -- intros s [= <-]. lia.
        -- intros s [= <-] _. exists sel. split; [reflexivity|].
           rewrite N. destruct (sel <? index) eqn:Q; [reflexivity | apply Nat.ltb_ge in Q; lia].
        -- intros [= X]. now elim E.
  - assert (E : Nat.eqb sel index = false) by (apply Nat.eqb_neq; lia).
    assert (B : (index <? sel) = false) by (apply Nat.ltb_ge; lia).
    rewrite E, B.
    repeat split; try exact N.
    + intros s [= <-]. lia.
    + intros s [= <-] _. exists sel. split; [reflexivity|].
      rewrite N. destruct (sel <? index) eqn:Q; [reflexivity | apply Nat.ltb_ge in Q; lia].
    + intros [= X]. lia.
Qed.

Lemma delete_keeps_selection_witness :
  let e := {| ObjectsEditor.shapes := [sphereShape "A"; sphereShape "B"; sphereShape "C"];
              ObjectsEditor.selectedObjectIndex := Some 2 |} in
  ObjectsEditor.selectedObjectIndex (ObjectsEditor.deleteObject e 0) = Some 1 /\
  List.nth_error (ObjectsEditor.shapes (ObjectsEditor.deleteObject e 0)) 1
  = Some (sphereShape "C").
Proof.
  intro e.
  assert (V : validSelection e) by (intros sel [= <-]; simpl; lia).
  destruct (delete_keeps_selection e 0 V) as [_ [_ [H _]]].
  destruct (H 2 eq_refl) as [sel' [H1 H2]]; [lia|].
  split; [reflexivity|]. reflexivity.
Defined.

Lemma num_or_truthy (x d : JS.number) :
  JS.truthy d = true -> JS.truthy (JS.num_or x d) = true.
Proof. intro H. unfold JS.num_or. now destruct (JS.truthy x) eqn:E. Qed.

(** X24.  Each of the three inputs of the view-angle scaling editor
    changes its own setting only.  The stored value is what
    [parseFloat] reads from the input when that is neither zero nor
    [NaN], and the fallback of the input ([0.2], [0.1], [14720000000])
    otherwise: a setting edited there is never zero and never [NaN]. *)
Theorem edited_setting_is_never_zero
    (v : option ViewAngleScalingEditor.PartialSettings) (input : string) :
  let s := ViewAngleScalingEditor.settings v in
  let t := ViewAngleScalingEditor.changeTargetAngularSize v input in
  let lo := ViewAngleScalingEditor.changeMinSize v input in
  let hi := ViewAngleScalingEditor.changeMaxSize v input in
  (JS.truthy (vas_targetAngularSize t) = true /\
   vas_minSize t = vas_minSize s /\ vas_maxSize t = vas_maxSize s) /\
  (JS.truthy (vas_minSize lo) = true /\
   vas_targetAngularSize lo = vas_targetAngularSize s /\ vas_maxSize lo = vas_maxSize s) /\
  (JS.truthy (vas_maxSize hi) = true /\
   vas_targetAngularSize hi = vas_targetAngularSize s /\ vas_minSize hi = vas_minSize s) /\
  (JS.truthy (JS.parseFloat input) = true ->
     vas_targetAngularSize t = JS.parseFloat input /\
     vas_minSize lo = JS.parseFloat input /\ vas_maxSize hi = JS.parseFloat input) /\
  (JS.truthy (JS.parseFloat input) = false ->
     vas_targetAngularSize t = JS.Fin (2 # 10) /\
     vas_minSize lo = JS.Fin (1 # 10) /\ vas_maxSize hi = JS.Fin 14720000000).
Proof.
  cbv zeta.
  unfold ViewAngleScalingEditor.changeTargetAngularSize, ViewAngleScalingEditor.changeMinSize,
    ViewAngleScalingEditor.changeMaxSize, ViewAngleScalingEditor.updateSettings,
    ViewAngleScalingEditor.spread.
  cbn [ViewAngleScalingEditor.p_targetAngularSize ViewAngleScalingEditor.p_minSize
       ViewAngleScalingEditor.p_maxSize vas_targetAngularSize vas_minSize vas_maxSize].
  repeat split; try reflexivity; try (apply num_or_truthy; reflexivity);
    unfold JS.num_or;
    match goal with H : JS.truthy _ = _ |- _ => now rewrite H end.
Qed.

Local Open Scope string_scope.

Lemma unsignedLiteral_reduced (s : string) : reduced (JS.unsignedLiteral s).
Proof.
  unfold JS.unsignedLiteral.
  destruct (String.prefix "Infinity" s); [exact I|].
  destruct (JS.takeDigits s 0%Z 0%nat) as [[iv ni] r1].
  destruct (match r1 with
            | String "."%char r => JS.takeDigits r iv 0%nat
            | _ => (iv, 0%nat, r1)
            end) as [[mv nf] r2].
  destruct (ni + nf)%nat; [exact I|]. unfold reduced. eexists. reflexivity.
Qed.

Lemma neg_reduced (x : JS.number) : reduced (JS.neg x).
Proof. destruct x; cbn [JS.neg reduced]; try exact I. eexists. reflexivity. Qed.

Lemma parseFloat_reduced (s : string) : reduced (JS.parseFloat s).
Proof.
  unfold JS.parseFloat.
  destruct (JS.trimStart s) as [|c r]; [apply unsignedLiteral_reduced|].
  destruct c as [[] [] [] [] [] [] [] []];
    first [apply unsignedLiteral_reduced | apply neg_reduced].
Qed.

Lemma readCoordinate_getLast (data : option PanelData) (f : DataField) :
  plainConstant f -> readCoordinate f = Scene.getLast data f (JS.Fin 0).
Proof.
  intros [Hc [Hi [Hp Hn]]].
  unfold readCoordinate, Scene.getLast, DataFieldProcessor.getLastDataFieldValue,
    DataFieldProcessor.getLastDataFieldValue_console, DataFieldProcessor.getDataFieldValue.
  rewrite Hc.
  destruct (value f) as [|c r] eqn:V.
  - reflexivity.
  - unfold JS.str_or. cbn [JS.isEmpty]. rewrite Hi.
    pose proof (parseFloat_reduced (String c r)) as R.
    destruct (JS.parseFloat (String c r)) as [q| | |] eqn:P;
      try reflexivity; try (now elim Hp); try (now elim Hn).
    cbn [JS.isFinite DataFieldProcessor.lastElement List.last negb fst].
    unfold JS.num_or, JS.truthy.
    destruct (Qeq_bool q 0) eqn:Z; [|reflexivity].
    cbn [negb]. apply Qeq_bool_eq in Z. destruct R as [y ->].
    f_equal. change 0%Q with (Qred 0). apply Qred_complete.
    now rewrite Qred_correct in Z.
Qed.

(** X25.  When the designated target is a sphere whose three
    positions are plain constants (const source, no comma, not an
    infinity), the target that the camera presets are computed from is
    the position at which [createSphere] puts the entity. *)
Theorem preset_target_is_sphere_position
    (data : option PanelData) (g : ViewAngleScalingSettings)
    (options : option SimpleOptions) (b : BaseShape) (s : SphereShape) :
  designated options = Some (id b) ->
  CameraAxisEditor.findObject (objectsOf options) (id b) = Some (Sphere b s) ->
  plainConstant (sphere_posX s) -> plainConstant (sphere_posY s) ->
  plainConstant (sphere_posZ s) ->
  CameraAxisEditor.targetPosition options = Scene.position (Scene.createSphere data g b s).
Proof.
  intros Hd Hf Px Py Pz.
  pose proof (designated_spec options) as D. cbv zeta in D. rewrite Hd in D.
  destruct D as [Dt Dn].
  unfold CameraAxisEditor.targetPosition. fold (objectsOf options).
  rewrite Dt, Dn. cbn [negb]. rewrite Hf. cbn [posX posY posZ].
  destruct Px as [Cx Px']. rewrite Cx.
  unfold Scene.createSphere. cbn [Scene.position].
  fold (readCoordinate (sphere_posX s)) (readCoordinate (sphere_posY s))
       (readCoordinate (sphere_posZ s)).
  rewrite (readCoordinate_getLast data (sphere_posX s)) by (split; assumption).
  rewrite (readCoordinate_getLast data (sphere_posY s) Py).
  rewrite (readCoordinate_getLast data (sphere_posZ s) Pz).
  reflexivity.
Qed.

Lemma preset_target_is_sphere_position_witness :
  let b := {| id := "A"; name := "A"; visible := true |} in
  let s := sphereAt "1" "2" "3" in
  CameraAxisEditor.targetPosition
    (Some {| targetObjectId := Some "A"; objects := Some [Sphere b s] |})
  = Scene.position (Scene.createSphere None
      {| vas_targetAngularSize := JS.Fin 1; vas_minSize := JS.Fin 1; vas_maxSize := JS.Fin 2 |}
      b s).
Proof.
  intros b s.
  apply preset_target_is_sphere_position; try reflexivity;
    (split; [reflexivity | split; [reflexivity | split; discriminate]]).
Defined.

(** X26.  [addObject] appends the new shape, leaves the other entries
    in place and selects the new one.  Whatever its type, the next
    reconciliation of an identifier not yet in the map creates one
    entity for it, named after type and identifier and placed at the
    origin, without waiting for the loader. *)
Theorem added_object_appears_at_origin
    (data : option PanelData) (nts : JS.number -> string)
    (gltfLoader : string -> option Scene.GLTF)
    (e : ObjectsEditor.Editor) (t : ShapeType) (newId : string) (st : Scene.State) :
  Scene.has newId (Scene.objectsRef st) = false ->
  let added := ObjectsEditor.createNewShape t newId in
  let e' := ObjectsEditor.addObject e t newId in
  (exists sel, ObjectsEditor.selectedObjectIndex e' = Some sel /\
               List.nth_error (ObjectsEditor.shapes e') sel = Some added) /\
  (forall j, (j < length (ObjectsEditor.shapes e))%nat ->
     List.nth_error (ObjectsEditor.shapes e') j = List.nth_error (ObjectsEditor.shapes e) j) /\
  exists o,
    Scene.reconcileShape data nts gltfLoader st added
    = (Scene.addObjectToScene (snd (Scene.allocate st o)) (Scene.nextRef st) newId, true) /\
    Scene.position o = (JS.Fin 0, JS.Fin 0, JS.Fin 0) /\
    Scene.object_name o = ObjectsEditor.typeName t ++ "_" ++ newId.
Proof.
  intros H added e'. split; [|split].
  - exists (length (ObjectsEditor.shapes e)). unfold e', ObjectsEditor.addObject.
    cbn [ObjectsEditor.selectedObjectIndex ObjectsEditor.shapes].
    rewrite List.length_app. cbn [length]. split; [f_equal; lia|].
    rewrite nth_error_app2 by lia. now rewrite Nat.sub_diag.
  - intros j Hj. unfold e', ObjectsEditor.addObject. cbn [ObjectsEditor.shapes].
    now apply nth_error_app1.
  - unfold added, Scene.reconcileShape.
    destruct t; cbn [ObjectsEditor.createNewShape base visible id negb]; rewrite H.
    + eexists. split; [reflexivity|]. split; reflexivity.
    + unfold Scene.create3DModel_start. cbn [url Scene.noUrl JS.isEmpty orb].
      eexists. split; [reflexivity|]. split; reflexivity.
    + eexists. split; [reflexivity|]. split; reflexivity.
    + eexists. split; [reflexivity|]. split; reflexivity.
Qed.

Lemma added_object_appears_at_origin_witness :
  exists o,
    Scene.reconcileShape None (fun _ => "") noLoader (Scene.initialState None)
      (ObjectsEditor.createNewShape model3d "17")
    = (Scene.addObjectToScene (snd (Scene.allocate (Scene.initialState None) o)) 0%nat "17", true) /\
    Scene.position o = (JS.Fin 0, JS.Fin 0, JS.Fin 0).
Proof.
  destruct (added_object_appears_at_origin None (fun _ => "") noLoader
              (ObjectsEditor.initialEditor []) model3d "17" (Scene.initialState None)
              eq_refl) as [_ [_ [o [H1 [H2 _]]]]].
  exists o. split; [exact H1 | exact H2].
Defined.
